(** * brave.core.key.model: the EVE credential reconciliation engine

    A shallow embedding of [EVECredential] (src/brave/core/key/model.py) and
    of the documents it reconciles.  Python objects held in memory and the
    documents persisted in the store are kept apart: a method mutates the
    in-memory credential [this], and only [save] writes it to the
    [Credentials] collection. *)

From stdpp Require Import gmap strings list fin_maps.
From Stdlib Require Import ZArith DecimalString.
From Stdlib Require DecimalZ DecimalPos.

Local Open Scope Z_scope.

(** ** Documents *)

Definition ObjectId := Z.
Definition UserRef := Z.
Definition datetime := Z.

(** [EVECredential] (lines 23-50).  [cred_id] is the document's [id]. *)
Record EVECredential := mkCredential {
  cred_id : ObjectId;
  key : Z;
  code : string;
  kind : string;
  _mask : Z;
  verified : bool;
  expires : option datetime;
  owner : option UserRef;
  violation : option string;
  modified : datetime
}.

(** The fields of [EVECharacter] that [pull_character] writes. *)
Record EVECharacter := mkCharacter {
  char_identifier : Z;
  char_name : option string;
  char_owner : option UserRef;
  char_credentials : list ObjectId;
  char_corporation : option Z;
  char_alliance : option Z;
  char_race : option string;
  char_bloodline : option string;
  char_ancestry : option string;
  char_gender : option string;
  char_security : option string;
  char_titles : list string;
  char_roles : list string
}.

Record EVEAlliance := mkAlliance {
  alliance_identifier : Z;
  alliance_name : option string
}.

Record EVECorporation := mkCorporation {
  corp_identifier : Z;
  corp_name : string;
  corp_alliance : option Z
}.

Global Instance EVECredential_eq_dec : EqDecision EVECredential.
Proof. solve_decision. Defined.
Global Instance EVECharacter_eq_dec : EqDecision EVECharacter.
Proof. solve_decision. Defined.
Global Instance EVEAlliance_eq_dec : EqDecision EVEAlliance.
Proof. solve_decision. Defined.
Global Instance EVECorporation_eq_dec : EqDecision EVECorporation.
Proof. solve_decision. Defined.

(** A grant of an application on a character (brave.core.application). *)
Record ApplicationGrant := mkGrant {
  grant_application : Z;
  grant_character : Z
}.

(** ** Remote payloads *)

(** A name as the API client hands it over: a string, or a number when the
    name looks like one (line 136 normalises it with [str]). *)
Inductive PyVal :=
| PyStr (s : string)
| PyInt (n : Z).

(** One row of [result.characters.row], a [CharacterSheet] or a
    [CharacterInfoPublic]: the variable [info] of [pull_character].  A field
    is [None] when the key is not in the payload. *)
Record Info := mkInfo {
  characterID : Z;
  characterName : option PyVal;
  info_name : option PyVal;
  corporationID : option Z;
  corporationName : option string;
  info_corporation : option string;
  allianceID : option Z;
  allianceName : option string;
  info_alliance : option string;
  info_race : option string;
  bloodLine : option string;
  info_bloodline : option string;
  info_ancestry : option string;
  info_gender : option string;
  info_security : option string;
  corporationTitles : option (list string);
  corporationRoles : option (list string)
}.

(** The answer of [api.account.APIKeyInfo]. *)
Record KeyInfo := mkKeyInfo {
  accessMask : Z;
  key_type : string;
  key_expires : option string;
  characters_row : list Info
}.

(** ** Exceptions and outcomes *)

Inductive exn :=
| NotUniqueError
| AttributeError
| ValueError
| IndexError
| HTTPError (status_code : Z)
| RemoteError.

Inductive outcome (A : Type) :=
| Return (a : A)
| Raise (e : exn).
Arguments Return {A} a.
Arguments Raise {A} e.

(** ** Key masks (the [mask] property, lines 75-87) *)

Inductive KeyMask :=
| EVECharacterKeyMask (m : Z)
| EVECorporationKeyMask (m : Z).

Definition mask_of (k : string) (m : Z) : option KeyMask :=
  if bool_decide (k = "Account") then Some (EVECharacterKeyMask m)
  else if bool_decide (k = "Character") then Some (EVECharacterKeyMask m)
  else if bool_decide (k = "Corporation") then Some (EVECorporationKeyMask m)
  else None.

Definition mask (self : EVECredential) : option KeyMask :=
  mask_of (kind self) (_mask self).

(** ** The collaborators the module imports

    [config], [api], [strip_tags], the key-mask predicate and the Python
    builtins are not part of model.py; the engine takes them as an
    environment. *)
Record Env := mkEnv {
  recommended_key_mask : string;
  recommended_key_kind : string;
  py_int : string -> option Z;
  py_str : Z -> string;
  strptime : string -> option datetime;
  strip_tags : string -> string;
  has_access : KeyMask -> Z -> bool;
  APIKeyInfo : Z -> string -> outcome KeyInfo;
  CharacterSheet : Z -> string -> Z -> outcome Info;
  CharacterSheet_mask : Z;
  CharacterInfoPublic : Z -> string -> Z -> outcome Info;
  CharacterInfoPublic_mask : Z
}.

(** ** The store and the state a method runs in *)

(** What a method does besides changing the store: the lines it logs (a
    message logged with arguments is recorded by its template), the
    documents it saves and deletes, and its calls to
    [ApplicationGrant.remove_grants_for_character] and
    [EVECharacter.detach]. *)
Inductive Event :=
| Logged (level : string) (message : string)
| Saved (collection : string) (pk : Z)
| Deleted (collection : string) (pk : Z)
| GrantsRemoved (character : Z)
| Detached (character : Z).

Record Store := mkStore {
  Credentials : gmap Z EVECredential;
  Characters : gmap Z EVECharacter;
  Corporations : gmap Z EVECorporation;
  Alliances : gmap Z EVEAlliance;
  duplicates : gset (option UserRef * option UserRef);
  grants : list ApplicationGrant
}.

Record State := mkState {
  this : EVECredential;
  db : Store;
  trace : list Event
}.

Definition M (A : Type) : Type := State -> outcome A * State.

Definition ret {A} (a : A) : M A := fun st => (Return a, st).
Definition raise {A} (e : exn) : M A := fun st => (Raise e, st).
Definition bind {A B} (m : M A) (k : A -> M B) : M B :=
  fun st =>
    match m st with
    | (Return a, st') => k a st'
    | (Raise e, st') => (Raise e, st')
    end.
Definition gets {A} (f : State -> A) : M A := fun st => (Return (f st), st).
Definition modify (f : State -> State) : M unit := fun st => (Return tt, f st).
Definition lift {A} (o : outcome A) : M A := fun st => (o, st).

(** [try: m except Exception as e: h e], on the state [m] left behind. *)
Definition try_except {A} (m : M A) (h : exn -> M A) : M A :=
  fun st =>
    match m st with
    | (Return a, st') => (Return a, st')
    | (Raise e, st') => h e st'
    end.

Notation "'let*' x ':=' m 'in' k" := (bind m (fun x => k))
  (at level 10, x name, m at level 100, k at level 200).
Notation "'let*' ' p ':=' m 'in' k" :=
  (bind m (fun x => match x with p => k end))
  (at level 10, p strict pattern, m at level 100, k at level 200).
Notation "m ;;; k" := (bind m (fun _ => k))
  (at level 100, right associativity).

Fixpoint for_each {A} (f : A -> M unit) (l : list A) : M unit :=
  match l with
  | [] => ret tt
  | x :: l' => f x ;;; for_each f l'
  end.

(** *** State updates *)

Definition with_this (f : EVECredential -> EVECredential) (st : State) : State :=
  mkState (f (this st)) (db st) (trace st).
Definition with_db (f : Store -> Store) (st : State) : State :=
  mkState (this st) (f (db st)) (trace st).
Definition emit (e : Event) (st : State) : State :=
  mkState (this st) (db st) (trace st ++ [e]).

Definition with_Credentials (f : gmap Z EVECredential -> gmap Z EVECredential)
    (s : Store) : Store :=
  mkStore (f (Credentials s)) (Characters s) (Corporations s) (Alliances s)
          (duplicates s) (grants s).
Definition with_Characters (f : gmap Z EVECharacter -> gmap Z EVECharacter)
    (s : Store) : Store :=
  mkStore (Credentials s) (f (Characters s)) (Corporations s) (Alliances s)
          (duplicates s) (grants s).
Definition with_Corporations (f : gmap Z EVECorporation -> gmap Z EVECorporation)
    (s : Store) : Store :=
  mkStore (Credentials s) (Characters s) (f (Corporations s)) (Alliances s)
          (duplicates s) (grants s).
Definition with_Alliances (f : gmap Z EVEAlliance -> gmap Z EVEAlliance)
    (s : Store) : Store :=
  mkStore (Credentials s) (Characters s) (Corporations s) (f (Alliances s))
          (duplicates s) (grants s).
Definition with_duplicates
    (f : gset (option UserRef * option UserRef) -> gset (option UserRef * option UserRef))
    (s : Store) : Store :=
  mkStore (Credentials s) (Characters s) (Corporations s) (Alliances s)
          (f (duplicates s)) (grants s).
Definition with_grants (f : list ApplicationGrant -> list ApplicationGrant)
    (s : Store) : Store :=
  mkStore (Credentials s) (Characters s) (Corporations s) (Alliances s)
          (duplicates s) (f (grants s)).

Definition log (level message : string) : M unit :=
  modify (emit (Logged level message)).

(** Field assignments on the in-memory credential. *)
Definition set_mask (v : Z) (c : EVECredential) : EVECredential :=
  mkCredential (cred_id c) (key c) (code c) (kind c) v (verified c)
               (expires c) (owner c) (violation c) (modified c).
Definition set_kind (v : string) (c : EVECredential) : EVECredential :=
  mkCredential (cred_id c) (key c) (code c) v (_mask c) (verified c)
               (expires c) (owner c) (violation c) (modified c).
Definition set_verified (v : bool) (c : EVECredential) : EVECredential :=
  mkCredential (cred_id c) (key c) (code c) (kind c) (_mask c) v
               (expires c) (owner c) (violation c) (modified c).
Definition set_expires (v : option datetime) (c : EVECredential) : EVECredential :=
  mkCredential (cred_id c) (key c) (code c) (kind c) (_mask c) (verified c)
               v (owner c) (violation c) (modified c).
Definition set_violation (v : option string) (c : EVECredential) : EVECredential :=
  mkCredential (cred_id c) (key c) (code c) (kind c) (_mask c) (verified c)
               (expires c) (owner c) v (modified c).
Definition set_modified (v : datetime) (c : EVECredential) : EVECredential :=
  mkCredential (cred_id c) (key c) (code c) (kind c) (_mask c) (verified c)
               (expires c) (owner c) (violation c) v.

(** ** The documents' own operations *)

(** [self.save()]: the in-memory credential replaces the stored one.  The
    handlers the class is decorated with (lines 21-22) come from
    brave.core.util.signal, which is not under src/ and which the
    specification leaves out; they are not run here, so what is said below
    of a saved record is said of its fields other than [modified] wherever
    a save alone could have refreshed it. *)
Definition save : M EVECredential :=
  let* self := gets this in
  modify (with_db (with_Credentials (insert (cred_id self) self))) ;;;
  modify (emit (Saved "Credentials" (cred_id self))) ;;;
  ret self.

(** [EVECharacter(identifier=i).save()]: [identifier] is unique, a second
    row with the same one is refused with [NotUniqueError]. *)
Definition new_character (i : Z) : EVECharacter :=
  mkCharacter i None None [] None None None None None None None [] [].

Definition character_create (i : Z) : M EVECharacter :=
  let* chars := gets (fun st => Characters (db st)) in
  match chars !! i with
  | Some _ => raise NotUniqueError
  | None =>
      modify (with_db (with_Characters (insert i (new_character i)))) ;;;
      modify (emit (Saved "Characters" i)) ;;;
      ret (new_character i)
  end.

(** [EVECharacter.objects(identifier=i)[0]]. *)
Definition character_first (i : Z) : M EVECharacter :=
  let* chars := gets (fun st => Characters (db st)) in
  match chars !! i with
  | Some c => ret c
  | None => raise IndexError
  end.

Definition character_save (c : EVECharacter) : M EVECharacter :=
  modify (with_db (with_Characters (insert (char_identifier c) c))) ;;;
  modify (emit (Saved "Characters" (char_identifier c))) ;;;
  ret c.

Definition character_delete (c : EVECharacter) : M unit :=
  modify (with_db (with_Characters (delete (char_identifier c)))) ;;;
  modify (emit (Deleted "Characters" (char_identifier c))).

(** The [characters] property (lines 70-73): a fresh query for the
    characters whose credential list holds this credential. *)
Definition attached (self : EVECredential) (c : EVECharacter) : bool :=
  bool_decide (cred_id self ∈ char_credentials c).

Definition characters_of (self : EVECredential) (s : Store) : list EVECharacter :=
  filter (fun c => attached self c = true) (map_to_list (Characters s)).*2.

Definition characters : M (list EVECharacter) :=
  gets (fun st => characters_of (this st) (db st)).

(** Modelled from the spec: [EVECharacter.detach] lives in
    brave.core.character.model, which is not under src/.  The method takes
    no credential: in [delete] the caller itself checks for other
    credentials before the call (line 63) and removes the credential after
    it (line 66).  Of the contract of section 4.5 that leaves the method
    with what the glossary and the scenario of section 8 name: the owner
    reference is removed, and the row is kept and persisted.  The call is
    recorded in the trace as [Detached]. *)
Definition set_char_owner (o : option UserRef) (c : EVECharacter) : EVECharacter :=
  mkCharacter (char_identifier c) (char_name c) o (char_credentials c)
              (char_corporation c) (char_alliance c) (char_race c)
              (char_bloodline c) (char_ancestry c) (char_gender c)
              (char_security c) (char_titles c) (char_roles c).

Definition detach (c : EVECharacter) : M unit :=
  modify (emit (Detached (char_identifier c))) ;;;
  character_save (set_char_owner None c) ;;; ret tt.

(** Modelled from the spec: [User.add_duplicate] lives in
    brave.core.account.model, which is not under src/.  Section 6 has
    [recordDuplicate(accountA, accountB)] idempotent and symmetric: the
    registry is a set that receives the link in both directions. *)
Definition add_duplicate (a b : option UserRef) : M unit :=
  modify (with_db (with_duplicates (fun d => {[ (a, b); (b, a) ]} ∪ d))).

(** Modelled from the spec: [ApplicationGrant.remove_grants_for_character]
    lives in brave.core.application.model, which is not under src/.
    Section 6 has [revokeGrantsForIdentity(identityId)] idempotent on the
    receiving side: every grant on the character is dropped. *)
Definition remove_grants_for_character (c : EVECharacter) : M unit :=
  modify (with_db (with_grants
    (filter (fun g => grant_character g ≠ char_identifier c)))) ;;;
  modify (emit (GrantsRemoved (char_identifier c))).

(** Modelled from the spec: the reverse delete rule that EVECharacter
    declares on its credential list (the declaration is not under src/; the
    comment at lines 230-239 is about it).  Sections 3 and 4.5 have a dropped
    credential removed from the credential set of every identity. *)
Definition remove_credential (i : ObjectId) (c : EVECharacter) : EVECharacter :=
  mkCharacter (char_identifier c) (char_name c) (char_owner c)
              (filter (fun k => k ≠ i) (char_credentials c))
              (char_corporation c) (char_alliance c) (char_race c)
              (char_bloodline c) (char_ancestry c) (char_gender c)
              (char_security c) (char_titles c) (char_roles c).

Definition document_delete : M unit :=
  let* self := gets this in
  modify (with_db (with_Credentials (delete (cred_id self)))) ;;;
  modify (with_db (with_Characters (fmap (remove_credential (cred_id self))))) ;;;
  modify (emit (Deleted "Credentials" (cred_id self))).

(** ** EVECredential.delete (lines 59-68) *)

(** [char.credentials.remove(self)] on the queried object: [list.remove]
    drops the first occurrence. *)
Fixpoint list_remove (i : ObjectId) (l : list ObjectId) : list ObjectId :=
  match l with
  | [] => []
  | k :: l' => if bool_decide (k = i) then l' else k :: list_remove i l'
  end.

Definition credentials_remove (i : ObjectId) (c : EVECharacter) : EVECharacter :=
  mkCharacter (char_identifier c) (char_name c) (char_owner c)
              (list_remove i (char_credentials c))
              (char_corporation c) (char_alliance c) (char_race c)
              (char_bloodline c) (char_ancestry c) (char_gender c)
              (char_security c) (char_titles c) (char_roles c).

(** Line 63: no credential of the character but this one. *)
Definition no_other_key (self : EVECredential) (char : EVECharacter) : bool :=
  bool_decide
    (length (filter (fun c => c ≠ cred_id self) (char_credentials char)) = 0%nat).

(** The body of the loop; the object it returns is the in-memory [char]
    after line 66, which nothing saves. *)
Definition delete_char (self : EVECredential) (char : EVECharacter) : M EVECharacter :=
  (if no_other_key self char then detach char else ret tt) ;;;
  ret (credentials_remove (cred_id self) char).

Definition delete : M unit :=
  let* self := gets this in
  let* chars := characters in
  for_each (fun char => delete_char self char ;;; ret tt) chars ;;;
  document_delete.

(** ** EVECredential.get_membership (lines 154-183) *)

(** [info.x] for a key that may be missing. *)
Definition attr {A} (o : option A) : M A :=
  match o with
  | Some a => ret a
  | None => raise AttributeError
  end.

(** Line 158. *)
Definition resolve_allianceName (info : Info) : option string :=
  match info_alliance info with
  | Some a => Some a
  | None =>
      match allianceName info with
      | Some a => Some a
      | None => None
      end
  end.

(** Line 159. *)
Definition resolve_corporationName (info : Info) : M string :=
  match info_corporation info with
  | Some c => ret c
  | None => attr (corporationName info)
  end.

(** [EVEAlliance.objects.get_or_create(identifier=i, defaults=dict(name=n))]. *)
Definition alliance_get_or_create (i : Z) (n : option string) : M (EVEAlliance * bool) :=
  let* allis := gets (fun st => Alliances (db st)) in
  match allis !! i with
  | Some a => ret (a, false)
  | None =>
      modify (with_db (with_Alliances (insert i (mkAlliance i n)))) ;;;
      modify (emit (Saved "Alliances" i)) ;;;
      ret (mkAlliance i n, true)
  end.

Definition alliance_save (a : EVEAlliance) : M EVEAlliance :=
  modify (with_db (with_Alliances (insert (alliance_identifier a) a))) ;;;
  modify (emit (Saved "Alliances" (alliance_identifier a))) ;;;
  ret a.

Definition corporation_get_or_create (i : Z) (n : string) (a : option Z)
    : M (EVECorporation * bool) :=
  let* corps := gets (fun st => Corporations (db st)) in
  match corps !! i with
  | Some c => ret (c, false)
  | None =>
      modify (with_db (with_Corporations (insert i (mkCorporation i n a)))) ;;;
      modify (emit (Saved "Corporations" i)) ;;;
      ret (mkCorporation i n a, true)
  end.

Definition corporation_save (c : EVECorporation) : M EVECorporation :=
  modify (with_db (with_Corporations (insert (corp_identifier c) c))) ;;;
  modify (emit (Saved "Corporations" (corp_identifier c))) ;;;
  ret c.

(** Lines 161-168: the alliance, created from or corrected to the resolved
    name. *)
Definition membership_alliance (info : Info) : M (option EVEAlliance) :=
  let allianceName := resolve_allianceName info in
  let* '(alliance, created) :=
    match allianceID info with
    | Some aid =>
        if bool_decide (aid ≠ 0)
        then let* '(a, created) := alliance_get_or_create aid allianceName in
             ret (Some a, created)
        else ret (None, false)
    | None => ret (None, false)
    end in
  match alliance with
  | Some a =>
      if negb created && bool_decide (alliance_name a ≠ allianceName)
      then let* a' := alliance_save (mkAlliance (alliance_identifier a) allianceName) in
           ret (Some a')
      else ret (Some a)
  | None => ret None
  end.

(** Lines 170-181.  [_changed_fields] holds a field once an assignment gave
    it a value different from the loaded one. *)
Definition membership_corporation (info : Info) (corporationName : string)
    (alliance : option EVEAlliance) : M EVECorporation :=
  let* cid := attr (corporationID info) in
  let aref := alliance_identifier <$> alliance in
  let* '(corporation, _) := corporation_get_or_create cid corporationName aref in
  let name_changed := bool_decide (corp_name corporation ≠ corporationName) in
  let alliance_changed := bool_decide (corp_alliance corporation ≠ aref) in
  let corporation' := mkCorporation (corp_identifier corporation) corporationName aref in
  if name_changed || alliance_changed
  then corporation_save corporation'
  else ret corporation'.

Definition get_membership (info : Info) : M (EVECorporation * option EVEAlliance) :=
  let* corporationName := resolve_corporationName info in
  let* alliance := membership_alliance info in
  let* corporation := membership_corporation info corporationName alliance in
  ret (corporation, alliance).

(** ** EVECredential.pull_character (lines 96-152) *)

(** Lines 121-131: the richest view the mask permits.  Anything raised in
    the [try] block, the missing mask object included, takes the handler.
    The answer itself is a value; what the [mask] property logs on the way
    (line 86) is logged by [fetch_character]. *)
Definition character_view (E : Env) (self : EVECredential) (info : Info) : outcome Info :=
  match mask self with
  | None => Raise AttributeError
  | Some m =>
      if has_access E m (CharacterSheet_mask E)
      then CharacterSheet E (key self) (code self) (characterID info)
      else if has_access E m (CharacterInfoPublic_mask E)
      then CharacterInfoPublic E (key self) (code self) (characterID info)
      else Return info
  end.

Definition fetch_character (E : Env) (info : Info) (char : EVECharacter) (new : bool)
    : M Info :=
  let* self := gets this in
  (match mask self with
   | Some _ => ret tt
   | None => log "info" "Incorrect key type %s for key %s."
   end) ;;;
  match character_view E self info with
  | Return info' => ret info'
  | Raise e =>
      log "warning" "An error occured while querying data for key %s." ;;;
      (if new then character_delete char else ret tt) ;;;
      raise e
  end.

(** Lines 135-137. *)
Definition resolve_name (E : Env) (info : Info) : M string :=
  let* n := match info_name info with
            | Some n => ret n
            | None => attr (characterName info)
            end in
  match n with
  | PyStr s => ret s
  | PyInt z => ret (py_str E z)
  end.

(** Lines 139-140. *)
Definition append_credential (i : ObjectId) (l : list ObjectId) : list ObjectId :=
  if bool_decide (i ∈ l) then l else l ++ [i].

(** Lines 142-144. *)
Definition resolve_bloodline (info : Info) : option string :=
  match bloodLine info with
  | Some b => Some b
  | None =>
      match info_bloodline info with
      | Some b => Some b
      | None => None
      end
  end.

(** Lines 121-152, once the row is at hand. *)
Definition merge_character (E : Env) (info : Info) (char : EVECharacter) (new : bool)
    : M (option EVECharacter) :=
  let* info := fetch_character E info char new in
  let* '(corporation, alliance) := get_membership info in
  let* name := resolve_name E info in
  let* self := gets this in
  let char' :=
    mkCharacter (char_identifier char) (Some name) (owner self)
                (append_credential (cred_id self) (char_credentials char))
                (Some (corp_identifier corporation))
                (alliance_identifier <$> alliance)
                (info_race info) (resolve_bloodline info) (info_ancestry info)
                (info_gender info) (info_security info)
                (match corporationTitles info with
                 | Some rows => map (strip_tags E) rows
                 | None => []
                 end)
                (match corporationRoles info with
                 | Some rows => rows
                 | None => []
                 end) in
  let* saved := character_save char' in
  ret (Some saved).

(** Line 109: [char.owner and self.owner != char.owner]. *)
Definition owner_conflict (self : EVECredential) (char : EVECharacter) : bool :=
  match char_owner char with
  | Some o => bool_decide (owner self ≠ Some o)
  | None => false
  end.

(** Lines 102-119.  The handler either leaves the method ([inl], the value
    returned at line 119) or hands the loaded row on ([inr]). *)
Definition create_or_load (info : Info)
    : M (option EVECharacter + EVECharacter * bool) :=
  try_except
    (let* char := character_create (characterID info) in
     ret (inr (char, true)))
    (fun e =>
       match e with
       | NotUniqueError =>
           let* char := character_first (characterID info) in
           let* self := gets this in
           if owner_conflict self char
           then
             log "warning" "Security violation detected. Multiple accounts trying to register character %s, ID %d. Actual owner is %s. User adding this character is %s." ;;;
             modify (with_this (set_violation (Some "Character"))) ;;;
             add_duplicate (owner self) (char_owner char) ;;;
             ret (inl None)
           else ret (inr (char, false))
       | _ => raise e
       end).

Definition pull_character (E : Env) (info : Info) : M (option EVECharacter) :=
  let* r := create_or_load info in
  match r with
  | inl returned => ret returned
  | inr (char, new) => merge_character E info char new
  end.

(** ** EVECredential.pull_corp (lines 185-187) *)

Definition pull_corp : M (option EVECredential) :=
  let* self := gets this in ret (Some self).

(** ** EVECredential.eval_violation (lines 189-213) *)

(** Lines 193-196 and 253-256. *)
Definition kind_acceptable (E : Env) (self : EVECredential) : bool :=
  let kind_acceptable := bool_decide (kind self = recommended_key_kind E) in
  if negb kind_acceptable
     && bool_decide (recommended_key_kind E = "Character")
     && bool_decide (kind self = "Account")
  then true
  else kind_acceptable.

(** [self.mask.has_access(m)]: the property answers [None] for a kind it
    does not know, and the call on it raises. *)
Definition self_has_access (E : Env) (m : Z) : M bool :=
  let* self := gets this in
  match mask self with
  | Some km => ret (has_access E km m)
  | None =>
      log "info" "Incorrect key type %s for key %s." ;;;
      raise AttributeError
  end.

Definition eval_violation (E : Env) : M (option EVECredential) :=
  match py_int E (recommended_key_mask E) with
  | None =>
      log "warn" "core.recommended_key_mask MUST be an integer." ;;;
      ret None
  | Some rec_mask =>
      let* self := gets this in
      let kind_acceptable := kind_acceptable E self in
      if bool_decide (violation self = Some "Character") then ret None
      else if negb kind_acceptable then
        modify (with_this (set_violation (Some "Kind"))) ;;;
        let* s := save in ret (Some s)
      else
        let* ok := self_has_access E rec_mask in
        if negb ok then
          modify (with_this (set_violation (Some "Mask"))) ;;;
          let* s := save in ret (Some s)
        else
          modify (with_this (set_violation None)) ;;;
          let* s := save in ret (Some s)
  end.

(** ** EVECredential.pull (lines 215-303) *)

(** Integers as Python writes and reads them: [str] and [%d] give the
    decimal digits, after a minus sign for a negative number. *)
Definition decimal_int (s : string) : option Z :=
  Z.of_int <$> NilZero.int_of_string s.

Definition decimal_str (z : Z) : string :=
  NilZero.string_of_int (Z.to_int z).

(** Line 228 formats the key into the message before it is logged. *)
Definition key_disabled_message (self : EVECredential) : string :=
  String.append "key disabled; deleting " (decimal_str (key self)).

(** Line 249: [strptime] raises ValueError on a string it cannot read. *)
Definition parse_expires (E : Env) (result : KeyInfo) : outcome (option datetime) :=
  match key_expires result with
  | Some s =>
      if bool_decide (s ≠ "")
      then match strptime E s with
           | Some d => Return (Some d)
           | None => Raise ValueError
           end
      else Return None
  | None => Return None
  end.

(** Lines 247-249. *)
Definition apply_key_info (E : Env) (result : KeyInfo) : M unit :=
  modify (with_this (set_mask (accessMask result))) ;;;
  modify (with_this (set_kind (key_type result))) ;;;
  let* e := lift (parse_expires E result) in
  modify (with_this (set_expires e)).

(** Lines 251-261. *)
Definition compute_verified (E : Env) : M unit :=
  match py_int E (recommended_key_mask E) with
  | None =>
      log "warn" "core.recommended_key_mask MUST be an integer." ;;;
      modify (with_this (set_verified false))
  | Some rec_mask =>
      let* self := gets this in
      let kind_acceptable := kind_acceptable E self in
      let* ok := self_has_access E rec_mask in
      modify (with_this (set_verified (ok && kind_acceptable)))
  end.

(** Lines 267-279.  [pulled_characters] is a set of documents, which hash
    and compare by primary key: the set of their identifiers. *)
Fixpoint pull_rows (E : Env) (rows : list Info) (allCharsOK : bool)
    (pulled_characters : gset Z) : M (bool * gset Z) :=
  match rows with
  | [] => ret (allCharsOK, pulled_characters)
  | char :: rows' =>
      match corporationName char with
      | None =>
          log "error" "corporationName missing for key %d" ;;;
          pull_rows E rows' allCharsOK pulled_characters
      | Some _ =>
          let* character := pull_character E char in
          match character with
          | None => pull_rows E rows' false pulled_characters
          | Some c =>
              pull_rows E rows' allCharsOK ({[ char_identifier c ]} ∪ pulled_characters)
          end
      end
  end.

(** Lines 282-283. *)
Definition clear_character_violation (allCharsOK : bool) : M unit :=
  let* self := gets this in
  if allCharsOK && bool_decide (violation self = Some "Character")
  then modify (with_this (set_violation None))
  else ret tt.

(** Lines 285-288. *)
Definition outdated_characters (self : EVECredential) (s : Store)
    (pulled_characters : gset Z) : list EVECharacter :=
  filter (fun c => char_identifier c ∉ pulled_characters) (characters_of self s).

Definition detach_outdated (pulled_characters : gset Z) : M unit :=
  let* outdated := gets (fun st => outdated_characters (this st) (db st) pulled_characters) in
  for_each detach outdated.

(** Lines 295-301.  A reference to a credential that is no longer stored
    dereferences to a bare DBRef, which has no [verified]. *)
Definition credential_verified (k : ObjectId) : M bool :=
  let* creds := gets (fun st => Credentials (db st)) in
  match creds !! k with
  | Some c => ret (verified c)
  | None => raise AttributeError
  end.

Fixpoint char_has_verified_key (ks : list ObjectId) (found : bool) : M bool :=
  match ks with
  | [] => ret found
  | k :: ks' =>
      let* v := credential_verified k in
      char_has_verified_key ks' (if v then true else found)
  end.

Definition revoke_unverified (c : EVECharacter) : M unit :=
  let* char_has_verified_key := char_has_verified_key (char_credentials c) false in
  if negb char_has_verified_key
  then remove_grants_for_character c
  else ret tt.

(** Lines 295-301. *)
Definition revoke_grants : M unit :=
  let* chars := characters in
  for_each revoke_unverified chars.

(** Lines 263-303: the identities of the key. *)
Definition reconcile_characters (E : Env) (now : datetime) (result : KeyInfo)
    : M (option EVECredential) :=
  match characters_row result with
  | [] =>
      log "error" "No characters returned for key %d?" ;;;
      let* self := gets this in ret (Some self)
  | rows =>
      let* '(allCharsOK, pulled_characters) := pull_rows E rows true ∅ in
      clear_character_violation allCharsOK ;;;
      detach_outdated pulled_characters ;;;
      eval_violation E ;;;
      modify (with_this (set_modified now)) ;;;
      save ;;;
      revoke_grants ;;;
      let* self := gets this in ret (Some self)
  end.

(** Lines 247-303: the pull once [APIKeyInfo] has answered. *)
Definition pull_result (E : Env) (now : datetime) (result : KeyInfo)
    : M (option EVECredential) :=
  apply_key_info E result ;;;
  compute_verified E ;;;
  reconcile_characters E now result.

Definition pull (E : Env) (now : datetime) : M (option EVECredential) :=
  let* self := gets this in
  if bool_decide (kind self = "Corporation") then pull_corp
  else
    match APIKeyInfo E (key self) (code self) with
    | Return result => pull_result E now result
    | Raise (HTTPError status_code) =>
        if bool_decide (status_code = 403)
        then
          log "debug" (key_disabled_message self) ;;;
          delete ;;;
          ret None
        else
          log "exception" "Unable to call: APIKeyInfo(%d)" ;;;
          ret None
    | Raise e => raise e
    end.

(** ** Frames

    [respects R m]: whatever [m] does and however it ends, the state it
    leaves is related by [R] to the one it started in. *)
Definition respects (R : State -> State -> Prop) {A} (m : M A) : Prop :=
  forall st out st', m st = (out, st') -> R st st'.

(** Everything of the in-memory credential but its verdict and timestamp. *)
Definition key_data (c : EVECredential) : EVECredential :=
  set_violation None (set_modified 0 c).

Definition keeps_key_data (st st' : State) : Prop :=
  key_data (this st') = key_data (this st).

Definition keeps_this (st st' : State) : Prop := this st' = this st.

Definition keeps_Credentials (st st' : State) : Prop :=
  Credentials (db st') = Credentials (db st).

Definition keeps_Characters (st st' : State) : Prop :=
  Characters (db st') = Characters (db st).

Definition keeps_registry (st st' : State) : Prop :=
  Corporations (db st') = Corporations (db st) /\
  Alliances (db st') = Alliances (db st) /\
  duplicates (db st') = duplicates (db st).

Definition keeps_grants (st st' : State) : Prop :=
  grants (db st') = grants (db st).

(** The in-memory credential once lines 247-249 have run. *)
Definition with_key_info (result : KeyInfo) (e : option datetime)
    (c : EVECredential) : EVECredential :=
  set_expires e (set_kind (key_type result) (set_mask (accessMask result) c)).

(** The state [save] leaves: the credential [s] in memory and stored. *)
Definition after_save (s : EVECredential) (st : State) : State :=
  mkState s (with_Credentials (insert (cred_id s) s) (db st))
          (trace st ++ [Saved "Credentials" (cred_id s)]).

(** ** Scenarios

    A concrete environment and small stores, on which the statements below
    are evaluated. *)

(** A mask grants a requirement when it holds all of its bits. *)
Definition bits_has_access (km : KeyMask) (required : Z) : bool :=
  match km with
  | EVECharacterKeyMask m | EVECorporationKeyMask m =>
      bool_decide (Z.land m required = required)
  end.

Definition scenario_env (rec_mask rec_kind : string) (keyinfo : outcome KeyInfo)
    (sheet public : outcome Info) : Env :=
  mkEnv rec_mask rec_kind decimal_int decimal_str (fun _ => Some 0)
        (fun s => s) bits_has_access
        (fun _ _ => keyinfo) (fun _ _ _ => sheet) 8
        (fun _ _ _ => public) 16.

Definition no_fetch : outcome Info := Raise RemoteError.

(** A row of the key-info answer for character [i]. *)
Definition key_row (i : Z) (name : string) (corp : option string) : Info :=
  mkInfo i (Some (PyStr name)) None (Some 9) corp None None None None
         None None None None None None None None.

Definition store_of (creds : list EVECredential) (chars : list EVECharacter) : Store :=
  mkStore (list_to_map (map (fun c => (cred_id c, c)) creds))
          (list_to_map (map (fun c => (char_identifier c, c)) chars))
          ∅ ∅ ∅ [].

(** Credential 2 of account 20, and character 77 of account 10. *)
Definition cred_b (k : string) (v : option string) : EVECredential :=
  mkCredential 2 1002 "vcode" k 0 false None (Some 20) v 0.

Definition char_77 (o : option UserRef) (creds : list ObjectId) : EVECharacter :=
  mkCharacter 77 (Some "Seventy Seven") o creds None None None None None None None [] [].

(** Scenario for the eval_violation counterexample: the recommended mask is
    not an integer and the kind is not acceptable. *)
Definition c4_env : Env :=
  scenario_env "not-a-number" "Character" (Raise RemoteError) no_fetch no_fetch.

Definition c4_state : State :=
  mkState (cred_b "Corporation" None) (store_of [cred_b "Corporation" None] []) [].

(** Scenario for a key that reports no characters: the stored mask is 0,
    the remote one 8. *)
Definition c8_result : KeyInfo := mkKeyInfo 8 "Character" None [].

Definition c8_env : Env :=
  scenario_env "8" "Character" (Return c8_result) no_fetch no_fetch.

Definition c8_state : State :=
  mkState (cred_b "Character" None) (store_of [cred_b "Character" None] []) [].

(** The primary keys saved to a collection, in the order of the trace. *)
Definition saves_of (collection : string) (tr : list Event) : list Z :=
  omap (fun ev =>
          match ev with
          | Saved coll pk => if bool_decide (coll = collection) then Some pk else None
          | _ => None
          end) tr.

Definition keeps_Alliances (st st' : State) : Prop :=
  Alliances (db st') = Alliances (db st) /\
  saves_of "Alliances" (trace st') = saves_of "Alliances" (trace st).

(** The alliance name as section 4.2 words it: of the two synonymous keys,
    the more specific one, "allianceName", wins when both are present. *)
Definition stated_allianceName (info : Info) : option string :=
  match allianceName info with
  | Some a => Some a
  | None => info_alliance info
  end.

(** Scenario for get_membership: a payload that carries both keys. *)
Definition c9_info : Info :=
  mkInfo 77 (Some (PyStr "Seventy Seven")) None (Some 9) (Some "Corp") None
         (Some 5) (Some "Brave Collective") (Some "BRAVE")
         None None None None None None None None.

Definition c9_state : State :=
  mkState (cred_b "Character" None) (store_of [cred_b "Character" None] []) [].

(** ** Well-formed stores

    A collection is indexed by the unique field of its documents. *)
Definition chars_keyed (m : gmap Z EVECharacter) : Prop :=
  forall i c, m !! i = Some c -> char_identifier c = i.

Definition corps_keyed (m : gmap Z EVECorporation) : Prop :=
  forall i c, m !! i = Some c -> corp_identifier c = i.

Definition alliances_keyed (m : gmap Z EVEAlliance) : Prop :=
  forall i a, m !! i = Some a -> alliance_identifier a = i.

Definition store_keyed (s : Store) : Prop :=
  chars_keyed (Characters s) /\ corps_keyed (Corporations s) /\
  alliances_keyed (Alliances s).

(** What a loop of [detach] calls over the rows [l] does to the collection. *)
Definition detach_all (l : list EVECharacter) (m : gmap Z EVECharacter)
    : gmap Z EVECharacter :=
  foldl (fun m c => <[char_identifier c := set_char_owner None c]> m) m l.

Definition keeps_keyed (st st' : State) : Prop :=
  store_keyed (db st) -> store_keyed (db st').

(** The state the conflict branch (lines 110-119) leaves. *)
Definition conflict_state (c : EVECharacter) (st : State) : State :=
  mkState (set_violation (Some "Character") (this st))
    (with_duplicates
       (fun d => {[ (owner (this st), char_owner c); (char_owner c, owner (this st)) ]} ∪ d)
       (db st))
    (trace st ++
       [Logged "warning" "Security violation detected. Multiple accounts trying to register character %s, ID %d. Actual owner is %s. User adding this character is %s."]).

(** What lines 285-288 do to one stored row. *)
Definition detach_stale (self : EVECredential) (pulled_characters : gset Z)
    (c : EVECharacter) : EVECharacter :=
  if attached self c && bool_decide (char_identifier c ∉ pulled_characters)
  then set_char_owner None c
  else c.

(** The verdict [eval_violation] leaves on a credential. *)
Definition eval_policy (E : Env) (self : EVECredential) : option string :=
  match py_int E (recommended_key_mask E) with
  | None => violation self
  | Some rec_mask =>
      if bool_decide (violation self = Some "Character") then Some "Character"
      else if negb (kind_acceptable E self) then Some "Kind"
      else match mask self with
           | Some m => if has_access E m rec_mask then None else Some "Mask"
           | None => violation self
           end
  end.

Definition keeps_char (i : Z) (st st' : State) : Prop :=
  Characters (db st') !! i = Characters (db st) !! i.

(** The state in which the identities are reconciled: lines 247-261 have
    refreshed mask, kind, expires and verified of the in-memory credential. *)
Definition after_key_info (E : Env) (result : KeyInfo) (e : option datetime)
    (st : State) : State :=
  let s := with_key_info result e (this st) in
  match py_int E (recommended_key_mask E) with
  | None =>
      mkState (set_verified false s) (db st)
        (trace st ++ [Logged "warn" "core.recommended_key_mask MUST be an integer."])
  | Some rec_mask =>
      mkState
        (set_verified
           (match mask s with
            | Some m => has_access E m rec_mask
            | None => false
            end && kind_acceptable E s) s)
        (db st) (trace st)
  end.

(** ** The loop as a plan

    What a merge writes does not depend on the store: it is fixed by the
    view the API hands over.  [MergeData] is that view with the fields
    lines 133-137 need resolved. *)
Record MergeData := mkMergeData {
  md_info : Info;
  md_corporationName : string;
  md_corporationID : Z;
  md_name : string
}.

Definition view_corporationName (info : Info) : option string :=
  match info_corporation info with
  | Some c => Some c
  | None => corporationName info
  end.

Definition view_name (E : Env) (info : Info) : option string :=
  match match info_name info with
        | Some n => Some n
        | None => characterName info
        end with
  | Some (PyStr s) => Some s
  | Some (PyInt z) => Some (py_str E z)
  | None => None
  end.

Definition view_data (E : Env) (view : Info) : option MergeData :=
  match view_corporationName view, corporationID view, view_name E view with
  | Some cn, Some cid, Some n => Some (mkMergeData view cn cid n)
  | _, _, _ => None
  end.

(** [None] when the fetch or a field access raises. *)
Definition merge_plan (E : Env) (self : EVECredential) (row : Info) : option MergeData :=
  match character_view E self row with
  | Return view => view_data E view
  | Raise _ => None
  end.

(** The alliance of the view, when it has one (line 164). *)
Definition md_alliance (d : MergeData) : option Z :=
  match allianceID (md_info d) with
  | Some aid => if bool_decide (aid ≠ 0) then Some aid else None
  | None => None
  end.

Definition merged_alliances (d : MergeData) (m : gmap Z EVEAlliance) : gmap Z EVEAlliance :=
  match md_alliance d with
  | Some aid => <[aid := mkAlliance aid (resolve_allianceName (md_info d))]> m
  | None => m
  end.

Definition merged_corporations (d : MergeData) (m : gmap Z EVECorporation)
    : gmap Z EVECorporation :=
  <[md_corporationID d :=
      mkCorporation (md_corporationID d) (md_corporationName d) (md_alliance d)]> m.

(** The row lines 133-151 save for character [i], over the stored row. *)
Definition merged_character (E : Env) (self : EVECredential) (i : Z) (d : MergeData)
    (credentials : list ObjectId) : EVECharacter :=
  mkCharacter i (Some (md_name d)) (owner self)
              (append_credential (cred_id self) credentials)
              (Some (md_corporationID d)) (md_alliance d)
              (info_race (md_info d)) (resolve_bloodline (md_info d))
              (info_ancestry (md_info d)) (info_gender (md_info d))
              (info_security (md_info d))
              (match corporationTitles (md_info d) with
               | Some rows => map (strip_tags E) rows
               | None => []
               end)
              (match corporationRoles (md_info d) with
               | Some rows => rows
               | None => []
               end).

Definition stored_credentials (m : gmap Z EVECharacter) (i : Z) : list ObjectId :=
  match m !! i with
  | Some c => char_credentials c
  | None => []
  end.

Definition merged_characters (E : Env) (self : EVECredential) (i : Z) (d : MergeData)
    (m : gmap Z EVECharacter) : gmap Z EVECharacter :=
  <[i := merged_character E self i d (stored_credentials m i)]> m.

Definition merged_store (E : Env) (self : EVECredential) (i : Z) (d : MergeData)
    (s : Store) : Store :=
  mkStore (Credentials s) (merged_characters E self i d (Characters s))
          (merged_corporations d (Corporations s))
          (merged_alliances d (Alliances s))
          (duplicates s) (grants s).

(** The owner a stored character conflicts with, when it does (line 109). *)
Definition conflict_owner (self : EVECredential) (m : gmap Z EVECharacter) (i : Z)
    : option EVECharacter :=
  match m !! i with
  | Some c => if owner_conflict self c then Some c else None
  | None => None
  end.

(** What a row that is not skipped does: it meets the stored character [c]
    of another owner, or merges the view [d] into character [i]. *)
Inductive RowOp :=
| OpConflict (c : EVECharacter)
| OpMerge (i : Z) (d : MergeData).

Definition op_store (E : Env) (self : EVECredential) (op : RowOp) (s : Store) : Store :=
  match op with
  | OpConflict c =>
      with_duplicates
        (fun d => {[ (owner self, char_owner c); (char_owner c, owner self) ]} ∪ d) s
  | OpMerge i d => merged_store E self i d s
  end.

Definition ops_store (E : Env) (self : EVECredential) (ops : list RowOp) (s : Store)
    : Store :=
  foldl (fun s op => op_store E self op s) s ops.

(** The operations of the loop, given which stored characters conflict;
    [None] when a row raises. *)
Fixpoint plan_rows (E : Env) (self : EVECredential) (co : Z -> option EVECharacter)
    (rows : list Info) : option (list RowOp) :=
  match rows with
  | [] => Some []
  | row :: rows' =>
      match corporationName row with
      | None => plan_rows E self co rows'
      | Some _ =>
          match co (characterID row) with
          | Some c => cons (OpConflict c) <$> plan_rows E self co rows'
          | None =>
              match merge_plan E self row with
              | Some d =>
                  cons (OpMerge (characterID row) d) <$> plan_rows E self co rows'
              | None => None
              end
          end
      end
  end.

Definition is_merge (op : RowOp) : bool :=
  match op with
  | OpMerge _ _ => true
  | OpConflict _ => false
  end.

Definition no_conflicts (ops : list RowOp) : bool := forallb is_merge ops.

Fixpoint merged_ids (ops : list RowOp) : gset Z :=
  match ops with
  | [] => ∅
  | OpMerge i _ :: ops' => {[ i ]} ∪ merged_ids ops'
  | OpConflict _ :: ops' => merged_ids ops'
  end.

(** ** Components of a plan's effect *)

Definition chars_ops (E : Env) (self : EVECredential) (ops : list RowOp)
    (m : gmap Z EVECharacter) : gmap Z EVECharacter :=
  foldl (fun m op =>
           match op with
           | OpMerge i d => merged_characters E self i d m
           | OpConflict _ => m
           end) m ops.

Definition corps_ops (ops : list RowOp) (m : gmap Z EVECorporation)
    : gmap Z EVECorporation :=
  foldl (fun m op =>
           match op with
           | OpMerge _ d => merged_corporations d m
           | OpConflict _ => m
           end) m ops.

Definition alliances_ops (ops : list RowOp) (m : gmap Z EVEAlliance)
    : gmap Z EVEAlliance :=
  foldl (fun m op =>
           match op with
           | OpMerge _ d => merged_alliances d m
           | OpConflict _ => m
           end) m ops.

Definition duplicates_ops (self : EVECredential) (ops : list RowOp)
    (s : gset (option UserRef * option UserRef))
    : gset (option UserRef * option UserRef) :=
  foldl (fun s op =>
           match op with
           | OpMerge _ _ => s
           | OpConflict c =>
               {[ (owner self, char_owner c); (char_owner c, owner self) ]} ∪ s
           end) s ops.

(** The view the last merge of character [j] in the plan wrote. *)
Fixpoint last_merge (ops : list RowOp) (j : Z) : option MergeData :=
  match ops with
  | [] => None
  | op :: ops' =>
      match last_merge ops' j with
      | Some d => Some d
      | None =>
          match op with
          | OpMerge i d => if bool_decide (i = j) then Some d else None
          | OpConflict _ => None
          end
      end
  end.

(** A function on a collection that only overwrites rows with fixed ones. *)
Definition overwrite {V} (f : gmap Z V -> gmap Z V) : Prop :=
  exists delta, forall m, f m = delta ∪ m.

(** Every character the credential is attached to is unowned or owned by
    the credential's owner. *)
Definition attached_owned (self : EVECredential) (m : gmap Z EVECharacter) : Prop :=
  forall i c, m !! i = Some c -> attached self c = true -> owner_conflict self c = false.

(** The merges of a plan are of characters that do not conflict in [co]. *)
Definition plan_valid (co : Z -> option EVECharacter) (ops : list RowOp) : Prop :=
  Forall (fun op => match op with
                    | OpMerge i _ => co i = None
                    | OpConflict _ => True
                    end) ops.

(** The store without the modification time of its credentials. *)
Definition forget_modified (s : Store) : Store :=
  with_Credentials (fmap (set_modified 0)) s.

(** The inner loop of lines 297-299 over the stored credentials. *)
Fixpoint verified_key (creds : gmap Z EVECredential) (ks : list ObjectId)
    (found : bool) : outcome bool :=
  match ks with
  | [] => Return found
  | k :: ks' =>
      match creds !! k with
      | Some c => verified_key creds ks' (if verified c then true else found)
      | None => Raise AttributeError
      end
  end.

(** ** Further scenarios *)

(** The row the key reports for character 77. *)
Definition row_77 : Info := key_row 77 "Seventy Seven" (Some "Corp").

(** Scenario for a fetch that fails with a plain HTTP error. *)
Definition c7_env : Env :=
  scenario_env "8" "Character" (Raise (HTTPError 500)) no_fetch no_fetch.

(** Scenario for a key the API refuses: character 77 of account 20 holds
    credential 2 and no other. *)
Definition c2_env : Env :=
  scenario_env "8" "Character" (Raise (HTTPError 403)) no_fetch no_fetch.

Definition c2_state : State :=
  mkState (cred_b "Character" None)
          (store_of [cred_b "Character" None] [char_77 (Some 20) [2]]) [].

(** Scenario for pulling twice: character 77 carries credential 2 of
    account 20 but belongs to account 10, and the key reports it. *)
Definition c5_result : KeyInfo := mkKeyInfo 0 "Character" None [row_77].

Definition c5_env : Env :=
  scenario_env "0" "Character" (Return c5_result) no_fetch no_fetch.

Definition c5_state : State :=
  mkState (cred_b "Character" None)
          (store_of [cred_b "Character" None] [char_77 (Some 10) [2]]) [].

(** Scenario for the rollback: the mask grants the character sheet, which
    cannot be fetched. *)
Definition c6_state : State :=
  mkState (set_mask 8 (cred_b "Character" None))
          (store_of [set_mask 8 (cred_b "Character" None)] []) [].

(** Scenario for skipped rows: the key reports character 77 without a
    corporation name and character 78 with one; the credential carries a
    "Character" violation and is attached to character 77. *)
Definition row_77_bare : Info := key_row 77 "Seventy Seven" None.




(** ** EVECredential.view_perm (lines 305-307) *)



(** ** Scenarios for the further properties *)

(** An answer whose expiry cannot be read. *)
Definition x3_result : KeyInfo := mkKeyInfo 8 "Character" (Some "soon") [].

Definition x3_env : Env :=
  mkEnv "8" "Character" decimal_int decimal_str (fun _ => None) (fun s => s)
        bits_has_access (fun _ _ => Return x3_result) (fun _ _ _ => no_fetch) 8
        (fun _ _ _ => no_fetch) 16.

(** An answer with a key type the module does not know. *)
Definition x4_result : KeyInfo := mkKeyInfo 8 "Unknown" None [].

Definition x4_env : Env :=
  scenario_env "8" "Character" (Return x4_result) no_fetch no_fetch.

(** A key whose mask grants the character sheet, which cannot be fetched. *)
Definition x5_result : KeyInfo := mkKeyInfo 8 "Character" None [row_77].

Definition x5_env : Env :=
  scenario_env "8" "Character" (Return x5_result) no_fetch no_fetch.

(** A roster of account 20, which owns credentials 2 and 3: character 77 is
    the one the key reports; character 78 carries both credentials and is
    not reported; character 79 belongs to account 10 and carries credential
    3 only.  One application holds a grant on character 77. *)
Definition cred_c : EVECredential :=
  mkCredential 3 1003 "vcode" "Character" 0 false None (Some 20) None 0.

Definition char_78 : EVECharacter :=
  mkCharacter 78 (Some "Seventy Eight") (Some 20) [2; 3] None None None None None
              None None [] [].

Definition char_79 : EVECharacter :=
  mkCharacter 79 (Some "Seventy Nine") (Some 10) [3] None None None None None
              None None [] [].

Definition roster_state : State :=
  mkState (cred_b "Character" None)
          (with_grants (fun _ => [mkGrant 1 77])
             (store_of [cred_b "Character" None; cred_c]
                       [char_77 (Some 20) [2]; char_78; char_79]))
          [].

Definition roster_pulled : State := (pull c5_env 1 roster_state).2.

(** What reading the [mask] property leaves in the log (line 86): a line
    for a kind that has no mask object, nothing otherwise. *)
Definition mask_log (self : EVECredential) : list Event :=
  match mask self with
  | Some _ => []
  | None => [Logged "info" "Incorrect key type %s for key %s."]
  end.







(** The log only grows: [st'] continues the trace of [st]. *)
Definition trace_extends (st st' : State) : Prop :=
  exists tr, trace st' = trace st ++ tr.

(** No identity that a row of the answer names (a row that is not skipped)
    both carries the credential and belongs to another account. *)
Definition reported_owned (self : EVECredential) (rows : list Info)
    (m : gmap Z EVECharacter) : Prop :=
  forall row c,
    row ∈ rows -> is_Some (corporationName row) ->
    m !! characterID row = Some c ->
    attached self c = true -> owner_conflict self c = false.

(** The identities the Grant Revocation Sink was called for, in the order
    of the trace. *)
Definition revocations (tr : list Event) : list Z :=
  omap (fun ev =>
          match ev with
          | GrantsRemoved i => Some i
          | _ => None
          end) tr.

(** Scenario for the notifications: the key of [c5_result] under a
    recommended mask it does not satisfy. *)
Definition c5_strict_env : Env :=
  scenario_env "8" "Character" (Return c5_result) no_fetch no_fetch.

(** ** Basic facts about the state monad *)

Lemma bind_Return {A B} (m : M A) (k : A -> M B) st a st' :
  m st = (Return a, st') -> bind m k st = k a st'.
Proof. intros H. unfold bind. by rewrite H. Qed.

Lemma bind_Raise {A B} (m : M A) (k : A -> M B) st e st' :
  m st = (Raise e, st') -> bind m k st = (Raise e, st').
Proof. intros H. unfold bind. by rewrite H. Qed.

(** Inversion of a [bind] that returned. *)
Lemma bind_inv_Return {A B} (m : M A) (k : A -> M B) st b st' :
  bind m k st = (Return b, st') ->
  exists a st1, m st = (Return a, st1) /\ k a st1 = (Return b, st').
Proof.
  unfold bind. destruct (m st) as [[a|e] st1]; [eauto | discriminate].
Qed.

Ltac run := unfold bind, try_except, ret, raise, gets, modify, log, lift; simpl.

(** ** A non-403 HTTP error leaves everything as it was *)

(** C7: for a credential whose kind is not "Corporation", when the key-info
    fetch fails with an HTTP error whose status is not 403, [pull] returns
    None; the in-memory record and the whole store are what they were, and
    the only thing added is the logged exception. *)
Theorem pull_http_error_unchanged (E : Env) (now : datetime) (st : State) (status : Z) :
  kind (this st) ≠ "Corporation" ->
  APIKeyInfo E (key (this st)) (code (this st)) = Raise (HTTPError status) ->
  status ≠ 403 ->
  pull E now st =
    (Return None,
     mkState (this st) (db st)
             (trace st ++ [Logged "exception" "Unable to call: APIKeyInfo(%d)"])).
Proof.
  intros Hkind Hfetch Hstatus. unfold pull. run.
  rewrite bool_decide_eq_false_2 by done.
  rewrite Hfetch. rewrite bool_decide_eq_false_2 by done.
  reflexivity.
Qed.

(** ** The ownership conflict in [pull_character] *)

(** C1: when an identity with the payload's identifier is already stored
    with an owner that is not the pulling credential's owner,
    [pull_character] returns None with the credential's violation set to
    "Character" and the link between the two owners recorded in both
    directions; the Characters collection (so the identity's attributes,
    owner and credential list) and every other collection are untouched. *)
Theorem pull_character_conflict (E : Env) (info : Info) (st : State)
    (c : EVECharacter) (o : UserRef) :
  Characters (db st) !! characterID info = Some c ->
  char_owner c = Some o ->
  owner (this st) ≠ Some o ->
  exists st',
    pull_character E info st = (Return None, st') /\
    this st' = set_violation (Some "Character") (this st) /\
    (owner (this st), Some o) ∈ duplicates (db st') /\
    (Some o, owner (this st)) ∈ duplicates (db st') /\
    Characters (db st') = Characters (db st) /\
    Characters (db st') !! characterID info = Some c /\
    Credentials (db st') = Credentials (db st) /\
    Corporations (db st') = Corporations (db st) /\
    Alliances (db st') = Alliances (db st) /\
    grants (db st') = grants (db st).
Proof.
  intros Hc Ho Hne.
  eexists. split.
  - unfold pull_character, create_or_load, character_create, character_first. run.
    rewrite Hc. simpl. rewrite Hc. simpl.
    unfold owner_conflict. rewrite Ho.
    rewrite bool_decide_eq_true_2 by done.
    unfold add_duplicate. run. reflexivity.
  - simpl. repeat split; try done; set_solver.
Qed.

(** ** Rollback of a row created for a fetch that fails *)

Lemma fetch_character_run (E : Env) (info : Info) (char : EVECharacter)
    (new : bool) (st : State) :
  fetch_character E info char new st =
    match character_view E (this st) info with
    | Return view =>
        (Return view, mkState (this st) (db st) (trace st ++ mask_log (this st)))
    | Raise e =>
        (Raise e,
         if new
         then mkState (this st)
                (with_Characters (base.delete (char_identifier char)) (db st))
                (trace st ++ mask_log (this st) ++
                   [Logged "warning" "An error occured while querying data for key %s.";
                    Deleted "Characters" (char_identifier char)])
         else mkState (this st) (db st)
                (trace st ++ mask_log (this st) ++
                   [Logged "warning" "An error occured while querying data for key %s."]))
    end.
Proof.
  unfold fetch_character, mask_log, character_delete. run.
  destruct st as [self d tr]. simpl.
  destruct (mask self); simpl;
    destruct (character_view E self info); simpl; try destruct new; simpl;
    unfold emit, with_db; simpl;
    rewrite <- ?app_assoc, ?app_nil_r; reflexivity.
Qed.

Lemma character_view_mask_log (E : Env) (self : EVECredential) (info view : Info) :
  character_view E self info = Return view -> mask_log self = [].
Proof. unfold character_view, mask_log. by destruct (mask self). Qed.

Lemma fetch_character_Return (E : Env) (info : Info) (char : EVECharacter)
    (new : bool) (st : State) (view : Info) :
  character_view E (this st) info = Return view ->
  fetch_character E info char new st = (Return view, st).
Proof.
  intros Hview. rewrite fetch_character_run, Hview.
  rewrite (character_view_mask_log E _ _ _ Hview), app_nil_r. by destruct st.
Qed.

(** C6: when [pull_character] has just created the identity row and the
    per-identity fetch raises, the row is deleted again and the exception
    is propagated: the store is the one before the call, and the trace
    shows the creation, what the [mask] property logged, the warning and
    the deletion, in that order.  When the row already existed (and its
    owner does not conflict), the fetch failure is propagated with the row
    still stored as it was, and nothing is deleted. *)
Theorem pull_character_rollback (E : Env) (info : Info) (st : State) (e : exn) :
  character_view E (this st) info = Raise e ->
  (Characters (db st) !! characterID info = None ->
   exists st',
     pull_character E info st = (Raise e, st') /\
     db st' = db st /\
     Characters (db st') !! characterID info = None /\
     this st' = this st /\
     trace st' = trace st ++
       [Saved "Characters" (characterID info)] ++ mask_log (this st) ++
       [Logged "warning" "An error occured while querying data for key %s.";
        Deleted "Characters" (characterID info)]) /\
  (forall c,
     Characters (db st) !! characterID info = Some c ->
     owner_conflict (this st) c = false ->
     exists st',
       pull_character E info st = (Raise e, st') /\
       db st' = db st /\
       Characters (db st') !! characterID info = Some c /\
       this st' = this st /\
       trace st' = trace st ++ mask_log (this st) ++
         [Logged "warning" "An error occured while querying data for key %s."]).
Proof.
  intros Hview. split.
  - intros Hnone. eexists. split.
    + unfold pull_character, create_or_load, character_create. run.
      rewrite Hnone. simpl.
      unfold merge_character.
      erewrite bind_Raise; [reflexivity|].
      rewrite fetch_character_run. simpl. rewrite Hview. reflexivity.
    + simpl. destruct st as [self [creds chars corps allis dups gr] tr].
      simpl in *. repeat split.
      * unfold with_Characters. simpl. f_equal.
        rewrite delete_insert_eq. by apply delete_id.
      * rewrite delete_insert_eq. by rewrite lookup_delete_eq.
      * by rewrite <- !app_assoc.
  - intros c Hc Hconf. eexists. split.
    + unfold pull_character, create_or_load, character_create, character_first.
      run. rewrite Hc. simpl. rewrite Hc. simpl. rewrite Hconf. simpl.
      unfold merge_character.
      erewrite bind_Raise; [reflexivity|].
      rewrite fetch_character_run. rewrite Hview. reflexivity.
    + simpl. by destruct st as [self [creds chars corps allis dups gr] tr].
Qed.

(** ** Frame rules *)

Section Respects.
Context (R : State -> State -> Prop) `{!PreOrder R}.

Lemma respects_ret {A} (a : A) : respects R (ret a).
Proof. intros st out st' [= <- <-]. reflexivity. Qed.

Lemma respects_raise {A} (e : exn) : respects R (@raise A e).
Proof. intros st out st' [= <- <-]. reflexivity. Qed.

Lemma respects_gets {A} (f : State -> A) : respects R (gets f).
Proof. intros st out st' [= <- <-]. reflexivity. Qed.

Lemma respects_lift {A} (o : outcome A) : respects R (lift o).
Proof. intros st out st' [= <- <-]. reflexivity. Qed.

Lemma respects_modify (f : State -> State) :
  (forall st, R st (f st)) -> respects R (modify f).
Proof. intros H st out st' [= <- <-]. apply H. Qed.

Lemma respects_bind {A B} (m : M A) (k : A -> M B) :
  respects R m -> (forall a, respects R (k a)) -> respects R (bind m k).
Proof.
  intros Hm Hk st out st'. unfold bind.
  destruct (m st) as [[a|e] st1] eqn:Hrun.
  - intros Hrest. etransitivity; [by eapply Hm | by eapply Hk].
  - intros [= <- <-]. by eapply Hm.
Qed.

Lemma respects_try {A} (m : M A) (h : exn -> M A) :
  respects R m -> (forall e, respects R (h e)) -> respects R (try_except m h).
Proof.
  intros Hm Hh st out st'. unfold try_except.
  destruct (m st) as [[a|e] st1] eqn:Hrun.
  - intros [= <- <-]. by eapply Hm.
  - intros Hrest. etransitivity; [by eapply Hm | by eapply Hh].
Qed.

Lemma respects_for_each {A} (f : A -> M unit) (l : list A) :
  (forall x, respects R (f x)) -> respects R (for_each f l).
Proof.
  intros Hf. induction l as [|x l IH]; simpl.
  - apply respects_ret.
  - apply respects_bind; [apply Hf | intros _; apply IH].
Qed.

Lemma respects_char_has_verified_key (ks : list ObjectId) (found : bool) :
  respects R (char_has_verified_key ks found).
Proof.
  revert found. induction ks as [|k ks IH]; intros found; simpl.
  - apply respects_ret.
  - apply respects_bind.
    + unfold credential_verified. apply respects_bind; [apply respects_gets|].
      intros creds. destruct (creds !! k); [apply respects_ret | apply respects_raise].
    + intros v. apply IH.
Qed.
End Respects.

Global Instance keeps_key_data_preorder : PreOrder keeps_key_data.
Proof.
  split; [done | intros a b c Hab Hbc; unfold keeps_key_data in *; congruence].
Qed.
Global Instance keeps_this_preorder : PreOrder keeps_this.
Proof. split; [done | intros a b c; unfold keeps_this; congruence]. Qed.
Global Instance keeps_Credentials_preorder : PreOrder keeps_Credentials.
Proof. split; [done | intros a b c; unfold keeps_Credentials; congruence]. Qed.
Global Instance keeps_Characters_preorder : PreOrder keeps_Characters.
Proof. split; [done | intros a b c; unfold keeps_Characters; congruence]. Qed.
Global Instance keeps_registry_preorder : PreOrder keeps_registry.
Proof.
  split; [done |].
  intros a b c (?&?&?) (?&?&?). unfold keeps_registry. repeat split; congruence.
Qed.
Global Instance keeps_grants_preorder : PreOrder keeps_grants.
Proof. split; [done | intros a b c; unfold keeps_grants; congruence]. Qed.

(** One structural step of a frame proof, and the whole of it. *)
Ltac frame_step :=
  first
    [ apply respects_ret; apply _
    | apply respects_raise; apply _
    | apply respects_gets; apply _
    | apply respects_lift; apply _
    | apply respects_bind; [ apply _ | | intros ? ]
    | apply respects_try; [ apply _ | | intros ? ]
    | apply respects_for_each; [ apply _ | intros ? ]
    | apply respects_char_has_verified_key; apply _
    | apply respects_modify; intros ?
    | match goal with
      | |- respects _ (match ?x with _ => _ end) => destruct x
      | |- respects _ (let '(_, _) := ?x in _) => destruct x
      end ].

Ltac unfold_ops :=
  unfold log, save, character_create, character_first, character_save,
    character_delete, characters, detach, add_duplicate,
    remove_grants_for_character, document_delete, attr,
    resolve_corporationName, alliance_get_or_create, alliance_save,
    corporation_get_or_create, corporation_save, membership_alliance,
    membership_corporation, get_membership, fetch_character, resolve_name,
    merge_character, create_or_load, pull_character, pull_corp,
    self_has_access, eval_violation, parse_expires, apply_key_info,
    compute_verified, clear_character_violation, detach_outdated,
    credential_verified, revoke_unverified, revoke_grants, delete_char, delete.

Ltac frame := repeat (progress unfold_ops); repeat frame_step; try done.

Lemma pull_character_keeps_key_data (E : Env) (info : Info) :
  respects keeps_key_data (pull_character E info).
Proof.
  frame.
Qed.

Lemma pull_rows_keeps_key_data (E : Env) (rows : list Info) (ok : bool) (P : gset Z) :
  respects keeps_key_data (pull_rows E rows ok P).
Proof.
  revert ok P. induction rows as [|row rows IH]; intros ok P; simpl.
  - frame.
  - destruct (corporationName row).
    + apply respects_bind; [apply _ | apply pull_character_keeps_key_data |].
      intros [c|]; apply IH.
    + apply respects_bind; [apply _ | frame | intros _; apply IH].
Qed.

Lemma reconcile_characters_keeps_key_data (E : Env) (now : datetime) (result : KeyInfo) :
  respects keeps_key_data (reconcile_characters E now result).
Proof.
  unfold reconcile_characters. destruct (characters_row result) as [|row rows].
  - frame.
  - apply respects_bind; [apply _ | apply pull_rows_keeps_key_data |].
    intros [ok P]. frame.
Qed.

Lemma key_data_verified (a b : EVECredential) :
  key_data a = key_data b -> verified a = verified b.
Proof. intros H. by apply (f_equal verified) in H. Qed.

Lemma key_data_kind (a b : EVECredential) :
  key_data a = key_data b -> kind a = kind b.
Proof. intros H. by apply (f_equal kind) in H. Qed.

Lemma key_data_mask (a b : EVECredential) :
  key_data a = key_data b -> _mask a = _mask b.
Proof. intros H. by apply (f_equal _mask) in H. Qed.

Lemma key_data_owner (a b : EVECredential) :
  key_data a = key_data b -> owner a = owner b.
Proof. intros H. by apply (f_equal owner) in H. Qed.

Lemma key_data_cred_id (a b : EVECredential) :
  key_data a = key_data b -> cred_id a = cred_id b.
Proof. intros H. by apply (f_equal cred_id) in H. Qed.


(** ** The verified flag *)

Lemma pull_fetched (E : Env) (now : datetime) (st : State) (result : KeyInfo) :
  kind (this st) ≠ "Corporation" ->
  APIKeyInfo E (key (this st)) (code (this st)) = Return result ->
  pull E now st = pull_result E now result st.
Proof.
  intros Hkind Hfetch. unfold pull. run.
  rewrite bool_decide_eq_false_2 by done. by rewrite Hfetch.
Qed.

Lemma apply_key_info_run (E : Env) (st : State) (result : KeyInfo) (e : option datetime) :
  parse_expires E result = Return e ->
  apply_key_info E result st =
    (Return tt, mkState (with_key_info result e (this st)) (db st) (trace st)).
Proof. intros He. unfold apply_key_info. run. by rewrite He. Qed.

Lemma compute_verified_valid (E : Env) (st : State) (rec_mask : Z) (m : KeyMask) :
  py_int E (recommended_key_mask E) = Some rec_mask ->
  mask (this st) = Some m ->
  compute_verified E st =
    (Return tt,
     mkState (set_verified (has_access E m rec_mask && kind_acceptable E (this st))
                           (this st))
             (db st) (trace st)).
Proof.
  intros Hrec Hm. unfold compute_verified, self_has_access. rewrite Hrec. run.
  by rewrite Hm.
Qed.

Lemma compute_verified_invalid (E : Env) (st : State) :
  py_int E (recommended_key_mask E) = None ->
  compute_verified E st =
    (Return tt,
     mkState (set_verified false (this st)) (db st)
             (trace st ++ [Logged "warn" "core.recommended_key_mask MUST be an integer."])).
Proof. intros Hrec. unfold compute_verified. by rewrite Hrec. Qed.






(** ** eval_violation *)

Lemma save_run (st : State) : save st = (Return (this st), after_save (this st) st).
Proof. reflexivity. Qed.



(** ** A key that reports no characters *)



(** ** get_membership: the alliance name *)

Global Instance keeps_Alliances_preorder : PreOrder keeps_Alliances.
Proof.
  split; [done |].
  intros a b c [? ?] [? ?]. unfold keeps_Alliances. split; congruence.
Qed.

Lemma saves_of_app (coll : string) (tr tr' : list Event) :
  saves_of coll (tr ++ tr') = saves_of coll tr ++ saves_of coll tr'.
Proof. unfold saves_of. apply omap_app. Qed.

Lemma membership_corporation_keeps_Alliances (info : Info) (n : string)
    (a : option EVEAlliance) :
  respects keeps_Alliances (membership_corporation info n a).
Proof.
  frame; split; try done; simpl; rewrite saves_of_app; simpl;
    by rewrite app_nil_r.
Qed.

Lemma membership_alliance_created (info : Info) (st : State) (aid : Z) :
  allianceID info = Some aid -> aid ≠ 0 ->
  Alliances (db st) !! aid = None ->
  let a := mkAlliance aid (resolve_allianceName info) in
  membership_alliance info st =
    (Return (Some a),
     mkState (this st) (with_Alliances (insert aid a) (db st))
             (trace st ++ [Saved "Alliances" aid])).
Proof.
  intros Hid Hnz Hnone. unfold membership_alliance, alliance_get_or_create.
  rewrite Hid. rewrite bool_decide_eq_true_2 by done. run.
  by rewrite Hnone.
Qed.

Lemma membership_alliance_renamed (info : Info) (st : State) (aid : Z) (a : EVEAlliance) :
  allianceID info = Some aid -> aid ≠ 0 ->
  Alliances (db st) !! aid = Some a ->
  alliance_name a ≠ resolve_allianceName info ->
  let a' := mkAlliance (alliance_identifier a) (resolve_allianceName info) in
  membership_alliance info st =
    (Return (Some a'),
     mkState (this st) (with_Alliances (insert (alliance_identifier a) a') (db st))
             (trace st ++ [Saved "Alliances" (alliance_identifier a)])).
Proof.
  intros Hid Hnz Ha Hname. unfold membership_alliance, alliance_get_or_create.
  rewrite Hid. rewrite bool_decide_eq_true_2 by done. run.
  rewrite Ha. simpl. by rewrite bool_decide_eq_true_2.
Qed.

Lemma membership_alliance_same (info : Info) (st : State) (aid : Z) (a : EVEAlliance) :
  allianceID info = Some aid -> aid ≠ 0 ->
  Alliances (db st) !! aid = Some a ->
  alliance_name a = resolve_allianceName info ->
  membership_alliance info st = (Return (Some a), st).
Proof.
  intros Hid Hnz Ha Hname. unfold membership_alliance, alliance_get_or_create.
  rewrite Hid. rewrite bool_decide_eq_true_2 by done. run.
  rewrite Ha. simpl. rewrite bool_decide_eq_false_2; [done|]. by intros [].
Qed.

(** C9, as stated, fails: for a payload that carries both keys the alliance
    is created under the value of "alliance", not under the value of the
    more specific "allianceName". *)
Lemma get_membership_alliance_key_counterexample :
  info_alliance c9_info = Some "BRAVE" /\
  allianceName c9_info = Some "Brave Collective" /\
  stated_allianceName c9_info = Some "Brave Collective" /\
  resolve_allianceName c9_info ≠ stated_allianceName c9_info /\
  Alliances (db (get_membership c9_info c9_state).2) !! 5
    = Some (mkAlliance 5 (Some "BRAVE")) /\
  (get_membership c9_info c9_state).1
    = Return (mkCorporation 9 "Corp" (Some 5), Some (mkAlliance 5 (Some "BRAVE"))).
Proof. by vm_compute. Qed.

Lemma resolve_allianceName_eq (info : Info) :
  resolve_allianceName info =
    match info_alliance info with
    | Some a => Some a
    | None => allianceName info
    end.
Proof.
  unfold resolve_allianceName.
  destruct (info_alliance info); [done|]. by destruct (allianceName info).
Qed.

Lemma resolve_corporationName_run (info : Info) (st : State) (cn : string) :
  info_corporation info = Some cn \/
  (info_corporation info = None /\ corporationName info = Some cn) ->
  resolve_corporationName info st = (Return cn, st).
Proof.
  unfold resolve_corporationName. intros [H|[H1 H2]].
  - by rewrite H.
  - by rewrite H1, H2.
Qed.

Lemma membership_corporation_returns (info : Info) (n : string)
    (a : option EVEAlliance) (st : State) (cid : Z) :
  corporationID info = Some cid ->
  exists corp st', membership_corporation info n a st = (Return corp, st').
Proof.
  intros Hcid. unfold membership_corporation, corporation_get_or_create.
  rewrite Hcid. run.
  destruct (Corporations (db st) !! cid) as [c|]; simpl.
  - destruct (_ || _); eauto.
  - destruct (_ || _); eauto.
Qed.

(** C9, amended: [get_membership] reads the alliance name from "alliance"
    and, only when that key is missing, from "allianceName".  The name so
    resolved is the one a new alliance is created with, and the one an
    existing alliance is corrected to; the existing alliance is saved
    exactly when its stored name differs. *)
Theorem get_membership_alliance_name (info : Info) (st : State) (aid cid : Z)
    (cn : string) :
  allianceID info = Some aid -> aid ≠ 0 ->
  corporationID info = Some cid ->
  (info_corporation info = Some cn \/
   (info_corporation info = None /\ corporationName info = Some cn)) ->
  let n := match info_alliance info with
           | Some a => Some a
           | None => allianceName info
           end in
  exists corp alli st',
    get_membership info st = (Return (corp, Some alli), st') /\
    alliance_name alli = n /\
    match Alliances (db st) !! aid with
    | None =>
        alli = mkAlliance aid n /\
        Alliances (db st') = <[aid := alli]> (Alliances (db st)) /\
        saves_of "Alliances" (trace st') = saves_of "Alliances" (trace st) ++ [aid]
    | Some a =>
        alli = mkAlliance (alliance_identifier a) n /\
        if bool_decide (alliance_name a = n)
        then Alliances (db st') = Alliances (db st) /\
             saves_of "Alliances" (trace st') = saves_of "Alliances" (trace st)
        else Alliances (db st') = <[alliance_identifier a := alli]> (Alliances (db st)) /\
             saves_of "Alliances" (trace st')
               = saves_of "Alliances" (trace st) ++ [alliance_identifier a]
    end.
Proof.
  intros Hid Hnz Hcid Hcn n. subst n. rewrite <- resolve_allianceName_eq.
  unfold get_membership.
  rewrite (bind_Return _ _ _ _ _ (resolve_corporationName_run info st cn Hcn)).
  destruct (Alliances (db st) !! aid) as [a|] eqn:Ha.
  - destruct (bool_decide_reflect (alliance_name a = resolve_allianceName info))
      as [Hname|Hname].
    + rewrite (bind_Return _ _ _ _ _
                 (membership_alliance_same info st aid a Hid Hnz Ha Hname)).
      destruct (membership_corporation_returns info cn (Some a) st cid Hcid)
        as (corp & st' & Hrun).
      exists corp, a, st'. rewrite (bind_Return _ _ _ _ _ Hrun).
      apply membership_corporation_keeps_Alliances in Hrun as [? ?].
      repeat split; try done. destruct a; simpl in *; by subst.
    + rewrite (bind_Return _ _ _ _ _
                 (membership_alliance_renamed info st aid a Hid Hnz Ha Hname)).
      edestruct (membership_corporation_returns info cn) as (corp & st' & Hrun);
        [exact Hcid|].
      eexists corp, _, st'. rewrite (bind_Return _ _ _ _ _ Hrun).
      apply membership_corporation_keeps_Alliances in Hrun as [Hal Htr].
      simpl in Hal, Htr. rewrite saves_of_app in Htr.
      repeat split; done.
  - rewrite (bind_Return _ _ _ _ _
               (membership_alliance_created info st aid Hid Hnz Ha)).
    edestruct (membership_corporation_returns info cn) as (corp & st' & Hrun);
      [exact Hcid|].
    eexists corp, _, st'. rewrite (bind_Return _ _ _ _ _ Hrun).
    apply membership_corporation_keeps_Alliances in Hrun as [Hal Htr].
    simpl in Hal, Htr. rewrite saves_of_app in Htr.
    repeat split; done.
Qed.

(** ** Loops of detach calls *)

Lemma elem_of_characters_of (self : EVECredential) (s : Store) (c : EVECharacter) :
  c ∈ characters_of self s <->
  attached self c = true /\ exists i, Characters s !! i = Some c.
Proof.
  unfold characters_of. rewrite list_elem_of_filter, list_elem_of_fmap.
  split.
  - intros [Ha [[i c'] [-> Hin]]]. split; [done|].
    exists i. by apply elem_of_map_to_list.
  - intros [Ha [i Hi]]. split; [done|].
    exists (i, c). split; [done|]. by apply elem_of_map_to_list.
Qed.

Lemma stored_identifiers (m : gmap Z EVECharacter) :
  chars_keyed m ->
  char_identifier <$> (map_to_list m).*2 = (map_to_list m).*1.
Proof.
  intros Hk.
  assert (Forall (fun p => char_identifier p.2 = p.1) (map_to_list m)) as Hall.
  { apply Forall_forall. intros [i c] Hin. apply elem_of_map_to_list in Hin.
    simpl. by apply Hk. }
  induction Hall as [|[i c] l Hic _ IH]; [done|].
  rewrite !fmap_cons. simpl in *. by rewrite Hic, IH.
Qed.

Lemma NoDup_filter_fmap {A B} (f : A -> B) (P : A -> Prop)
    `{!forall x, Decision (P x)} (l : list A) :
  NoDup (f <$> l) -> NoDup (f <$> filter P l).
Proof.
  induction l as [|x l IH]; [done|].
  rewrite fmap_cons. intros [Hx Hl]%NoDup_cons.
  rewrite filter_cons. destruct (decide (P x)).
  - rewrite fmap_cons. apply NoDup_cons. split; [|by apply IH].
    intros Hin. apply Hx. apply list_elem_of_fmap in Hin as [y [-> Hy]].
    apply list_elem_of_filter in Hy as [_ Hy].
    apply list_elem_of_fmap. eauto.
  - by apply IH.
Qed.

Lemma detach_all_lookup (l : list EVECharacter) (m : gmap Z EVECharacter) (i : Z) :
  chars_keyed m ->
  NoDup (char_identifier <$> l) ->
  (forall c, c ∈ l -> m !! char_identifier c = Some c) ->
  detach_all l m !! i =
    (fun c => if bool_decide (c ∈ l) then set_char_owner None c else c) <$> m !! i.
Proof.
  revert m. induction l as [|c0 l IH]; intros m Hk Hnd Hin.
  - simpl. by destruct (m !! i).
  - rewrite fmap_cons in Hnd. apply NoDup_cons in Hnd as [Hc0 Hnd].
    assert (m !! char_identifier c0 = Some c0) as Hm0 by (apply Hin; left).
    change (detach_all (c0 :: l) m)
      with (detach_all l (<[char_identifier c0 := set_char_owner None c0]> m)).
    assert (forall c, c ∈ l -> char_identifier c ≠ char_identifier c0) as Hne.
    { intros c Hc Heq. apply Hc0. rewrite <- Heq.
      apply list_elem_of_fmap. eauto. }
    rewrite IH; [| | done |].
    + destruct (decide (i = char_identifier c0)) as [->|Hi].
      * rewrite lookup_insert_eq, Hm0. simpl.
        rewrite bool_decide_eq_false_2.
        { rewrite bool_decide_eq_true_2; [done | left]. }
        intros Hin'. by apply (Hne _ Hin').
      * rewrite lookup_insert_ne by done.
        destruct (m !! i) as [c|] eqn:Hmi; simpl; [|done].
        assert (c ≠ c0) as Hcc.
        { intros ->. apply Hi. symmetry. by apply Hk. }
        f_equal. destruct (decide (c ∈ l)) as [Hcl|Hcl].
        -- rewrite !bool_decide_eq_true_2; [done | by right | done].
        -- rewrite !bool_decide_eq_false_2; [done | | done].
           intros [?|?]%elem_of_cons; done.
    + intros j c. destruct (decide (j = char_identifier c0)) as [->|Hj].
      * rewrite lookup_insert_eq. by intros [= <-].
      * rewrite lookup_insert_ne by done. apply Hk.
    + intros c Hc. rewrite lookup_insert_ne; [apply Hin; by right|].
      intros Heq. by apply (Hne c Hc).
Qed.

(** Detaching the stored rows that satisfy [P] is one pass over the
    collection. *)
Lemma detach_all_filter (P : EVECharacter -> bool) (m : gmap Z EVECharacter) :
  chars_keyed m ->
  detach_all (filter (fun c => P c = true) (map_to_list m).*2) m =
    (fun c => if P c then set_char_owner None c else c) <$> m.
Proof.
  intros Hk. apply map_eq. intros i.
  rewrite detach_all_lookup; [| done | |].
  - rewrite lookup_fmap. destruct (m !! i) as [c|] eqn:Hmi; simpl; [|done].
    f_equal. destruct (P c) eqn:HP.
    + rewrite bool_decide_eq_true_2; [done|].
      apply list_elem_of_filter. split; [done|].
      apply list_elem_of_fmap. exists (i, c). split; [done|].
      by apply elem_of_map_to_list.
    + rewrite bool_decide_eq_false_2; [done|].
      intros [HP' _]%list_elem_of_filter. congruence.
  - apply NoDup_filter_fmap. rewrite stored_identifiers by done.
    apply NoDup_fst_map_to_list.
  - intros c [_ Hc]%list_elem_of_filter.
    apply list_elem_of_fmap in Hc as [[i' c'] [-> Hin]].
    apply elem_of_map_to_list in Hin. simpl.
    by rewrite (Hk _ _ Hin).
Qed.

Lemma with_Characters_compose (f g : gmap Z EVECharacter -> gmap Z EVECharacter)
    (s : Store) :
  with_Characters f (with_Characters g s) = with_Characters (fun m => f (g m)) s.
Proof. reflexivity. Qed.

Lemma detach_run (c : EVECharacter) (st : State) :
  detach c st =
    (Return tt,
     mkState (this st)
       (with_Characters (insert (char_identifier c) (set_char_owner None c)) (db st))
       (trace st ++ [Detached (char_identifier c);
                     Saved "Characters" (char_identifier c)])).
Proof.
  unfold detach, character_save. run. unfold emit, with_db. simpl.
  by rewrite <- app_assoc.
Qed.

Lemma for_each_detach_run (l : list EVECharacter) (st : State) :
  exists tr,
    for_each detach l st =
      (Return tt, mkState (this st) (with_Characters (detach_all l) (db st)) tr).
Proof.
  revert st. induction l as [|c l IH]; intros st.
  - exists (trace st). simpl. unfold ret. by destruct st as [? [] ?].
  - simpl. rewrite (bind_Return _ _ _ _ _ (detach_run c st)).
    edestruct IH as [tr Htr]. rewrite Htr. by eexists.
Qed.

Lemma delete_loop_run (self : EVECredential) (l : list EVECharacter) (st : State) :
  exists tr,
    for_each (fun char => delete_char self char ;;; ret tt) l st =
      (Return tt,
       mkState (this st)
         (with_Characters
            (detach_all (filter (fun c => no_other_key self c = true) l)) (db st))
         tr).
Proof.
  revert st. induction l as [|c l IH]; intros st.
  - exists (trace st). simpl. unfold ret. by destruct st as [? [] ?].
  - simpl. rewrite filter_cons. unfold delete_char at 1.
    destruct (no_other_key self c) eqn:Hc.
    + rewrite decide_True by done.
      unfold bind at 1 2 3. rewrite detach_run. simpl.
      edestruct IH as [tr Htr]. rewrite Htr. by eexists.
    + rewrite decide_False by done.
      unfold bind at 1 2 3. simpl.
      edestruct IH as [tr Htr]. rewrite Htr. by eexists.
Qed.

Lemma filter_filter_andb {A} (P Q : A -> bool) (l : list A) :
  filter (fun x => Q x = true) (filter (fun x => P x = true) l)
  = filter (fun x => P x && Q x = true) l.
Proof.
  induction l as [|x l IH]; [done|].
  rewrite !filter_cons. destruct (P x) eqn:HP; simpl.
  - rewrite filter_cons. destruct (Q x); simpl; by rewrite IH.
  - exact IH.
Qed.

(** What [delete] leaves in the store. *)
Lemma delete_run (st : State) :
  chars_keyed (Characters (db st)) ->
  exists tr,
    delete st =
      (Return tt,
       mkState (this st)
         (with_Characters
            (fun m =>
               remove_credential (cred_id (this st)) <$>
                 ((fun c => if attached (this st) c && no_other_key (this st) c
                            then set_char_owner None c else c) <$> m))
            (with_Credentials (base.delete (cred_id (this st))) (db st)))
         tr).
Proof.
  intros Hk. unfold delete.
  erewrite bind_Return by reflexivity.
  erewrite bind_Return by reflexivity.
  destruct (delete_loop_run (this st) (characters_of (this st) (db st)) st)
    as [tr Htr].
  erewrite bind_Return by exact Htr.
  unfold document_delete. run.
  unfold characters_of. rewrite filter_filter_andb.
  destruct st as [self [creds chars corps allis dups gr] tr0]. simpl in *.
  eexists.
  unfold emit, with_db, with_Characters, with_Credentials. simpl.
  rewrite (detach_all_filter
             (fun c => attached self c && no_other_key self c)) by done.
  reflexivity.
Qed.

Lemma filter_none {A} (P : A -> Prop) `{!forall x, Decision (P x)} (l : list A) :
  (forall x, x ∈ l -> ~ P x) -> filter P l = [].
Proof.
  induction l as [|x l IH]; intros Hall; [done|].
  rewrite filter_cons, decide_False by (apply Hall; left).
  apply IH. intros y Hy. apply Hall. by right.
Qed.

Lemma no_other_key_spec (self : EVECredential) (c : EVECharacter) :
  no_other_key self c = true <->
  forall k, k ∈ char_credentials c -> k = cred_id self.
Proof.
  unfold no_other_key. rewrite bool_decide_eq_true, length_zero_iff_nil.
  split.
  - intros Hnil k Hk. destruct (decide (k = cred_id self)) as [|Hne]; [done|].
    assert (k ∈ filter (fun k => k ≠ cred_id self) (char_credentials c)) as Hin
      by (by apply list_elem_of_filter).
    rewrite Hnil in Hin. by apply not_elem_of_nil in Hin.
  - intros Hall. apply filter_none.
    intros k Hk Hne. by apply Hne, Hall.
Qed.

Lemma remove_credential_unattached (self : EVECredential) (c : EVECharacter) :
  attached self c = false -> remove_credential (cred_id self) c = c.
Proof.
  unfold attached. rewrite bool_decide_eq_false. intros Hnot.
  destruct c as [i n o creds ? ? ? ? ? ? ? ? ?]. unfold remove_credential.
  simpl in *. f_equal.
  induction creds as [|k creds IH]; [done|].
  rewrite filter_cons. rewrite decide_True; [|set_solver].
  f_equal. apply IH. set_solver.
Qed.

(** ** A key the API refuses *)

(** C2: for a credential whose kind is not "Corporation", when the key-info
    fetch fails with HTTP status 403, [pull] returns None and the credential
    is gone from the Credentials collection.  Every stored identity loses the
    credential from its credential list; an identity that was attached and
    had no other credential has its owner cleared, an attached identity that
    has another credential keeps its owner, and an identity that was not
    attached is left as it was.  No identity row is added or removed. *)
Theorem pull_forbidden_deletes (E : Env) (now : datetime) (st : State) :
  chars_keyed (Characters (db st)) ->
  kind (this st) ≠ "Corporation" ->
  APIKeyInfo E (key (this st)) (code (this st)) = Raise (HTTPError 403) ->
  exists st',
    pull E now st = (Return None, st') /\
    Credentials (db st') = base.delete (cred_id (this st)) (Credentials (db st)) /\
    Credentials (db st') !! cred_id (this st) = None /\
    (forall i c,
       Characters (db st) !! i = Some c ->
       exists c',
         Characters (db st') !! i = Some c' /\
         (cred_id (this st) ∉ char_credentials c') /\
         (char_credentials c'
            = filter (fun k => k ≠ cred_id (this st)) (char_credentials c)) /\
         (attached (this st) c = true ->
          (forall k, k ∈ char_credentials c -> k = cred_id (this st)) ->
          char_owner c' = None) /\
         (attached (this st) c = true ->
          (exists k, k ∈ char_credentials c /\ k ≠ cred_id (this st)) ->
          char_owner c' = char_owner c) /\
         (attached (this st) c = false -> c' = c)) /\
    (forall i, Characters (db st) !! i = None -> Characters (db st') !! i = None).
Proof.
  intros Hk Hkind Hfetch.
  set (st0 := mkState (this st) (db st)
                (trace st ++ [Logged "debug" (key_disabled_message (this st))])).
  destruct (delete_run st0 Hk) as [tr Hdel].
  eexists. split.
  - unfold pull. erewrite bind_Return by reflexivity.
    rewrite bool_decide_eq_false_2 by done. rewrite Hfetch.
    rewrite bool_decide_eq_true_2 by done.
    erewrite bind_Return by reflexivity. fold st0.
    erewrite bind_Return by exact Hdel. reflexivity.
  - simpl. split; [done|]. split; [apply lookup_delete_eq|]. split.
    + intros i c Hc. eexists. split.
      { rewrite !lookup_fmap, Hc. reflexivity. }
      assert (forall c0 : EVECharacter,
                cred_id (this st)
                  ∉ char_credentials (remove_credential (cred_id (this st)) c0))
        as Hgone.
      { intros c0 Hin. simpl in Hin.
        apply list_elem_of_filter in Hin as [Hne _]. done. }
      cbv beta.
      destruct (attached (this st) c) eqn:Hat; simpl.
      * destruct (no_other_key (this st) c) eqn:Hno; simpl.
        -- split_and!; try done.
           ++ apply Hgone.
           ++ intros _ [k [Hin Hne]].
              pose proof (proj1 (no_other_key_spec _ _) Hno k Hin). done.
        -- split_and!; try done.
           ++ apply Hgone.
           ++ intros _ Hall.
              pose proof (proj2 (no_other_key_spec _ _) Hall). congruence.
      * split_and!; try done.
        -- apply Hgone.
        -- intros _. by apply remove_credential_unattached.
    + intros i Hi. by rewrite !lookup_fmap, Hi.
Qed.

(** ** Stores stay well formed *)

Global Instance keeps_keyed_preorder : PreOrder keeps_keyed.
Proof.
  split.
  - intros a H. exact H.
  - intros a b c Hab Hbc H. apply Hbc, Hab, H.
Qed.

Ltac keyed_step :=
  unfold keeps_keyed, store_keyed, chars_keyed, corps_keyed, alliances_keyed;
  simpl; intros (Hch & Hco & Hal); split_and!; try done;
  intros j x;
  rewrite ?lookup_insert, ?lookup_delete; repeat case_decide;
  naive_solver.

Lemma pull_character_keeps_keyed (E : Env) (info : Info) :
  respects keeps_keyed (pull_character E info).
Proof. frame; keyed_step. Qed.

Lemma pull_rows_keeps_keyed (E : Env) (rows : list Info) (ok : bool) (P : gset Z) :
  respects keeps_keyed (pull_rows E rows ok P).
Proof.
  revert ok P. induction rows as [|row rows IH]; intros ok P; simpl.
  - frame.
  - destruct (corporationName row).
    + apply respects_bind; [apply _ | apply pull_character_keeps_keyed |].
      intros [c|]; apply IH.
    + apply respects_bind; [apply _ | frame; keyed_step | intros _; apply IH].
Qed.

(** ** The loop over the rows of the key *)

Lemma create_or_load_run (info : Info) (st : State) :
  create_or_load info st =
    match Characters (db st) !! characterID info with
    | None =>
        (Return (inr (new_character (characterID info), true)),
         mkState (this st)
           (with_Characters
              (insert (characterID info) (new_character (characterID info))) (db st))
           (trace st ++ [Saved "Characters" (characterID info)]))
    | Some c =>
        if owner_conflict (this st) c
        then (Return (inl None), conflict_state c st)
        else (Return (inr (c, false)), st)
    end.
Proof.
  unfold create_or_load, character_create, character_first. run.
  destruct (Characters (db st) !! characterID info) as [c|] eqn:Hc; simpl.
  - rewrite Hc. simpl. by destruct (owner_conflict (this st) c).
  - reflexivity.
Qed.

Lemma merge_character_keeps_this (E : Env) (info : Info) (char : EVECharacter)
    (new : bool) :
  respects keeps_this (merge_character E info char new).
Proof. frame. Qed.

Lemma merge_character_Return (E : Env) (info : Info) (char : EVECharacter)
    (new : bool) (st : State) (r : option EVECharacter) (st' : State) :
  merge_character E info char new st = (Return r, st') ->
  exists c, r = Some c /\ char_identifier c = char_identifier char.
Proof.
  unfold merge_character. intros H.
  apply bind_inv_Return in H as (info' & st1 & _ & H).
  apply bind_inv_Return in H as ([corp alli] & st2 & _ & H).
  apply bind_inv_Return in H as (name & st3 & _ & H).
  apply bind_inv_Return in H as (self & st4 & _ & H).
  apply bind_inv_Return in H as (saved & st5 & Hsave & H).
  injection H as <- _. injection Hsave as <- _.
  eexists. split; [reflexivity | done].
Qed.

(** A merge that hands back a character has not touched the credential;
    a pull that hands back nothing has met an ownership conflict. *)
Lemma pull_character_Return (E : Env) (info : Info) (st : State)
    (r : option EVECharacter) (st' : State) :
  pull_character E info st = (Return r, st') ->
  match r with
  | Some _ => this st' = this st
  | None =>
      exists c, Characters (db st) !! characterID info = Some c /\
                owner_conflict (this st) c = true /\ st' = conflict_state c st
  end.
Proof.
  unfold pull_character. unfold bind at 1. rewrite create_or_load_run.
  destruct (Characters (db st) !! characterID info) as [c|] eqn:Hc.
  - destruct (owner_conflict (this st) c) eqn:Hconf.
    + intros [= <- <-]. eauto.
    + intros Hrun.
      destruct (merge_character_Return _ _ _ _ _ _ _ Hrun) as (ch & -> & _).
      by apply merge_character_keeps_this in Hrun.
  - intros Hrun.
    destruct (merge_character_Return _ _ _ _ _ _ _ Hrun) as (ch & -> & _).
    by apply merge_character_keeps_this in Hrun.
Qed.

Lemma pull_rows_not_ok (E : Env) (rows : list Info) (P : gset Z) (st : State)
    (ok : bool) (P' : gset Z) (st' : State) :
  pull_rows E rows false P st = (Return (ok, P'), st') -> ok = false.
Proof.
  revert P st. induction rows as [|row rows IH]; intros P st; simpl.
  - by intros [= <- _ _].
  - destruct (corporationName row).
    + intros H. apply bind_inv_Return in H as (r & st1 & _ & H).
      destruct r; by eapply IH.
    + intros H. apply bind_inv_Return in H as (r & st1 & _ & H). by eapply IH.
Qed.

(** A loop that ends with [allCharsOK] still true has left the in-memory
    credential alone. *)
Lemma pull_rows_clean_this (E : Env) (rows : list Info) (P : gset Z) (st : State)
    (P' : gset Z) (st' : State) :
  pull_rows E rows true P st = (Return (true, P'), st') -> this st' = this st.
Proof.
  revert P st. induction rows as [|row rows IH]; intros P st; simpl.
  - by intros [= _ <-].
  - destruct (corporationName row).
    + intros H. apply bind_inv_Return in H as (r & st1 & Hrow & H).
      apply pull_character_Return in Hrow. destruct r as [c|].
      * apply IH in H. congruence.
      * by apply pull_rows_not_ok in H.
    + intros H. apply bind_inv_Return in H as (r & st1 & Hlog & H).
      apply IH in H. injection Hlog as _ <-. exact H.
Qed.

(** ** After the loop: lines 282-303 *)

Lemma clear_character_violation_run (ok : bool) (st : State) :
  clear_character_violation ok st =
    (Return tt,
     mkState (if ok && bool_decide (violation (this st) = Some "Character")
              then set_violation None (this st) else this st)
             (db st) (trace st)).
Proof.
  unfold clear_character_violation. run.
  destruct (ok && _); [done | by destruct st].
Qed.

Lemma detach_outdated_run (P : gset Z) (st : State) :
  chars_keyed (Characters (db st)) ->
  exists tr,
    detach_outdated P st =
      (Return tt,
       mkState (this st)
               (with_Characters (fmap (detach_stale (this st) P)) (db st)) tr).
Proof.
  intros Hk. unfold detach_outdated. erewrite bind_Return by reflexivity.
  destruct (for_each_detach_run (outdated_characters (this st) (db st) P) st)
    as [tr Htr].
  rewrite Htr. exists tr. f_equal. f_equal.
  destruct st as [self [creds chars corps allis dups gr] tr0]. simpl in *.
  unfold with_Characters. simpl. f_equal.
  unfold outdated_characters, characters_of. simpl.
  rewrite list_filter_filter.
  rewrite (list_filter_iff _
             (fun c => attached self c && bool_decide (char_identifier c ∉ P) = true)).
  - by rewrite (detach_all_filter
                  (fun c => attached self c && bool_decide (char_identifier c ∉ P))).
  - intros c. rewrite andb_true_iff, bool_decide_eq_true. tauto.
Qed.

(** [eval_violation] returns whenever the mask object exists or the
    configured mask is unreadable; it leaves the verdict [eval_policy]
    names, and the stored credentials differ from the earlier ones at most
    by this credential. *)
Lemma eval_violation_run (E : Env) (st : State) :
  py_int E (recommended_key_mask E) = None \/ is_Some (mask (this st)) ->
  exists r creds tr,
    eval_violation E st =
      (Return r,
       mkState (set_violation (eval_policy E (this st)) (this st))
               (with_Credentials (fun _ => creds) (db st)) tr) /\
    (creds = Credentials (db st) \/
     creds = <[cred_id (this st) := set_violation (eval_policy E (this st)) (this st)]>
               (Credentials (db st))).
Proof.
  intros Hcfg. unfold eval_violation, eval_policy.
  destruct (py_int E (recommended_key_mask E)) as [rec_mask|] eqn:Hrec.
  - destruct Hcfg as [|[m Hm]]; [done|]. run.
    destruct (bool_decide_reflect (violation (this st) = Some "Character"))
      as [Hv|Hv].
    + exists None, (Credentials (db st)), (trace st). split; [|by left].
      rewrite <- Hv. by destruct st as [[] [] ?].
    + destruct (kind_acceptable E (this st)); simpl.
      * unfold self_has_access. run. rewrite Hm.
        destruct (has_access E m rec_mask); simpl;
          eexists _, _, _; (split; [reflexivity | by right]).
      * eexists _, _, _. split; [reflexivity | by right].
  - exists None, (Credentials (db st)). eexists. split; [|by left].
    run. by destruct st as [[] [] ?].
Qed.

Lemma revoke_loop_frames (chars : list EVECharacter) :
  respects keeps_this (for_each revoke_unverified chars) /\
  respects keeps_Credentials (for_each revoke_unverified chars) /\
  respects keeps_Characters (for_each revoke_unverified chars) /\
  respects keeps_registry (for_each revoke_unverified chars).
Proof. split_and!; frame. Qed.

Lemma revoke_grants_frames :
  respects keeps_this revoke_grants /\
  respects keeps_Credentials revoke_grants /\
  respects keeps_Characters revoke_grants /\
  respects keeps_registry revoke_grants.
Proof. split_and!; frame. Qed.

(** The credential and the store as lines 282-293 leave them, from the
    state [st2] the loop ended in. *)
Lemma reconcile_after_rows (E : Env) (now : datetime) (result : KeyInfo)
    (st1 st2 : State) (ok : bool) (P : gset Z) :
  characters_row result ≠ [] ->
  pull_rows E (characters_row result) true ∅ st1 = (Return (ok, P), st2) ->
  chars_keyed (Characters (db st2)) ->
  py_int E (recommended_key_mask E) = None \/ is_Some (mask (this st2)) ->
  let s3 := if ok && bool_decide (violation (this st2) = Some "Character")
            then set_violation None (this st2) else this st2 in
  let s5 := set_modified now (set_violation (eval_policy E s3) s3) in
  exists tr,
    reconcile_characters E now result st1 =
      (revoke_grants ;;; let* self := gets this in ret (Some self))
        (mkState s5
           (with_Credentials (insert (cred_id s5) s5)
              (with_Characters (fmap (detach_stale s3 P)) (db st2)))
           tr).
Proof.
  intros Hrows Hloop Hk Hcfg s3 s5. unfold reconcile_characters.
  destruct (characters_row result) as [|row rows] eqn:Hr; [done|].
  clear Hrows. rewrite (bind_Return _ _ _ _ _ Hloop).
  rewrite (bind_Return _ _ _ _ _ (clear_character_violation_run ok st2)).
  fold s3.
  edestruct (detach_outdated_run P (mkState s3 (db st2) (trace st2))) as [tr3 H3];
    [exact Hk|].
  rewrite (bind_Return _ _ _ _ _ H3). simpl.
  edestruct (eval_violation_run E
               (mkState s3 (with_Characters (fmap (detach_stale s3 P)) (db st2)) tr3))
    as (r & creds & tr4 & H4 & Hcreds).
  { simpl. destruct Hcfg as [|Hm]; [by left | right].
    subst s3. by destruct (ok && _). }
  rewrite (bind_Return _ _ _ _ _ H4). simpl.
  erewrite bind_Return by reflexivity.
  erewrite bind_Return by reflexivity.
  destruct (db st2) as [creds2 chars2 corps2 allis2 dups2 gr2].
  eexists. f_equal.
  unfold emit, with_db, with_Credentials, with_Characters. simpl. f_equal.
  f_equal. simpl in Hcreds.
  destruct Hcreds as [->| ->]; [done|].
  apply insert_insert_eq.
Qed.

Global Instance keeps_char_preorder (i : Z) : PreOrder (keeps_char i).
Proof. split; [done | intros a b c; unfold keeps_char; congruence]. Qed.

Lemma pull_result_reconcile (E : Env) (now : datetime) (result : KeyInfo)
    (e : option datetime) (st : State) :
  parse_expires E result = Return e ->
  py_int E (recommended_key_mask E) = None \/
    is_Some (mask_of (key_type result) (accessMask result)) ->
  pull_result E now result st =
    reconcile_characters E now result (after_key_info E result e st).
Proof.
  intros He Hcfg. unfold pull_result, after_key_info.
  rewrite (bind_Return _ _ _ _ _ (apply_key_info_run E st result e He)).
  destruct (py_int E (recommended_key_mask E)) as [rec_mask|] eqn:Hrec.
  - destruct Hcfg as [|[m Hm]]; [done|].
    erewrite bind_Return
      by (apply (compute_verified_valid E _ rec_mask m); [done | exact Hm]).
    unfold mask. simpl. by rewrite Hm.
  - by erewrite bind_Return by (by apply compute_verified_invalid).
Qed.

Lemma after_key_info_this (E : Env) (result : KeyInfo) (e : option datetime)
    (st : State) :
  key_data (this (after_key_info E result e st))
    = key_data (set_verified (verified (this (after_key_info E result e st)))
                  (with_key_info result e (this st))) /\
  violation (this (after_key_info E result e st)) = violation (this st) /\
  db (after_key_info E result e st) = db st.
Proof.
  unfold after_key_info. by destruct (py_int E (recommended_key_mask E)).
Qed.

Lemma merge_character_other (E : Env) (info : Info) (char : EVECharacter)
    (new : bool) (i : Z) :
  char_identifier char ≠ i ->
  respects (keeps_char i) (merge_character E info char new).
Proof.
  intros Hne. frame; unfold keeps_char; simpl;
    by rewrite ?lookup_insert_ne, ?lookup_delete_ne by done.
Qed.

Lemma pull_character_other (E : Env) (info : Info) (st : State)
    (out : outcome (option EVECharacter)) (st' : State) (i : Z) :
  chars_keyed (Characters (db st)) ->
  pull_character E info st = (out, st') ->
  i ≠ characterID info ->
  Characters (db st') !! i = Characters (db st) !! i.
Proof.
  intros Hk Hrun Hne. unfold pull_character in Hrun. unfold bind at 1 in Hrun.
  rewrite create_or_load_run in Hrun.
  destruct (Characters (db st) !! characterID info) as [c|] eqn:Hc.
  - destruct (owner_conflict (this st) c).
    + by injection Hrun as _ <-.
    + apply merge_character_other with (i := i) in Hrun; [done|].
      rewrite (Hk _ _ Hc). done.
  - apply merge_character_other with (i := i) in Hrun; [|simpl; done].
    unfold keeps_char in Hrun. simpl in Hrun.
    by rewrite lookup_insert_ne in Hrun.
Qed.

Lemma pull_character_identifier (E : Env) (info : Info) (st : State)
    (c : EVECharacter) (st' : State) :
  chars_keyed (Characters (db st)) ->
  pull_character E info st = (Return (Some c), st') ->
  char_identifier c = characterID info.
Proof.
  intros Hk Hrun. unfold pull_character in Hrun. unfold bind at 1 in Hrun.
  rewrite create_or_load_run in Hrun.
  destruct (Characters (db st) !! characterID info) as [c0|] eqn:Hc.
  - destruct (owner_conflict (this st) c0); [discriminate|].
    apply merge_character_Return in Hrun as (c' & [= <-] & Hid).
    rewrite Hid. by apply Hk.
  - by apply merge_character_Return in Hrun as (c' & [= <-] & Hid).
Qed.

(** The loop writes no row but those of the characters it pulled. *)
Lemma pull_rows_other (E : Env) (rows : list Info) (ok : bool) (P : gset Z)
    (st : State) (ok' : bool) (P' : gset Z) (st' : State) (i : Z) :
  store_keyed (db st) ->
  pull_rows E rows ok P st = (Return (ok', P'), st') ->
  P ⊆ P' /\ (i ∉ P' -> Characters (db st') !! i = Characters (db st) !! i).
Proof.
  revert ok P st. induction rows as [|row rows IH]; intros ok P st Hk; simpl.
  - by intros [= _ <- <-].
  - destruct (corporationName row).
    + intros H. apply bind_inv_Return in H as (r & st1 & Hrow & H).
      assert (store_keyed (db st1)) as Hk1
        by (by eapply pull_character_keeps_keyed).
      destruct r as [c|].
      * destruct (IH _ _ _ Hk1 H) as [Hsub Hother].
        split; [etrans; [apply union_subseteq_r | exact Hsub] |].
        intros Hi. rewrite Hother by done.
        eapply pull_character_other; [apply Hk | done |].
        rewrite <- (pull_character_identifier E row st c st1) by (done || apply Hk).
        intros ->. apply Hi, Hsub, elem_of_union_l. by apply elem_of_singleton.
      * destruct (IH _ _ _ Hk1 H) as [Hsub Hother].
        split; [done|]. intros Hi. rewrite Hother by done.
        apply pull_character_Return in Hrow as (c & _ & _ & ->). done.
    + intros H. apply bind_inv_Return in H as (r & st1 & Hlog & H).
      injection Hlog as _ <-. exact (IH _ _ (emit _ st) Hk H).
Qed.


Lemma after_key_info_mask (E : Env) (result : KeyInfo) (e : option datetime)
    (st : State) :
  mask (this (after_key_info E result e st))
    = mask_of (key_type result) (accessMask result).
Proof.
  unfold after_key_info. by destruct (py_int E (recommended_key_mask E)).
Qed.

Lemma after_key_info_cred_id (E : Env) (result : KeyInfo) (e : option datetime)
    (st : State) :
  cred_id (this (after_key_info E result e st)) = cred_id (this st).
Proof.
  unfold after_key_info. by destruct (py_int E (recommended_key_mask E)).
Qed.

(** ** Rows skipped for a missing corporation name *)

(** ** What one merge writes *)

Lemma view_data_Some (E : Env) (view : Info) (d : MergeData) :
  view_data E view = Some d ->
  md_info d = view /\
  view_corporationName view = Some (md_corporationName d) /\
  corporationID view = Some (md_corporationID d) /\
  view_name E view = Some (md_name d).
Proof.
  unfold view_data.
  destruct (view_corporationName view), (corporationID view), (view_name E view);
    try discriminate.
  by intros [= <-].
Qed.

Lemma resolve_corporationName_view (info : Info) (st : State) :
  resolve_corporationName info st =
    match view_corporationName info with
    | Some cn => (Return cn, st)
    | None => (Raise AttributeError, st)
    end.
Proof.
  unfold resolve_corporationName, view_corporationName, attr.
  destruct (info_corporation info); [done|]. by destruct (corporationName info).
Qed.

Lemma resolve_name_view (E : Env) (info : Info) (st : State) :
  resolve_name E info st =
    match view_name E info with
    | Some n => (Return n, st)
    | None => (Raise AttributeError, st)
    end.
Proof.
  unfold resolve_name, view_name, attr. run.
  destruct (info_name info) as [[]|]; [done | done |].
  by destruct (characterName info) as [[]|].
Qed.

Lemma membership_alliance_run (d : MergeData) (st : State) :
  alliances_keyed (Alliances (db st)) ->
  exists alli tr,
    membership_alliance (md_info d) st =
      (Return alli,
       mkState (this st) (with_Alliances (merged_alliances d) (db st)) tr) /\
    alliance_identifier <$> alli = md_alliance d.
Proof.
  intros Hk. unfold merged_alliances, md_alliance.
  destruct (allianceID (md_info d)) as [aid|] eqn:Hid.
  - destruct (bool_decide_reflect (aid ≠ 0)) as [Hnz|Hz].
    + destruct (Alliances (db st) !! aid) as [a|] eqn:Ha.
      * pose proof (Hk _ _ Ha) as Hida.
        destruct (decide (alliance_name a = resolve_allianceName (md_info d)))
          as [Hname|Hname].
        -- rewrite (membership_alliance_same _ st aid a Hid Hnz Ha Hname).
           exists (Some a), (trace st). split; [|by rewrite <- Hida].
           f_equal. destruct st as [self [creds chars corps allis dups gr] tr].
           unfold with_Alliances. simpl in *. do 2 f_equal.
           symmetry. apply insert_id. rewrite Ha. f_equal.
           destruct a. simpl in *. by subst.
        -- rewrite (membership_alliance_renamed _ st aid a Hid Hnz Ha Hname).
           rewrite Hida. by eexists _, _.
      * rewrite (membership_alliance_created _ st aid Hid Hnz Ha).
        by eexists _, _.
    + exists None, (trace st). split; [|done].
      unfold membership_alliance. rewrite Hid. run.
      rewrite bool_decide_eq_false_2 by done. simpl.
      by destruct st as [? [] ?].
  - exists None, (trace st). split; [|done].
    unfold membership_alliance. rewrite Hid. run. by destruct st as [? [] ?].
Qed.

Lemma membership_corporation_run (d : MergeData) (alli : option EVEAlliance)
    (st : State) :
  corps_keyed (Corporations (db st)) ->
  corporationID (md_info d) = Some (md_corporationID d) ->
  alliance_identifier <$> alli = md_alliance d ->
  exists corp tr,
    membership_corporation (md_info d) (md_corporationName d) alli st =
      (Return corp,
       mkState (this st) (with_Corporations (merged_corporations d) (db st)) tr) /\
    corp_identifier corp = md_corporationID d.
Proof.
  intros Hk Hcid Hal. unfold membership_corporation, corporation_get_or_create.
  rewrite Hcid, Hal. run. unfold merged_corporations.
  destruct (Corporations (db st) !! md_corporationID d) as [c|] eqn:Hc; simpl.
  - pose proof (Hk _ _ Hc) as Hidc. rewrite Hidc.
    destruct (bool_decide_reflect (corp_name c ≠ md_corporationName d)) as [Hn|Hn];
      simpl; [by eexists _, _|].
    destruct (bool_decide_reflect (corp_alliance c ≠ md_alliance d)) as [Ha|Ha];
      simpl; [by eexists _, _|].
    exists (mkCorporation (md_corporationID d) (md_corporationName d)
                         (md_alliance d)), (trace st).
    split; [|done]. f_equal.
    destruct st as [self [creds chars corps allis dups gr] tr].
    unfold with_Corporations. simpl in *. do 2 f_equal.
    symmetry. apply insert_id. rewrite Hc. f_equal.
    destruct c. simpl in *.
    apply dec_stable in Hn. apply dec_stable in Ha. by subst.
  - rewrite !bool_decide_eq_false_2 by (by intros []). simpl.
    by eexists _, _.
Qed.

Lemma get_membership_run (E : Env) (view : Info) (d : MergeData) (st : State) :
  store_keyed (db st) ->
  view_data E view = Some d ->
  exists corp alli tr,
    get_membership view st =
      (Return (corp, alli),
       mkState (this st)
         (with_Corporations (merged_corporations d)
            (with_Alliances (merged_alliances d) (db st)))
         tr) /\
    corp_identifier corp = md_corporationID d /\
    alliance_identifier <$> alli = md_alliance d.
Proof.
  intros (_ & Hco & Hal) Hd.
  apply view_data_Some in Hd as (<- & Hcn & Hcid & _).
  unfold get_membership.
  erewrite bind_Return by (by rewrite resolve_corporationName_view, Hcn).
  destruct (membership_alliance_run d st Hal) as (alli & tr1 & Hrun1 & Halli).
  rewrite (bind_Return _ _ _ _ _ Hrun1).
  edestruct (membership_corporation_run d alli) as (corp & tr2 & Hrun2 & Hcorp);
    [| exact Hcid | exact Halli |].
  2: { rewrite (bind_Return _ _ _ _ _ Hrun2). by eexists _, _, _. }
  done.
Qed.

Lemma get_membership_fails (E : Env) (view : Info) (st : State) :
  view_corporationName view = None \/ corporationID view = None ->
  exists e st', get_membership view st = (Raise e, st').
Proof.
  intros Hnone. unfold get_membership.
  destruct (view_corporationName view) as [cn|] eqn:Hcn.
  - destruct Hnone as [|Hcid]; [done|].
    erewrite bind_Return by (by rewrite resolve_corporationName_view, Hcn).
    unfold bind at 1.
    destruct (membership_alliance view st) as [[alli|e] st1]; [|by eauto].
    unfold membership_corporation, attr. rewrite Hcid. run. by eauto.
  - erewrite bind_Raise by (by rewrite resolve_corporationName_view, Hcn).
    by eauto.
Qed.

Lemma view_data_None (E : Env) (view : Info) :
  view_data E view = None ->
  view_corporationName view = None \/ corporationID view = None \/
  view_name E view = None.
Proof.
  unfold view_data.
  destruct (view_corporationName view); [|by left].
  destruct (corporationID view); [|by right; left].
  destruct (view_name E view); [done | by right; right].
Qed.

(** A merge whose plan exists writes the planned rows and hands back the
    character; a merge without a plan raises. *)
Lemma merge_character_run (E : Env) (info : Info) (char : EVECharacter)
    (new : bool) (st : State) :
  store_keyed (db st) ->
  match merge_plan E (this st) info with
  | Some d =>
      let c := merged_character E (this st) (char_identifier char) d
                 (char_credentials char) in
      exists tr,
        merge_character E info char new st =
          (Return (Some c),
           mkState (this st)
             (with_Characters (insert (char_identifier char) c)
                (with_Corporations (merged_corporations d)
                   (with_Alliances (merged_alliances d) (db st))))
             tr)
  | None => exists e st', merge_character E info char new st = (Raise e, st')
  end.
Proof.
  intros Hk. unfold merge_plan, merge_character.
  destruct (character_view E (this st) info) as [view|e] eqn:Hview.
  - assert (fetch_character E info char new st = (Return view, st)) as Hfetch.
    { by apply fetch_character_Return. }
    rewrite (bind_Return _ _ _ _ _ Hfetch).
    destruct (view_data E view) as [d|] eqn:Hd.
    + destruct (get_membership_run E view d st Hk Hd)
        as (corp & alli & tr & Hrun & Hcorp & Halli).
      rewrite (bind_Return _ _ _ _ _ Hrun).
      apply view_data_Some in Hd as (Hinfo & _ & _ & Hname).
      erewrite bind_Return by (by rewrite resolve_name_view, Hname).
      erewrite bind_Return by reflexivity.
      unfold character_save. run. unfold merged_character.
      rewrite Hcorp, Halli, Hinfo. by eexists.
    + apply view_data_None in Hd as [Hd|[Hd|Hd]].
      * destruct (get_membership_fails E view st (or_introl Hd)) as (e & st' & Hf).
        rewrite (bind_Raise _ _ _ _ _ Hf). by eauto.
      * destruct (get_membership_fails E view st (or_intror Hd)) as (e & st' & Hf).
        rewrite (bind_Raise _ _ _ _ _ Hf). by eauto.
      * unfold bind at 1.
        destruct (get_membership view st) as [[[corp alli]|e] st1]; [|by eauto].
        erewrite bind_Raise by (by rewrite resolve_name_view, Hd). by eauto.
  - erewrite bind_Raise by (rewrite fetch_character_run, Hview; reflexivity).
    by eauto.
Qed.

(** [pull_character], case by case: conflict, merge, or failure. *)
Lemma pull_character_cases (E : Env) (row : Info) (st : State) :
  store_keyed (db st) ->
  match conflict_owner (this st) (Characters (db st)) (characterID row) with
  | Some c => pull_character E row st = (Return None, conflict_state c st)
  | None =>
      match merge_plan E (this st) row with
      | Some d =>
          exists tr,
            pull_character E row st =
              (Return (Some (merged_character E (this st) (characterID row) d
                               (stored_credentials (Characters (db st))
                                  (characterID row)))),
               mkState (this st)
                       (merged_store E (this st) (characterID row) d (db st)) tr)
      | None => exists e st', pull_character E row st = (Raise e, st')
      end
  end.
Proof.
  intros Hk. unfold conflict_owner, pull_character. unfold bind at 1 2 3.
  rewrite create_or_load_run. unfold stored_credentials.
  destruct (Characters (db st) !! characterID row) as [c|] eqn:Hc.
  - destruct (owner_conflict (this st) c); [done|].
    pose proof (merge_character_run E row c false st Hk) as Hrun.
    destruct (merge_plan E (this st) row) as [d|]; [|done].
    destruct Hrun as [tr Hrun]. exists tr. rewrite Hrun.
    destruct Hk as (Hch & _). rewrite (Hch _ _ Hc).
    f_equal. f_equal.
    destruct st as [self [creds chars corps allis dups gr] tr0].
    unfold merged_store, merged_characters, stored_credentials, with_Characters.
    simpl in *. by rewrite Hc.
  - match goal with
    | |- context [merge_character E row ?ch true ?s] =>
        pose proof (merge_character_run E row ch true s) as Hrun
    end.
    simpl in Hrun.
    destruct (merge_plan E (this st) row) as [d|].
    + destruct Hrun as [tr Hrun].
      { destruct Hk as (Hch & Hco & Hal). split_and!; try done.
        intros j x. simpl. rewrite lookup_insert. case_decide; naive_solver. }
      exists tr. rewrite Hrun. f_equal. f_equal.
      destruct st as [self [creds chars corps allis dups gr] tr0].
      unfold merged_store, merged_characters, stored_credentials, with_Characters.
      simpl in *. rewrite Hc. f_equal. apply insert_insert_eq.
    + apply Hrun.
      destruct Hk as (Hch & Hco & Hal). split_and!; try done.
      intros j x. simpl. rewrite lookup_insert. case_decide; naive_solver.
Qed.

(** ** The loop follows its plan *)

Lemma plan_rows_ext (E : Env) (self : EVECredential)
    (co co' : Z -> option EVECharacter) (rows : list Info) :
  (forall i, co i = co' i) -> plan_rows E self co rows = plan_rows E self co' rows.
Proof.
  intros Hco. induction rows as [|row rows IH]; [done|]. simpl.
  rewrite IH, Hco. done.
Qed.

Lemma plan_rows_set_violation (E : Env) (self : EVECredential) (v : option string)
    (co : Z -> option EVECharacter) (rows : list Info) :
  plan_rows E (set_violation v self) co rows = plan_rows E self co rows.
Proof.
  induction rows as [|row rows IH]; [done|]. simpl. by rewrite IH.
Qed.

Lemma ops_store_set_violation (E : Env) (self : EVECredential) (v : option string)
    (ops : list RowOp) (s : Store) :
  ops_store E (set_violation v self) ops s = ops_store E self ops s.
Proof.
  revert s. induction ops as [|op ops IH]; intros s; [done|].
  unfold ops_store in *. simpl. rewrite IH. by destruct op.
Qed.

Lemma conflict_owner_merged (E : Env) (self : EVECredential) (i : Z) (d : MergeData)
    (m : gmap Z EVECharacter) (j : Z) :
  conflict_owner self m i = None ->
  conflict_owner self (merged_characters E self i d m) j = conflict_owner self m j.
Proof.
  intros Hi. unfold conflict_owner, merged_characters in *.
  destruct (decide (i = j)) as [<-|Hne].
  - rewrite lookup_insert_eq, Hi. unfold owner_conflict. simpl.
    destruct (owner self); [|done]. by rewrite bool_decide_eq_false_2 by (by intros []).
  - by rewrite lookup_insert_ne.
Qed.

Lemma merged_store_keyed (E : Env) (self : EVECredential) (i : Z) (d : MergeData)
    (s : Store) :
  store_keyed s -> store_keyed (merged_store E self i d s).
Proof.
  intros (Hch & Hco & Hal). unfold merged_store, merged_characters,
    merged_corporations, merged_alliances. split_and!; simpl.
  - intros j x. rewrite lookup_insert. case_decide; naive_solver.
  - intros j x. rewrite lookup_insert. case_decide; naive_solver.
  - destruct (md_alliance d); [|done].
    intros j x. rewrite lookup_insert. case_decide; naive_solver.
Qed.

Lemma pull_rows_cases (E : Env) (rows : list Info) (ok : bool) (P : gset Z)
    (st : State) :
  store_keyed (db st) ->
  match plan_rows E (this st) (conflict_owner (this st) (Characters (db st))) rows with
  | Some ops =>
      exists tr,
        pull_rows E rows ok P st =
          (Return (ok && no_conflicts ops, merged_ids ops ∪ P),
           mkState (if no_conflicts ops then this st
                    else set_violation (Some "Character") (this st))
                   (ops_store E (this st) ops (db st)) tr)
  | None => exists e st', pull_rows E rows ok P st = (Raise e, st')
  end.
Proof.
  revert ok P st. induction rows as [|row rows IH]; intros ok P st Hk.
  - simpl. exists (trace st). unfold ret. rewrite andb_true_r, union_empty_l_L.
    by destruct st.
  - simpl. destruct (corporationName row) as [cn|].
    + pose proof (pull_character_cases E row st Hk) as Hrow.
      destruct (conflict_owner (this st) (Characters (db st)) (characterID row))
        as [c|] eqn:Hco.
      * rewrite (bind_Return _ _ _ _ _ Hrow).
        specialize (IH false P (conflict_state c st) Hk). simpl in IH.
        rewrite plan_rows_set_violation in IH.
        rewrite (plan_rows_ext E (this st) _
                   (conflict_owner (this st) (Characters (db st)))) in IH
          by (intros j; reflexivity).
        destruct (plan_rows E (this st)
                    (conflict_owner (this st) (Characters (db st))) rows)
          as [ops|]; simpl; [|exact IH].
        destruct IH as [tr IH]. exists tr. rewrite IH.
        rewrite andb_false_r. rewrite ops_store_set_violation.
        f_equal. f_equal. by destruct (no_conflicts ops).
      * destruct (merge_plan E (this st) row) as [d|]; simpl.
        -- destruct Hrow as [tr1 Hrow]. rewrite (bind_Return _ _ _ _ _ Hrow).
           simpl.
           match goal with
           | |- context [pull_rows E rows ok ?P1 ?s1] =>
               specialize (IH ok P1 s1 (merged_store_keyed _ _ _ _ _ Hk))
           end.
           simpl in IH.
           rewrite (plan_rows_ext E (this st) _
                      (conflict_owner (this st) (Characters (db st)))) in IH
             by (intros j; by apply conflict_owner_merged).
           destruct (plan_rows E (this st)
                       (conflict_owner (this st) (Characters (db st))) rows)
             as [ops|]; simpl; [|exact IH].
           destruct IH as [tr IH]. exists tr. rewrite IH.
           f_equal. f_equal. by rewrite (assoc_L (∪)), (comm_L (∪) _ {[_]}).
        -- destruct Hrow as (e & st' & Hrow).
           rewrite (bind_Raise _ _ _ _ _ Hrow). by eauto.
    + erewrite bind_Return by reflexivity.
      apply (IH ok P (emit _ st) Hk).
Qed.

(** ** Running a plan twice *)

Lemma ops_store_components (E : Env) (self : EVECredential) (ops : list RowOp)
    (s : Store) :
  ops_store E self ops s =
    mkStore (Credentials s) (chars_ops E self ops (Characters s))
            (corps_ops ops (Corporations s)) (alliances_ops ops (Alliances s))
            (duplicates_ops self ops (duplicates s)) (grants s).
Proof.
  revert s. induction ops as [|op ops IH]; intros s.
  - by destruct s.
  - unfold ops_store, chars_ops, corps_ops, alliances_ops, duplicates_ops in *.
    simpl. rewrite IH. by destruct op.
Qed.

Lemma overwrite_idemp {V} (f : gmap Z V -> gmap Z V) (m : gmap Z V) :
  overwrite f -> f (f m) = f m.
Proof.
  intros [delta Hf]. rewrite !Hf. rewrite (assoc_L (∪)).
  by rewrite (idemp_L (∪) delta).
Qed.

Lemma overwrite_id {V} : overwrite (fun m : gmap Z V => m).
Proof. exists ∅. intros m. by rewrite (left_id_L ∅ (∪)). Qed.

Lemma overwrite_insert {V} (k : Z) (v : V) : overwrite (insert k v).
Proof. exists {[ k := v ]}. intros m. apply insert_union_singleton_l. Qed.

Lemma overwrite_foldl {V A} (step : A -> gmap Z V -> gmap Z V) (l : list A) :
  (forall a, overwrite (step a)) ->
  overwrite (fun m => foldl (fun m a => step a m) m l).
Proof.
  intros Hstep. induction l as [|a l IH]; simpl.
  - apply overwrite_id.
  - destruct IH as [dl Hl]. destruct (Hstep a) as [da Ha].
    exists (dl ∪ da). intros m. by rewrite Hl, Ha, (assoc_L (∪)).
Qed.

Lemma corps_ops_idemp (ops : list RowOp) (m : gmap Z EVECorporation) :
  corps_ops ops (corps_ops ops m) = corps_ops ops m.
Proof.
  apply (overwrite_idemp (corps_ops ops)).
  apply (overwrite_foldl
           (fun op m => match op with
                        | OpMerge _ d => merged_corporations d m
                        | OpConflict _ => m
                        end)).
  intros [c|i d]; [apply overwrite_id | apply overwrite_insert].
Qed.

Lemma alliances_ops_idemp (ops : list RowOp) (m : gmap Z EVEAlliance) :
  alliances_ops ops (alliances_ops ops m) = alliances_ops ops m.
Proof.
  apply (overwrite_idemp (alliances_ops ops)).
  apply (overwrite_foldl
           (fun op m => match op with
                        | OpMerge _ d => merged_alliances d m
                        | OpConflict _ => m
                        end)).
  intros [c|i d]; [apply overwrite_id |].
  unfold merged_alliances. destruct (md_alliance d);
    [apply overwrite_insert | apply overwrite_id].
Qed.

Lemma duplicates_ops_union (self : EVECredential) (ops : list RowOp)
    (s : gset (option UserRef * option UserRef)) :
  duplicates_ops self ops s = duplicates_ops self ops ∅ ∪ s.
Proof.
  revert s. induction ops as [|op ops IH]; intros s.
  - unfold duplicates_ops. simpl. by rewrite (left_id_L ∅ (∪)).
  - unfold duplicates_ops in *. simpl. destruct op as [c|i d].
    + rewrite IH. rewrite (IH (_ ∪ ∅)). set_solver.
    + apply IH.
Qed.

Lemma duplicates_ops_idemp (self : EVECredential) (ops : list RowOp)
    (s : gset (option UserRef * option UserRef)) :
  duplicates_ops self ops (duplicates_ops self ops s) = duplicates_ops self ops s.
Proof.
  rewrite (duplicates_ops_union self ops (duplicates_ops self ops s)).
  rewrite (duplicates_ops_union self ops s). set_solver.
Qed.

Lemma append_credential_idemp (i : ObjectId) (l : list ObjectId) :
  append_credential i (append_credential i l) = append_credential i l.
Proof.
  unfold append_credential.
  destruct (bool_decide_reflect (i ∈ l)) as [Hin|Hnot].
  - by rewrite bool_decide_eq_true_2.
  - rewrite bool_decide_eq_true_2; [done|].
    apply elem_of_app. right. by apply list_elem_of_singleton.
Qed.

Lemma merged_character_appended (E : Env) (self : EVECredential) (j : Z)
    (d : MergeData) (l : list ObjectId) :
  merged_character E self j d (append_credential (cred_id self) l)
  = merged_character E self j d l.
Proof. unfold merged_character. by rewrite append_credential_idemp. Qed.

Lemma chars_ops_cons (E : Env) (self : EVECredential) (op : RowOp)
    (ops : list RowOp) (m : gmap Z EVECharacter) :
  chars_ops E self (op :: ops) m =
    chars_ops E self ops
      (match op with
       | OpMerge i d => merged_characters E self i d m
       | OpConflict _ => m
       end).
Proof. reflexivity. Qed.

(** The row of character [j] once the plan has run: the last merge of [j],
    over the credentials that were stored. *)
Lemma chars_ops_lookup (E : Env) (self : EVECredential) (ops : list RowOp)
    (m : gmap Z EVECharacter) (j : Z) :
  chars_ops E self ops m !! j =
    match last_merge ops j with
    | Some d => Some (merged_character E self j d (stored_credentials m j))
    | None => m !! j
    end.
Proof.
  revert m. induction ops as [|op ops IH]; intros m; [done|].
  rewrite chars_ops_cons, IH. simpl.
  destruct (last_merge ops j) as [d'|].
  - f_equal. destruct op as [c|i d]; [done|].
    unfold stored_credentials, merged_characters.
    destruct (decide (i = j)) as [->|Hne].
    + rewrite lookup_insert_eq. simpl. fold (stored_credentials m j).
      apply merged_character_appended.
    + by rewrite lookup_insert_ne.
  - destruct op as [c|i d]; [done|].
    unfold merged_characters.
    destruct (bool_decide_reflect (i = j)) as [->|Hne].
    + by rewrite lookup_insert_eq.
    + by rewrite lookup_insert_ne.
Qed.

Lemma last_merge_merged_ids (ops : list RowOp) (j : Z) (d : MergeData) :
  last_merge ops j = Some d -> j ∈ merged_ids ops.
Proof.
  induction ops as [|op ops IH]; [done|]. simpl.
  destruct (last_merge ops j) as [d'|].
  - intros H. specialize (IH H). destruct op; [done|].
    by apply elem_of_union_r.
  - destruct op as [c|i d0]; [done|].
    destruct (bool_decide_reflect (i = j)) as [->|]; [|done].
    intros _. apply elem_of_union_l. by apply elem_of_singleton.
Qed.

Lemma plan_rows_valid (E : Env) (self : EVECredential)
    (co : Z -> option EVECharacter) (rows : list Info) (ops : list RowOp) :
  plan_rows E self co rows = Some ops -> plan_valid co ops.
Proof.
  revert ops. induction rows as [|row rows IH]; intros ops; simpl.
  - intros [= <-]. constructor.
  - destruct (corporationName row); [|by apply IH].
    destruct (co (characterID row)) eqn:Hco.
    + destruct (plan_rows E self co rows) as [ops'|]; [|done].
      intros [= <-]. constructor; [done | by apply IH].
    + destruct (merge_plan E self row); [|done].
      destruct (plan_rows E self co rows) as [ops'|]; [|done].
      intros [= <-]. constructor; [done | by apply IH].
Qed.

Lemma plan_valid_ext (co co' : Z -> option EVECharacter) (ops : list RowOp) :
  (forall i, co i = co' i) -> plan_valid co ops -> plan_valid co' ops.
Proof.
  intros Hco Hv. unfold plan_valid in *. eapply Forall_impl; [exact Hv|].
  intros [c|i d]; [done|]. by rewrite Hco.
Qed.

(** A valid plan does not change which stored characters conflict. *)
Lemma conflict_owner_chars_ops (E : Env) (self : EVECredential) (ops : list RowOp)
    (m : gmap Z EVECharacter) (j : Z) :
  plan_valid (conflict_owner self m) ops ->
  conflict_owner self (chars_ops E self ops m) j = conflict_owner self m j.
Proof.
  revert m. induction ops as [|op ops IH]; intros m Hv; [done|].
  apply Forall_cons in Hv as [Hop Hv]. rewrite chars_ops_cons.
  destruct op as [c|i d]; [by apply IH|].
  rewrite IH.
  - by apply conflict_owner_merged.
  - eapply plan_valid_ext; [|exact Hv].
    intros k. symmetry. by apply conflict_owner_merged.
Qed.

Lemma attached_owned_chars_ops (E : Env) (self : EVECredential) (ops : list RowOp)
    (m : gmap Z EVECharacter) :
  attached_owned self m -> attached_owned self (chars_ops E self ops m).
Proof.
  intros Hm j c. rewrite chars_ops_lookup.
  destruct (last_merge ops j) as [d|]; [|by apply Hm].
  intros [= <-] _. unfold owner_conflict. simpl.
  destruct (owner self); [|done].
  by rewrite bool_decide_eq_false_2 by (by intros []).
Qed.

Lemma conflict_owner_detach_stale (self self' : EVECredential) (P : gset Z)
    (m : gmap Z EVECharacter) (j : Z) :
  cred_id self' = cred_id self ->
  attached_owned self m ->
  conflict_owner self (detach_stale self' P <$> m) j = conflict_owner self m j.
Proof.
  intros Hid Hm. unfold conflict_owner. rewrite lookup_fmap.
  destruct (m !! j) as [c|] eqn:Hc; simpl; [|done].
  unfold detach_stale.
  destruct (attached self' c) eqn:Hat; simpl; [|done].
  destruct (bool_decide (char_identifier c ∉ P)); [|done].
  assert (attached self c = true) as Hat'.
  { unfold attached in *. by rewrite <- Hid. }
  by rewrite (Hm _ _ Hc Hat').
Qed.

(** Running the plan again over the rows it wrote, stale rows detached,
    changes nothing. *)
Lemma chars_ops_absorb (E : Env) (self self' : EVECredential) (ops : list RowOp)
    (P : gset Z) (m : gmap Z EVECharacter) :
  merged_ids ops ⊆ P ->
  chars_ops E self ops (detach_stale self' P <$> chars_ops E self ops m)
  = detach_stale self' P <$> chars_ops E self ops m.
Proof.
  intros HP. apply map_eq. intros j.
  rewrite (chars_ops_lookup E self ops (_ <$> _)).
  destruct (last_merge ops j) as [d|] eqn:Hlast; [|done].
  unfold stored_credentials. rewrite !lookup_fmap, chars_ops_lookup, Hlast.
  simpl. unfold detach_stale at 2. simpl.
  rewrite (bool_decide_eq_false_2 (j ∉ P)).
  - rewrite andb_false_r. f_equal. unfold detach_stale. simpl.
    rewrite (bool_decide_eq_false_2 (j ∉ P)).
    + rewrite andb_false_r. simpl. fold (stored_credentials m j).
      apply merged_character_appended.
    + intros Hn. apply Hn, HP. by eapply last_merge_merged_ids.
  - intros Hn. apply Hn, HP. by eapply last_merge_merged_ids.
Qed.

(** ** What depends on the credential's key data only *)

Lemma key_data_inv (a b : EVECredential) :
  key_data a = key_data b ->
  a = set_modified (modified a) (set_violation (violation a) b).
Proof.
  destruct a, b. unfold key_data, set_violation, set_modified. simpl.
  by intros [= -> -> -> -> -> -> -> ->].
Qed.

Lemma plan_rows_set_modified (E : Env) (self : EVECredential) (t : datetime)
    (co : Z -> option EVECharacter) (rows : list Info) :
  plan_rows E (set_modified t self) co rows = plan_rows E self co rows.
Proof.
  induction rows as [|row rows IH]; [done|]. simpl. by rewrite IH.
Qed.

Lemma plan_rows_key_data (E : Env) (a b : EVECredential)
    (co : Z -> option EVECharacter) (rows : list Info) :
  key_data a = key_data b -> plan_rows E a co rows = plan_rows E b co rows.
Proof.
  intros H. rewrite (key_data_inv a b H).
  by rewrite plan_rows_set_modified, plan_rows_set_violation.
Qed.

Lemma ops_store_set_modified (E : Env) (self : EVECredential) (t : datetime)
    (ops : list RowOp) (s : Store) :
  ops_store E (set_modified t self) ops s = ops_store E self ops s.
Proof.
  revert s. induction ops as [|op ops IH]; intros s; [done|].
  unfold ops_store in *. simpl. rewrite IH. by destruct op.
Qed.

Lemma ops_store_key_data (E : Env) (a b : EVECredential) (ops : list RowOp)
    (s : Store) :
  key_data a = key_data b -> ops_store E a ops s = ops_store E b ops s.
Proof.
  intros H. rewrite (key_data_inv a b H).
  by rewrite ops_store_set_modified, ops_store_set_violation.
Qed.

Lemma conflict_owner_key_data (a b : EVECredential) (m : gmap Z EVECharacter)
    (j : Z) :
  key_data a = key_data b -> conflict_owner a m j = conflict_owner b m j.
Proof. intros H. by rewrite (key_data_inv a b H). Qed.

Lemma attached_owned_key_data (a b : EVECredential) (m : gmap Z EVECharacter) :
  key_data a = key_data b -> attached_owned a m -> attached_owned b m.
Proof. intros H. by rewrite (key_data_inv a b H). Qed.

Lemma kind_acceptable_key_data (E : Env) (a b : EVECredential) :
  key_data a = key_data b -> kind_acceptable E a = kind_acceptable E b.
Proof. intros H. by rewrite (key_data_inv a b H). Qed.

Lemma mask_key_data (a b : EVECredential) :
  key_data a = key_data b -> mask a = mask b.
Proof. intros H. by rewrite (key_data_inv a b H). Qed.

(** The verdict of a credential that is not in the "Character" state is a
    function of its key data, and is never "Character". *)
Lemma eval_policy_not_character (E : Env) (self : EVECredential) :
  violation self ≠ Some "Character" -> eval_policy E self ≠ Some "Character".
Proof.
  intros Hv. unfold eval_policy.
  destruct (py_int E (recommended_key_mask E)); [|done].
  rewrite bool_decide_eq_false_2 by done.
  destruct (negb _); [done|]. destruct (mask self); [|done].
  by destruct (has_access E k z).
Qed.

Lemma eval_policy_character (E : Env) (self : EVECredential) :
  violation self = Some "Character" -> eval_policy E self = Some "Character".
Proof.
  intros Hv. unfold eval_policy.
  destruct (py_int E (recommended_key_mask E)); [|done].
  by rewrite bool_decide_eq_true_2.
Qed.

Lemma eval_policy_stable (E : Env) (a b : EVECredential) :
  key_data a = key_data b ->
  violation a ≠ Some "Character" ->
  violation b = eval_policy E a ->
  py_int E (recommended_key_mask E) = None \/ is_Some (mask a) ->
  eval_policy E b = eval_policy E a.
Proof.
  intros Hkd Ha Hb Hcfg.
  pose proof (eval_policy_not_character E a Ha) as Hna.
  unfold eval_policy in *.
  destruct (py_int E (recommended_key_mask E)) as [rec_mask|]; [|done].
  destruct Hcfg as [|[m Hm]]; [done|].
  rewrite (bool_decide_eq_false_2 (violation a = _)) in * by done.
  rewrite (bool_decide_eq_false_2 (violation b = _)) by (by rewrite Hb).
  rewrite <- (kind_acceptable_key_data E a b Hkd).
  rewrite <- (mask_key_data a b Hkd), Hm. done.
Qed.

(** ** The revocation cascade, run again *)

Lemma char_has_verified_key_pure (ks : list ObjectId) (found : bool) (st : State) :
  char_has_verified_key ks found st
  = (verified_key (Credentials (db st)) ks found, st).
Proof.
  revert found. induction ks as [|k ks IH]; intros found; [done|].
  simpl. unfold credential_verified. run.
  destruct (Credentials (db st) !! k) as [c|]; simpl; [apply IH | done].
Qed.

Lemma verified_key_ext (c1 c2 : gmap Z EVECredential) (ks : list ObjectId)
    (found : bool) :
  (forall k, verified <$> (c1 !! k) = verified <$> (c2 !! k)) ->
  verified_key c1 ks found = verified_key c2 ks found.
Proof.
  intros Hv. revert found. induction ks as [|k ks IH]; intros found; [done|].
  simpl. pose proof (Hv k) as Hk. unfold ObjectId in *.
  destruct (c1 !! k) as [a|] eqn:H1; destruct (c2 !! k) as [b|] eqn:H2;
    rewrite ?H1, ?H2 in Hk; simpl in Hk; try discriminate; [|done].
  injection Hk as Hk. rewrite Hk. apply IH.
Qed.

Lemma revoke_unverified_run (c : EVECharacter) (st : State) :
  revoke_unverified c st =
    match verified_key (Credentials (db st)) (char_credentials c) false with
    | Return true => (Return tt, st)
    | Return false =>
        (Return tt,
         mkState (this st)
           (with_grants (filter (fun g => grant_character g ≠ char_identifier c))
              (db st))
           (trace st ++ [GrantsRemoved (char_identifier c)]))
    | Raise e => (Raise e, st)
    end.
Proof.
  unfold revoke_unverified. unfold bind at 1.
  rewrite char_has_verified_key_pure.
  by destruct (verified_key _ _ _) as [[]|].
Qed.

Lemma revoke_loop_shrinks (l : list EVECharacter) (st st' : State) :
  for_each revoke_unverified l st = (Return tt, st') ->
  Credentials (db st') = Credentials (db st) /\
  forall g, g ∈ grants (db st') -> g ∈ grants (db st).
Proof.
  revert st. induction l as [|c l IH]; intros st; simpl.
  - by intros [= <-].
  - intros H. apply bind_inv_Return in H as ([] & st1 & Hc & H).
    apply IH in H as [Hcr Hgr]. rewrite revoke_unverified_run in Hc.
    destruct (verified_key _ _ _) as [[]|]; try discriminate;
      injection Hc as <-; [done|].
    split; [done|]. intros g Hg. apply Hgr in Hg. simpl in Hg.
    by apply list_elem_of_filter in Hg as [_ Hg].
Qed.

Lemma filter_all {A} (P : A -> Prop) `{!forall x, Decision (P x)} (l : list A) :
  (forall x, x ∈ l -> P x) -> filter P l = l.
Proof.
  induction l as [|x l IH]; intros Hall; [done|].
  rewrite filter_cons, decide_True by (apply Hall; left).
  f_equal. apply IH. intros y Hy. apply Hall. by right.
Qed.

(** A cascade that ran through runs through again, and finds nothing left
    to revoke, on a state with the same verified flags and the grants the
    first run left. *)
Lemma revoke_loop_again (l : list EVECharacter) (stA stA' stB : State) :
  for_each revoke_unverified l stA = (Return tt, stA') ->
  (forall k, verified <$> (Credentials (db stB) !! k)
             = verified <$> (Credentials (db stA) !! k)) ->
  (forall g, g ∈ grants (db stB) -> g ∈ grants (db stA')) ->
  exists tr,
    for_each revoke_unverified l stB = (Return tt, mkState (this stB) (db stB) tr).
Proof.
  revert stA stB. induction l as [|c l IH]; intros stA stB; simpl.
  - intros _ _ _. exists (trace stB). unfold ret. by destruct stB.
  - intros H Hv Hg. apply bind_inv_Return in H as ([] & stA1 & Hc & H).
    pose proof (revoke_loop_shrinks _ _ _ H) as [Hcr1 Hgr1].
    rewrite revoke_unverified_run in Hc.
    pose proof (revoke_unverified_run c stB) as HcB.
    rewrite (verified_key_ext _ (Credentials (db stA)) _ _ Hv) in HcB.
    destruct (verified_key (Credentials (db stA)) (char_credentials c) false)
      as [[]|]; try discriminate; injection Hc as <-.
    + rewrite (bind_Return _ _ _ _ _ HcB). by apply (IH stA stB).
    + rewrite (bind_Return _ _ _ _ _ HcB).
      assert (filter (fun g => grant_character g ≠ char_identifier c)
                (grants (db stB)) = grants (db stB)) as Hsame.
      { apply filter_all. intros g Hin.
        apply Hg, Hgr1 in Hin. simpl in Hin.
        by apply list_elem_of_filter in Hin as [Hne _]. }
      match goal with
      | |- context [for_each revoke_unverified l ?s] =>
          destruct (IH _ s H) as [tr Htr]
      end.
      * simpl. intros k. by rewrite Hv.
      * simpl. rewrite Hsame. exact Hg.
      * exists tr. rewrite Htr. f_equal. f_equal. simpl.
        destruct (db stB). unfold with_grants. simpl in *. by rewrite Hsame.
Qed.

(** ** Stores a second pull starts from *)

Lemma ops_store_absorb (E : Env) (self self' : EVECredential) (ops : list RowOp)
    (P : gset Z) (s0 s1 : Store) :
  merged_ids ops ⊆ P ->
  Characters s1 = detach_stale self' P <$> chars_ops E self ops (Characters s0) ->
  Corporations s1 = corps_ops ops (Corporations s0) ->
  Alliances s1 = alliances_ops ops (Alliances s0) ->
  duplicates s1 = duplicates_ops self ops (duplicates s0) ->
  ops_store E self ops s1 = s1.
Proof.
  intros HP Hch Hco Hal Hdu. rewrite ops_store_components.
  rewrite Hch, Hco, Hal, Hdu.
  rewrite chars_ops_absorb, corps_ops_idemp, alliances_ops_idemp,
    duplicates_ops_idemp by done.
  rewrite <- Hch, <- Hco, <- Hal, <- Hdu. by destruct s1.
Qed.

Lemma after_key_info_again (E : Env) (result : KeyInfo) (e : option datetime)
    (st st' : State) :
  key_data (this st') = key_data (this (after_key_info E result e st)) ->
  this (after_key_info E result e st') = this st'.
Proof.
  unfold after_key_info.
  destruct (py_int E (recommended_key_mask E)); simpl;
    destruct (this st'), (this st); unfold key_data, with_key_info; simpl;
    by intros [= -> -> -> -> -> -> -> ->].
Qed.

Lemma detach_stale_idemp (a b : EVECredential) (P : gset Z) (c : EVECharacter) :
  cred_id a = cred_id b ->
  detach_stale a P (detach_stale b P c) = detach_stale b P c.
Proof.
  intros Hid. unfold detach_stale, attached. rewrite Hid.
  destruct (bool_decide (cred_id b ∈ char_credentials c)) eqn:Hat; simpl.
  - destruct (bool_decide (char_identifier c ∉ P)) eqn:HP; simpl.
    + by rewrite Hat, HP.
    + by rewrite Hat, HP.
  - by rewrite Hat.
Qed.

Lemma attached_owned_ids (a b : EVECredential) (m : gmap Z EVECharacter) :
  cred_id a = cred_id b -> owner a = owner b ->
  attached_owned a m -> attached_owned b m.
Proof.
  intros Hid Ho Hm i c Hc. specialize (Hm i c Hc).
  unfold attached, owner_conflict in *. by rewrite <- Hid, <- Ho.
Qed.

Lemma detach_stale_keyed (self : EVECredential) (P : gset Z)
    (m : gmap Z EVECharacter) :
  chars_keyed m -> chars_keyed (detach_stale self P <$> m).
Proof.
  intros Hk i c. rewrite lookup_fmap.
  destruct (m !! i) as [c0|] eqn:Hc; [|done]. simpl. intros [= <-].
  unfold detach_stale. destruct (_ && _); simpl; by apply Hk.
Qed.

Lemma ops_store_keyed (E : Env) (self : EVECredential) (ops : list RowOp)
    (s : Store) :
  store_keyed s -> store_keyed (ops_store E self ops s).
Proof.
  revert s. induction ops as [|op ops IH]; intros s Hk; [done|].
  unfold ops_store in *. simpl. apply IH.
  destruct op as [c|i d]; [done | by apply merged_store_keyed].
Qed.

(** The shape of a reconciliation that returned: the loop followed a plan,
    and the cascade ran through from the state lines 282-293 left. *)
Lemma reconcile_shape (E : Env) (now : datetime) (result : KeyInfo)
    (sta : State) (out1 : option EVECredential) (st1 : State) :
  store_keyed (db sta) ->
  py_int E (recommended_key_mask E) = None \/ is_Some (mask (this sta)) ->
  characters_row result ≠ [] ->
  reconcile_characters E now result sta = (Return out1, st1) ->
  exists ops tr5,
    plan_rows E (this sta) (conflict_owner (this sta) (Characters (db sta)))
      (characters_row result) = Some ops /\
    let P := merged_ids ops ∪ ∅ in
    let sb := if no_conflicts ops then this sta
              else set_violation (Some "Character") (this sta) in
    let s3 := if no_conflicts ops && bool_decide (violation sb = Some "Character")
              then set_violation None sb else sb in
    let s5 := set_modified now (set_violation (eval_policy E s3) s3) in
    let st5 :=
      mkState s5
        (with_Credentials (insert (cred_id s5) s5)
           (with_Characters (fmap (detach_stale s3 P))
              (ops_store E (this sta) ops (db sta))))
        tr5 in
    for_each revoke_unverified (characters_of s5 (db st5)) st5 = (Return tt, st1) /\
    out1 = Some (this st1).
Proof.
  intros Hk Hcfg Hrows Hrun.
  pose proof (pull_rows_cases E (characters_row result) true ∅ sta Hk) as Hloop.
  destruct (plan_rows E (this sta) (conflict_owner (this sta) (Characters (db sta)))
              (characters_row result)) as [ops|] eqn:Hplan.
  - destruct Hloop as [trb Hloop]. rewrite andb_true_l in Hloop.
    edestruct (reconcile_after_rows E now result sta) as [tr5 Hrec];
      [exact Hrows | exact Hloop | | |].
    + simpl. by apply ops_store_keyed.
    + simpl. destruct Hcfg as [|Hm]; [by left | right].
      by destruct (no_conflicts ops).
    + simpl in Hrec. rewrite Hrec in Hrun. clear Hrec.
      apply bind_inv_Return in Hrun as ([] & st1' & Hrev & Hret).
      injection Hret as <- <-.
      unfold revoke_grants in Hrev.
      apply bind_inv_Return in Hrev as (chars & st5x & Hchars & Hfor).
      injection Hchars as <- <-.
      exists ops, tr5. split; [done|]. simpl. split; [exact Hfor | done].
  - destruct Hloop as (e0 & st' & Hloop). unfold reconcile_characters in Hrun.
    destruct (characters_row result) eqn:Hr; [done|].
    rewrite (bind_Raise _ _ _ _ _ Hloop) in Hrun. discriminate.
Qed.

Lemma revoke_loop_store (l : list EVECharacter) (st st' : State) :
  for_each revoke_unverified l st = (Return tt, st') ->
  this st' = this st /\
  db st' = with_grants (fun _ => grants (db st')) (db st).
Proof.
  intros H. destruct (revoke_loop_frames l) as (Ft & Fc & Fch & Fr).
  pose proof (Ft _ _ _ H) as Ht. pose proof (Fc _ _ _ H) as Hc.
  pose proof (Fch _ _ _ H) as Hch. pose proof (Fr _ _ _ H) as (Hco & Hal & Hdu).
  unfold keeps_this, keeps_Credentials, keeps_Characters in *.
  split; [done|]. destruct (db st'), (db st). unfold with_grants.
  simpl in *. by subst.
Qed.

Lemma key_data_cleared (b : bool) (s : EVECredential) :
  key_data (if b then set_violation None s else s) = key_data s.
Proof. by destruct b. Qed.

Lemma key_data_conflicted (b : bool) (s : EVECredential) :
  key_data (if b then s else set_violation (Some "Character") s) = key_data s.
Proof. by destruct b. Qed.

Lemma characters_of_ext (a b : EVECredential) (s s' : Store) :
  cred_id a = cred_id b -> Characters s = Characters s' ->
  characters_of a s = characters_of b s'.
Proof. intros Hid Hch. unfold characters_of, attached. by rewrite Hid, Hch. Qed.

Lemma plan_rows_ext_named (E : Env) (self : EVECredential)
    (co co' : Z -> option EVECharacter) (rows : list Info) :
  (forall row, row ∈ rows -> is_Some (corporationName row) ->
               co (characterID row) = co' (characterID row)) ->
  plan_rows E self co rows = plan_rows E self co' rows.
Proof.
  induction rows as [|row rows IH]; intros Hco; [done|]. simpl.
  rewrite IH by (intros r Hr; apply Hco; by right).
  destruct (corporationName row) as [cn|] eqn:Hcn; [|done].
  rewrite (Hco row); [done | by left | by rewrite Hcn].
Qed.

Lemma conflict_owner_detach_stale_at (self self' : EVECredential) (P : gset Z)
    (m : gmap Z EVECharacter) (j : Z) :
  cred_id self' = cred_id self ->
  (forall c, m !! j = Some c -> attached self c = true ->
             owner_conflict self c = false) ->
  conflict_owner self (detach_stale self' P <$> m) j = conflict_owner self m j.
Proof.
  intros Hid Hm. unfold conflict_owner. rewrite lookup_fmap.
  destruct (m !! j) as [c|] eqn:Hc; simpl; [|done].
  specialize (Hm c eq_refl).
  unfold detach_stale.
  destruct (attached self' c) eqn:Hat; simpl; [|done].
  destruct (bool_decide (char_identifier c ∉ P)); [|done].
  assert (attached self c = true) as Hat'.
  { unfold attached in *. by rewrite <- Hid. }
  by rewrite (Hm Hat').
Qed.

Lemma reported_owned_chars_ops (E : Env) (self : EVECredential) (ops : list RowOp)
    (rows : list Info) (m : gmap Z EVECharacter) :
  reported_owned self rows m -> reported_owned self rows (chars_ops E self ops m).
Proof.
  intros Hm row c Hrow Hcn. rewrite chars_ops_lookup.
  destruct (last_merge ops (characterID row)) as [d|]; [|by apply Hm].
  intros [= <-] _. unfold owner_conflict. simpl.
  destruct (owner self); [|done].
  by rewrite bool_decide_eq_false_2 by (by intros []).
Qed.

Lemma reported_owned_ids (a b : EVECredential) (rows : list Info)
    (m : gmap Z EVECharacter) :
  cred_id a = cred_id b -> owner a = owner b ->
  reported_owned a rows m -> reported_owned b rows m.
Proof.
  intros Hid Ho Hm row c Hrow Hcn Hc. specialize (Hm row c Hrow Hcn Hc).
  unfold attached, owner_conflict in *. by rewrite <- Hid, <- Ho.
Qed.

Lemma reconcile_twice (E : Env) (now1 now2 : datetime) (result : KeyInfo)
    (sta : State) (out1 : option EVECredential) (st1 stc : State) :
  store_keyed (db sta) ->
  reported_owned (this sta) (characters_row result) (Characters (db sta)) ->
  py_int E (recommended_key_mask E) = None \/ is_Some (mask (this sta)) ->
  characters_row result ≠ [] ->
  reconcile_characters E now1 result sta = (Return out1, st1) ->
  this stc = this st1 ->
  db stc = db st1 ->
  exists out2 st2,
    reconcile_characters E now2 result stc = (Return out2, st2) /\
    forget_modified (db st2) = forget_modified (db st1) /\
    set_modified 0 (this st2) = set_modified 0 (this st1) /\
    set_modified 0 <$> out2 = set_modified 0 <$> out1.
Proof.
  intros Hk Hao Hcfg Hrows Hrun Hthisc Hdbc.
  destruct (reconcile_shape E now1 result sta out1 st1 Hk Hcfg Hrows Hrun)
    as (ops & tr5 & Hplan & Hfor & ->).
  simpl in Hfor.
  set (P := merged_ids ops ∪ ∅) in *.
  set (sb := if no_conflicts ops then this sta
             else set_violation (Some "Character") (this sta)) in *.
  set (s3 := if no_conflicts ops && bool_decide (violation sb = Some "Character")
             then set_violation None sb else sb) in *.
  set (s5 := set_modified now1 (set_violation (eval_policy E s3) s3)) in *.
  apply revoke_loop_store in Hfor as Hst1. destruct Hst1 as [Hthis1 Hdb1].
  simpl in Hthis1, Hdb1.
  assert (key_data s3 = key_data (this sta)) as Hkd3.
  { subst s3 sb. by rewrite key_data_cleared, key_data_conflicted. }
  assert (key_data s5 = key_data (this sta)) as Hkd5 by (by rewrite <- Hkd3).
  set (SA := ops_store E (this sta) ops (db sta)) in *.
  pose proof (ops_store_components E (this sta) ops (db sta)) as HSA.
  fold SA in HSA.
  assert (Characters (db st1)
          = detach_stale s3 P <$> chars_ops E (this sta) ops (Characters (db sta)))
    as Hch1 by (rewrite Hdb1; simpl; by rewrite HSA).
  assert (Corporations (db st1) = corps_ops ops (Corporations (db sta)))
    as Hco1 by (rewrite Hdb1; simpl; by rewrite HSA).
  assert (Alliances (db st1) = alliances_ops ops (Alliances (db sta)))
    as Hal1 by (rewrite Hdb1; simpl; by rewrite HSA).
  assert (duplicates (db st1)
          = duplicates_ops (this sta) ops (duplicates (db sta)))
    as Hdu1 by (rewrite Hdb1; simpl; by rewrite HSA).
  assert (Credentials (db st1) = <[cred_id s3 := s5]> (Credentials (db sta)))
    as Hcr1 by (rewrite Hdb1; simpl; by rewrite HSA).
  assert (cred_id s3 = cred_id (this sta)) as Hid3
    by (by apply key_data_cred_id).
  assert (store_keyed (db st1)) as Hk1.
  { destruct (ops_store_keyed E (this sta) ops (db sta) Hk) as (A & B & C).
    fold SA in A, B, C. rewrite Hdb1. split_and!; simpl; try done.
    by apply detach_stale_keyed. }
  assert (store_keyed (db stc)) as Hkc by (by rewrite Hdbc).
  assert (plan_rows E (this stc)
            (conflict_owner (this stc) (Characters (db stc)))
            (characters_row result) = Some ops) as Hplan2.
  { rewrite <- Hplan, Hthisc, Hthis1.
    rewrite (plan_rows_key_data E s5 (this sta)) by done.
    apply plan_rows_ext_named. intros row Hrow Hcn. rewrite Hdbc, Hch1.
    rewrite (conflict_owner_key_data s5 (this sta)) by done.
    rewrite conflict_owner_detach_stale_at;
      [| done
       | intros c Hc Hat;
         by apply (reported_owned_chars_ops E (this sta) ops _ _ Hao row c)].
    apply conflict_owner_chars_ops. by eapply plan_rows_valid. }
  pose proof (pull_rows_cases E (characters_row result) true ∅ stc Hkc) as Hloop2.
  rewrite Hplan2 in Hloop2. destruct Hloop2 as [trb2 Hloop2].
  rewrite andb_true_l in Hloop2. fold P in Hloop2.
  assert (ops_store E (this stc) ops (db stc) = db st1) as Habs.
  { rewrite Hthisc, Hthis1, (ops_store_key_data E s5 (this sta)) by done.
    rewrite Hdbc.
    by apply (ops_store_absorb E (this sta) s3 ops P (db sta) (db st1));
      [apply union_subseteq_l | ..]. }
  rewrite Habs in Hloop2.
  edestruct (reconcile_after_rows E now2 result stc) as [tr52 Hrec2];
    [exact Hrows | exact Hloop2 | simpl; apply Hk1 | |].
  { simpl. destruct Hcfg as [|Hm]; [by left | right].
    rewrite Hthisc, Hthis1. rewrite <- (mask_key_data _ _ Hkd5) in Hm.
    by destruct (no_conflicts ops). }
  simpl in Hrec2.
  set (sb2 := if no_conflicts ops then this stc
              else set_violation (Some "Character") (this stc)) in *.
  set (s32 := if no_conflicts ops && bool_decide (violation sb2 = Some "Character")
              then set_violation None sb2 else sb2) in *.
  set (s52 := set_modified now2 (set_violation (eval_policy E s32) s32)) in *.
  assert (key_data s32 = key_data (this sta)) as Hkd32.
  { subst s32 sb2.
    by rewrite key_data_cleared, key_data_conflicted, Hthisc, Hthis1. }
  assert (eval_policy E s32 = eval_policy E s3) as Hpol.
  { subst s32 sb2 s3 sb. rewrite Hthisc, Hthis1.
    destruct (no_conflicts ops) eqn:Hnc; simpl.
    - set (a := if bool_decide (violation (this sta) = Some "Character")
                then set_violation None (this sta) else this sta) in *.
      assert (violation a ≠ Some "Character") as Ha.
      { subst a. by destruct (bool_decide_reflect
                               (violation (this sta) = Some "Character")). }
      assert (violation s5 = eval_policy E a) as Hv5 by done.
      rewrite (bool_decide_eq_false_2 (violation s5 = _))
        by (rewrite Hv5; by apply eval_policy_not_character).
      apply eval_policy_stable; [by rewrite Hkd5 | done | done |].
      destruct Hcfg as [|Hm]; [by left | right].
      by rewrite (mask_key_data a (this sta)).
    - by rewrite !eval_policy_character. }
  assert (set_modified 0 s52 = set_modified 0 s5) as Hs5.
  { subst s52 s5. rewrite Hpol.
    rewrite (key_data_inv s32 (this sta) Hkd32), (key_data_inv s3 (this sta) Hkd3).
    done. }
  assert (cred_id s32 = cred_id s3) as Hid32
    by (rewrite Hid3; by apply key_data_cred_id).
  assert (cred_id s52 = cred_id s5) as Hid52 by exact Hid32.
  assert (detach_stale s32 P <$> Characters (db st1) = Characters (db st1))
    as Hch2.
  { rewrite Hch1, <- map_fmap_compose. apply map_fmap_ext.
    intros j c _. simpl. by apply detach_stale_idemp. }
  match type of Hrec2 with
  | _ = _ ?s => set (st52 := s) in *
  end.
  match type of Hfor with
  | for_each _ _ ?s = _ => set (st5 := s) in *
  end.
  assert (exists tr,
            for_each revoke_unverified (characters_of s52 (db st52)) st52
            = (Return tt, mkState s52 (db st52) tr)) as [tr2 Hfor2].
  { rewrite (characters_of_ext s52 s5 (db st52) (db st5)).
    - apply (revoke_loop_again _ st5 st1 st52 Hfor).
      + intros k. subst st52 st5. simpl. rewrite Hcr1, Hid32.
        rewrite insert_insert_eq.
        destruct (decide (cred_id s3 = k)) as [<-|Hne].
        * rewrite !lookup_insert_eq. simpl. f_equal.
          by rewrite (key_data_verified _ _ Hkd32), (key_data_verified _ _ Hkd3).
        * rewrite HSA. simpl. by rewrite !lookup_insert_ne.
      + intros g Hg. subst st52. simpl in Hg. exact Hg.
    - exact Hid52.
    - subst st52 st5. simpl. rewrite Hch2, Hdb1. done. }
  exists (Some s52), (mkState s52 (db st52) tr2). split_and!.
  - rewrite Hrec2.
    assert (revoke_grants st52 = (Return tt, mkState s52 (db st52) tr2)) as Hrev2.
    { unfold revoke_grants. erewrite bind_Return by reflexivity. exact Hfor2. }
    by rewrite (bind_Return _ _ _ _ _ Hrev2).
  - subst st52. simpl. unfold forget_modified.
    destruct (db st1) as [creds1 chars1 corps1 allis1 dups1 gr1] eqn:Hd.
    unfold with_Credentials, with_Characters. simpl in *.
    rewrite Hch2. f_equal.
    rewrite fmap_insert, Hs5, Hid32, Hcr1, fmap_insert.
    apply insert_insert_eq.
  - simpl. by rewrite Hthis1.
  - simpl. by rewrite Hthis1, Hs5.
Qed.

(** ** Deleting twice *)

Lemma remove_credential_idemp (i : ObjectId) (c : EVECharacter) :
  remove_credential i (remove_credential i c) = remove_credential i c.
Proof.
  unfold remove_credential. simpl. f_equal.
  rewrite list_filter_filter. apply list_filter_iff. tauto.
Qed.

Lemma attached_removed (self : EVECredential) (c : EVECharacter) :
  attached self (remove_credential (cred_id self) c) = false.
Proof.
  unfold attached. apply bool_decide_eq_false. simpl.
  intros Hin. by apply list_elem_of_filter in Hin as [Hne _].
Qed.

Lemma delete_twice (st st1 stB : State) :
  chars_keyed (Characters (db st)) ->
  delete st = (Return tt, st1) ->
  this stB = this st1 -> db stB = db st1 ->
  exists tr, delete stB = (Return tt, mkState (this stB) (db stB) tr).
Proof.
  intros Hk Hdel HthisB HdbB.
  destruct (delete_run st Hk) as [tr Hrun]. rewrite Hrun in Hdel.
  injection Hdel as <-. simpl in *.
  destruct (delete_run stB) as [trB HrunB].
  { rewrite HdbB. simpl. intros i c. rewrite !lookup_fmap.
    destruct (Characters (db st) !! i) as [c0|] eqn:Hc; [|done]. simpl.
    intros [= <-]. simpl. destruct (_ && _); simpl; by apply Hk. }
  exists trB. rewrite HrunB. f_equal. f_equal.
  rewrite HthisB, HdbB.
  destruct (db st) as [creds chars corps allis dups gr].
  unfold with_Characters, with_Credentials. simpl. f_equal.
  - apply delete_delete_eq.
  - rewrite <- !map_fmap_compose. apply map_fmap_ext. intros i c _. simpl.
    rewrite attached_removed. simpl. apply remove_credential_idemp.
Qed.

(** ** Pulling twice *)

Lemma pull_corporation (E : Env) (now : datetime) (st : State) :
  kind (this st) = "Corporation" ->
  pull E now st = (Return (Some (this st)), st).
Proof.
  intros Hkind. unfold pull, pull_corp. run.
  by rewrite bool_decide_eq_true_2.
Qed.

Lemma pull_result_Return (E : Env) (now : datetime) (result : KeyInfo)
    (st : State) (out : option EVECredential) (st' : State) :
  pull_result E now result st = (Return out, st') ->
  exists e,
    parse_expires E result = Return e /\
    (py_int E (recommended_key_mask E) = None \/
     is_Some (mask_of (key_type result) (accessMask result))).
Proof.
  intros Hrun. unfold pull_result in Hrun.
  destruct (parse_expires E result) as [e|ex] eqn:He.
  - exists e. split; [done|].
    rewrite (bind_Return _ _ _ _ _ (apply_key_info_run E st result e He)) in Hrun.
    destruct (py_int E (recommended_key_mask E)) as [rec_mask|] eqn:Hrec;
      [|by left].
    right.
    destruct (mask_of (key_type result) (accessMask result)) as [m|] eqn:Hm;
      [done|].
    exfalso. erewrite bind_Raise in Hrun; [discriminate|].
    unfold compute_verified, self_has_access. rewrite Hrec. run.
    unfold mask. simpl. rewrite Hm. reflexivity.
  - exfalso. erewrite bind_Raise in Hrun; [discriminate|].
    unfold apply_key_info. run. rewrite He. reflexivity.
Qed.

Lemma reconcile_characters_Return (E : Env) (now : datetime) (result : KeyInfo)
    (sta : State) (out1 : option EVECredential) (st1 : State) :
  store_keyed (db sta) ->
  py_int E (recommended_key_mask E) = None \/ is_Some (mask (this sta)) ->
  reconcile_characters E now result sta = (Return out1, st1) ->
  out1 = Some (this st1).
Proof.
  intros Hk Hcfg Hrun.
  destruct (characters_row result) as [|row rows] eqn:Hrows.
  - unfold reconcile_characters in Hrun. rewrite Hrows in Hrun.
    by injection Hrun as <- <-.
  - edestruct (reconcile_shape E now result sta) as (? & ? & _ & _ & Hout);
      [exact Hk | exact Hcfg | | exact Hrun | exact Hout].
    by rewrite Hrows.
Qed.

Lemma after_key_info_fields (E : Env) (result : KeyInfo) (e : option datetime)
    (st : State) :
  key (this (after_key_info E result e st)) = key (this st) /\
  code (this (after_key_info E result e st)) = code (this st) /\
  owner (this (after_key_info E result e st)) = owner (this st) /\
  kind (this (after_key_info E result e st)) = key_type result.
Proof.
  unfold after_key_info. by destruct (py_int E (recommended_key_mask E)).
Qed.

Lemma reconcile_characters_empty (E : Env) (now : datetime) (result : KeyInfo)
    (st : State) :
  characters_row result = [] ->
  reconcile_characters E now result st =
    (Return (Some (this st)),
     emit (Logged "error" "No characters returned for key %d?") st).
Proof. intros Hrows. unfold reconcile_characters. by rewrite Hrows. Qed.

Lemma pull_forbidden_run (E : Env) (now : datetime) (st st' : State) :
  kind (this st) ≠ "Corporation" ->
  APIKeyInfo E (key (this st)) (code (this st)) = Raise (HTTPError 403) ->
  delete (emit (Logged "debug" (key_disabled_message (this st))) st)
    = (Return tt, st') ->
  pull E now st = (Return None, st').
Proof.
  intros Hkind Hfetch Hdel.
  unfold pull. erewrite bind_Return by reflexivity.
  rewrite bool_decide_eq_false_2 by done. rewrite Hfetch.
  rewrite bool_decide_eq_true_2 by done.
  erewrite bind_Return by reflexivity.
  erewrite bind_Return by exact Hdel. reflexivity.
Qed.

Lemma pull_http_error_run (E : Env) (now : datetime) (st : State) (status : Z) :
  kind (this st) ≠ "Corporation" ->
  APIKeyInfo E (key (this st)) (code (this st)) = Raise (HTTPError status) ->
  status ≠ 403 ->
  pull E now st =
    (Return None, emit (Logged "exception" "Unable to call: APIKeyInfo(%d)") st).
Proof.
  intros Hkind Hfetch Hstatus.
  unfold pull. erewrite bind_Return by reflexivity.
  rewrite bool_decide_eq_false_2 by done. rewrite Hfetch.
  rewrite bool_decide_eq_false_2 by done. reflexivity.
Qed.

Lemma pull_raises (E : Env) (now : datetime) (st : State) (ex : exn) :
  kind (this st) ≠ "Corporation" ->
  APIKeyInfo E (key (this st)) (code (this st)) = Raise ex ->
  (forall status, ex ≠ HTTPError status) ->
  pull E now st = (Raise ex, st).
Proof.
  intros Hkind Hfetch Hex.
  unfold pull. erewrite bind_Return by reflexivity.
  rewrite bool_decide_eq_false_2 by done. rewrite Hfetch.
  destruct ex as [| | | |s|]; try reflexivity. by destruct (Hex s).
Qed.

(** C5 (amended): take a store whose collections are indexed by identifier,
    and a key such that no identity named by a row of its answer (a row
    that is not skipped) both carries the credential and belongs to another
    account.  If [pull] returns, then a second [pull] against the same
    remote answers returns as well, and it leaves the store as the first
    one left it but for the [modified] time of the stored credentials: the
    same identities with the same owners and credential lists, the same
    corporations and alliances, the same duplicate links and the same
    grants.  The in-memory credential and the returned value are those of
    the first call, again up to [modified].  Nothing is said here of the
    calls the second [pull] makes on the way: it can send the revocation
    notifications of the first one again. *)
Theorem pull_twice (E : Env) (now1 now2 : datetime) (st : State)
    (out1 : option EVECredential) (st1 : State) :
  store_keyed (db st) ->
  (forall result,
     APIKeyInfo E (key (this st)) (code (this st)) = Return result ->
     reported_owned (this st) (characters_row result) (Characters (db st))) ->
  pull E now1 st = (Return out1, st1) ->
  exists out2 st2,
    pull E now2 st1 = (Return out2, st2) /\
    forget_modified (db st2) = forget_modified (db st1) /\
    set_modified 0 (this st2) = set_modified 0 (this st1) /\
    set_modified 0 <$> out2 = set_modified 0 <$> out1.
Proof.
  intros Hk Hao Hrun.
  destruct (decide (kind (this st) = "Corporation")) as [Hkind|Hkind].
  { rewrite (pull_corporation E now1 st Hkind) in Hrun. injection Hrun as <- <-.
    exists (Some (this st)), st. by rewrite (pull_corporation E now2 st Hkind). }
  destruct (APIKeyInfo E (key (this st)) (code (this st))) as [result|ex] eqn:Hfetch.
  - rewrite (pull_fetched E now1 st result Hkind Hfetch) in Hrun.
    destruct (pull_result_Return E now1 result st out1 st1 Hrun) as (e & He & Hcfg).
    rewrite (pull_result_reconcile E now1 result e st He Hcfg) in Hrun.
    destruct (after_key_info_fields E result e st) as (Hkey & Hcode & Hown & Hkd).
    pose proof (after_key_info_cred_id E result e st) as Hid.
    destruct (after_key_info_this E result e st) as (_ & _ & Hdb).
    pose proof (after_key_info_mask E result e st) as Hmask.
    pose proof (reconcile_characters_keeps_key_data E now1 result _ _ _ Hrun) as Hkeep.
    unfold keeps_key_data in Hkeep.
    assert (py_int E (recommended_key_mask E) = None \/
            is_Some (mask (this (after_key_info E result e st)))) as Hcfg'
      by (by rewrite Hmask).
    assert (store_keyed (db (after_key_info E result e st))) as Hk'
      by (by rewrite Hdb).
    assert (out1 = Some (this st1)) as Hout.
    { eapply reconcile_characters_Return; [exact Hk' | exact Hcfg' | exact Hrun]. }
    assert (kind (this st1) = key_type result) as Hkind1.
    { rewrite (key_data_kind _ _ Hkeep). exact Hkd. }
    destruct (decide (key_type result = "Corporation")) as [Hcorp|Hcorp].
    { exists (Some (this st1)), st1.
      rewrite pull_corporation by (by rewrite Hkind1). by rewrite Hout. }
    assert (APIKeyInfo E (key (this st1)) (code (this st1)) = Return result)
      as Hfetch1.
    { assert (key (this st1) = key (this st)) as ->
        by (etrans; [exact (f_equal key Hkeep) | exact Hkey]).
      assert (code (this st1) = code (this st)) as ->
        by (etrans; [exact (f_equal code Hkeep) | exact Hcode]).
      exact Hfetch. }
    rewrite (pull_fetched E now2 st1 result) by (by rewrite ?Hkind1).
    rewrite (pull_result_reconcile E now2 result e st1 He Hcfg).
    pose proof (after_key_info_again E result e st st1 Hkeep) as Hthisc.
    destruct (after_key_info_this E result e st1) as (_ & _ & Hdbc).
    destruct (characters_row result) as [|row rows] eqn:Hrows.
    + rewrite (reconcile_characters_empty E now1 result _ Hrows) in Hrun.
      rewrite (reconcile_characters_empty E now2 result _ Hrows).
      injection Hrun as Ho Hs.
      eexists _, _. split; [reflexivity|]. simpl.
      rewrite Hdbc, Hthisc, Hout. done.
    + eapply (reconcile_twice E now1 now2 result (after_key_info E result e st));
        [exact Hk' | | exact Hcfg' | by rewrite Hrows | exact Hrun
        | exact Hthisc | exact Hdbc].
      rewrite Hdb.
      eapply reported_owned_ids; [ | | exact (Hao result eq_refl)]; by symmetry.
  - assert ((exists status, ex = HTTPError status) \/
            (forall status, ex ≠ HTTPError status)) as [[status ->]|Hne]
      by (destruct ex; eauto).
    + destruct (decide (status = 403)) as [->|Hstatus].
      * set (st0 := emit (Logged "debug" (key_disabled_message (this st))) st).
        destruct (delete_run st0 (proj1 Hk)) as [tr Hdel].
        rewrite (pull_forbidden_run E now1 st _ Hkind Hfetch Hdel) in Hrun.
        injection Hrun as <- <-.
        match type of Hdel with
        | delete st0 = (Return tt, ?s1) =>
            destruct (delete_twice st0 s1
                        (emit (Logged "debug" (key_disabled_message (this s1))) s1)
                        (proj1 Hk) Hdel eq_refl eq_refl) as [trB HdelB]
        end.
        eexists None, _. split.
        { apply pull_forbidden_run; [exact Hkind | exact Hfetch | exact HdelB]. }
        done.
      * rewrite (pull_http_error_run E now1 st status Hkind Hfetch Hstatus) in Hrun.
        injection Hrun as <- <-.
        eexists None, _. split.
        { apply (pull_http_error_run E now2 _ status);
            [exact Hkind | exact Hfetch | exact Hstatus]. }
        done.
    + by rewrite (pull_raises E now1 st ex Hkind Hfetch Hne) in Hrun.
Qed.

(** ** The statements on the scenarios *)

Lemma store_of_keyed (creds : list EVECredential) (chars : list EVECharacter) :
  store_keyed (store_of creds chars).
Proof.
  split_and!; simpl.
  - intros i c Hc. apply elem_of_list_to_map_2 in Hc.
    apply list_elem_of_In, in_map_iff in Hc as (c' & [= <- <-] & _). done.
  - intros i c Hc. by rewrite lookup_empty in Hc.
  - intros i c Hc. by rewrite lookup_empty in Hc.
Qed.

Lemma store_of_attached_owned (self : EVECredential) (creds : list EVECredential)
    (chars : list EVECharacter) :
  Forall (fun c => attached self c = true -> owner_conflict self c = false) chars ->
  attached_owned self (Characters (store_of creds chars)).
Proof.
  intros Hall i c Hc. simpl in Hc. apply elem_of_list_to_map_2 in Hc.
  apply list_elem_of_In, in_map_iff in Hc as (c' & [= <- <-] & Hin).
  rewrite Forall_forall in Hall. apply Hall. by apply list_elem_of_In.
Qed.

(** C5, as stated, fails, in two ways.  Character 77 carries the credential
    but belongs to another account: the first pull flags the conflict and
    detaches the character; the second one, on the same remote answer,
    finds it unowned, hands it to the credential's owner, stores its
    corporation and clears the violation.  And where the stored state does
    come out the same, side effects still recur: for a credential that is
    not verified, each pull sends the revocation notification for
    character 77 again. *)
Lemma pull_twice_counterexample :
  (pull c5_env 1 c5_state).1
    = Return (Some (this (pull c5_env 1 c5_state).2)) /\
  (pull c5_env 2 (pull c5_env 1 c5_state).2).1
    = Return (Some (this (pull c5_env 2 (pull c5_env 1 c5_state).2).2)) /\
  char_owner <$> (Characters (db (pull c5_env 1 c5_state).2) !! 77) = Some None /\
  char_owner <$>
    (Characters (db (pull c5_env 2 (pull c5_env 1 c5_state).2).2) !! 77)
    = Some (Some 20) /\
  violation <$> (Credentials (db (pull c5_env 1 c5_state).2) !! 2)
    = Some (Some "Character") /\
  violation <$>
    (Credentials (db (pull c5_env 2 (pull c5_env 1 c5_state).2).2) !! 2)
    = Some None /\
  Corporations (db (pull c5_env 1 c5_state).2) !! 9 = None /\
  Corporations (db (pull c5_env 2 (pull c5_env 1 c5_state).2).2) !! 9
    = Some (mkCorporation 9 "Corp" None) /\
  forget_modified (db (pull c5_env 2 (pull c5_env 1 c5_state).2).2)
    ≠ forget_modified (db (pull c5_env 1 c5_state).2) /\
  revocations (trace (pull c5_strict_env 1 c2_state).2) = [77] /\
  revocations (trace (pull c5_strict_env 2 (pull c5_strict_env 1 c2_state).2).2)
    = [77; 77].
Proof. split_and!; by vm_compute. Qed.

Lemma pull_http_error_unchanged_witness :
  kind (this c8_state) ≠ "Corporation" /\
  APIKeyInfo c7_env (key (this c8_state)) (code (this c8_state))
    = Raise (HTTPError 500) /\
  500 ≠ 403 /\
  pull c7_env 1 c8_state =
    (Return None,
     mkState (this c8_state) (db c8_state)
             (trace c8_state ++ [Logged "exception" "Unable to call: APIKeyInfo(%d)"])).
Proof.
  assert (kind (this c8_state) ≠ "Corporation") as H1 by (by vm_compute).
  assert (APIKeyInfo c7_env (key (this c8_state)) (code (this c8_state))
            = Raise (HTTPError 500)) as H2 by reflexivity.
  assert (500 ≠ 403) as H3 by lia.
  split_and!; [exact H1 | exact H2 | exact H3 |].
  exact (pull_http_error_unchanged c7_env 1 c8_state 500 H1 H2 H3).
Defined.

Lemma pull_character_conflict_witness :
  Characters (db c5_state) !! characterID row_77 = Some (char_77 (Some 10) [2]) /\
  char_owner (char_77 (Some 10) [2]) = Some 10 /\
  owner (this c5_state) ≠ Some 10 /\
  exists st',
    pull_character c5_env row_77 c5_state = (Return None, st') /\
    violation (this st') = Some "Character" /\
    (Some 20, Some 10) ∈ duplicates (db st') /\
    (Some 10, Some 20) ∈ duplicates (db st') /\
    Characters (db st') !! 77 = Some (char_77 (Some 10) [2]).
Proof.
  assert (Characters (db c5_state) !! characterID row_77
            = Some (char_77 (Some 10) [2])) as H1 by (by vm_compute).
  assert (char_owner (char_77 (Some 10) [2]) = Some 10) as H2 by reflexivity.
  assert (owner (this c5_state) ≠ Some 10) as H3 by (by vm_compute).
  split_and!; [exact H1 | exact H2 | exact H3 |].
  destruct (pull_character_conflict c5_env row_77 c5_state _ 10 H1 H2 H3)
    as (st' & Hrun & Hthis & Hd1 & Hd2 & _ & Hc & _).
  exists st'. split_and!; [exact Hrun | by rewrite Hthis | exact Hd1 | exact Hd2 | exact Hc].
Defined.

Lemma pull_character_rollback_witness :
  character_view c8_env (this c6_state) row_77 = Raise RemoteError /\
  Characters (db c6_state) !! characterID row_77 = None /\
  exists st',
    pull_character c8_env row_77 c6_state = (Raise RemoteError, st') /\
    db st' = db c6_state /\
    Characters (db st') !! 77 = None.
Proof.
  assert (character_view c8_env (this c6_state) row_77 = Raise RemoteError) as H1
    by (by vm_compute).
  assert (Characters (db c6_state) !! characterID row_77 = None) as H2
    by (by vm_compute).
  split_and!; [exact H1 | exact H2 |].
  destruct (proj1 (pull_character_rollback c8_env row_77 c6_state RemoteError H1) H2)
    as (st' & Hrun & Hdb & Hc & _).
  exists st'. split_and!; [exact Hrun | exact Hdb | exact Hc].
Defined.




Lemma get_membership_alliance_name_witness :
  allianceID c9_info = Some 5 /\ 5 ≠ 0 /\
  corporationID c9_info = Some 9 /\
  (info_corporation c9_info = None /\ corporationName c9_info = Some "Corp") /\
  exists corp alli st',
    get_membership c9_info c9_state = (Return (corp, Some alli), st') /\
    alliance_name alli = Some "BRAVE" /\
    Alliances (db st') = <[5 := alli]> (Alliances (db c9_state)).
Proof.
  assert (allianceID c9_info = Some 5) as H1 by reflexivity.
  assert (5 ≠ 0) as H2 by lia.
  assert (corporationID c9_info = Some 9) as H3 by reflexivity.
  assert (info_corporation c9_info = None /\ corporationName c9_info = Some "Corp")
    as H4 by (split; reflexivity).
  split_and!;
    [exact H1 | exact H2 | exact H3 | exact (proj1 H4) | exact (proj2 H4) |].
  pose proof (get_membership_alliance_name c9_info c9_state 5 9 "Corp" H1 H2 H3
                (or_intror H4)) as H.
  cbv zeta in H. destruct H as (corp & alli & st' & Hrun & Hname & Hcase).
  exists corp, alli, st'. split_and!; [exact Hrun | exact Hname |].
  exact (proj1 (proj2 Hcase)).
Defined.

Lemma pull_forbidden_deletes_witness :
  chars_keyed (Characters (db c2_state)) /\
  kind (this c2_state) ≠ "Corporation" /\
  APIKeyInfo c2_env (key (this c2_state)) (code (this c2_state))
    = Raise (HTTPError 403) /\
  exists st' c',
    pull c2_env 1 c2_state = (Return None, st') /\
    Credentials (db st') !! 2 = None /\
    Characters (db st') !! 77 = Some c' /\
    (2 ∉ char_credentials c') /\
    char_owner c' = None.
Proof.
  assert (chars_keyed (Characters (db c2_state))) as H1
    by exact (proj1 (store_of_keyed _ _)).
  assert (kind (this c2_state) ≠ "Corporation") as H2 by (by vm_compute).
  assert (APIKeyInfo c2_env (key (this c2_state)) (code (this c2_state))
            = Raise (HTTPError 403)) as H3 by reflexivity.
  split_and!; [exact H1 | exact H2 | exact H3 |].
  destruct (pull_forbidden_deletes c2_env 1 c2_state H1 H2 H3)
    as (st' & Hrun & _ & Hgone & Hchars & _).
  destruct (Hchars 77 (char_77 (Some 20) [2])) as (c' & Hc & Hnot & _ & Hown & _);
    [by vm_compute|].
  exists st', c'. split_and!; [exact Hrun | exact Hgone | exact Hc | exact Hnot |].
  apply Hown; [by vm_compute|].
  intros k Hk. by apply list_elem_of_singleton in Hk.
Defined.

Lemma pull_twice_witness :
  store_keyed (db c2_state) /\
  (forall result,
     APIKeyInfo c5_env (key (this c2_state)) (code (this c2_state)) = Return result ->
     reported_owned (this c2_state) (characters_row result)
       (Characters (db c2_state))) /\
  pull c5_env 1 c2_state
    = (Return (Some (this (pull c5_env 1 c2_state).2)), (pull c5_env 1 c2_state).2) /\
  exists out2 st2,
    pull c5_env 2 (pull c5_env 1 c2_state).2 = (Return out2, st2) /\
    forget_modified (db st2) = forget_modified (db (pull c5_env 1 c2_state).2) /\
    set_modified 0 (this st2) = set_modified 0 (this (pull c5_env 1 c2_state).2).
Proof.
  assert (store_keyed (db c2_state)) as H1 by exact (store_of_keyed _ _).
  assert (forall result,
            APIKeyInfo c5_env (key (this c2_state)) (code (this c2_state))
              = Return result ->
            reported_owned (this c2_state) (characters_row result)
              (Characters (db c2_state))) as H2.
  { intros result _ row c _ _ Hc Hat.
    refine (store_of_attached_owned (this c2_state) [cred_b "Character" None]
              [char_77 (Some 20) [2]] _ _ _ Hc Hat).
    repeat constructor. }
  assert (pull c5_env 1 c2_state
            = (Return (Some (this (pull c5_env 1 c2_state).2)),
               (pull c5_env 1 c2_state).2)) as H3 by (by vm_compute).
  split_and!; [exact H1 | exact H2 | exact H3 |].
  destruct (pull_twice c5_env 1 2 c2_state _ _ H1 H2 H3)
    as (out2 & st2 & Hrun & Hdb & Hthis & _).
  exists out2, st2. split_and!; [exact Hrun | exact Hdb | exact Hthis].
Defined.

(** ** Further properties of [pull] *)

(** X1: a credential of kind "Corporation" is never refreshed: [pull]
    returns the in-memory record as it is and touches nothing, whatever the
    API would have answered for the key (a refusal with status 403
    included: such a key is never deleted). *)
Theorem pull_corporation_key_untouched (E : Env) (now : datetime) (st : State) :
  kind (this st) = "Corporation" ->
  pull E now st = (Return (Some (this st)), st) /\
  forall E', pull E' now st = pull E now st.
Proof.
  intros Hkind. split; [by apply pull_corporation|].
  intros E'. by rewrite !pull_corporation.
Qed.

(** X2: only [HTTPError] is caught around the key-info call.  Any other
    exception of the call leaves [pull] as it was raised: no field of the
    credential is set, nothing is stored or deleted, nothing is logged. *)
Theorem pull_unexpected_error_propagates (E : Env) (now : datetime) (st : State)
    (ex : exn) :
  kind (this st) ≠ "Corporation" ->
  APIKeyInfo E (key (this st)) (code (this st)) = Raise ex ->
  (forall status, ex ≠ HTTPError status) ->
  pull E now st = (Raise ex, st).
Proof. apply pull_raises. Qed.

(** X3: the expiry is parsed outside every [try] (line 249).  When the
    answer carries a non-empty expiry that [strptime] cannot read, [pull]
    raises ValueError: mask and kind of the in-memory record have been
    overwritten by then, expires and verified have not, and nothing was
    stored or logged. *)
Theorem pull_bad_expires_raises (E : Env) (now : datetime) (st : State)
    (result : KeyInfo) (s : string) :
  kind (this st) ≠ "Corporation" ->
  APIKeyInfo E (key (this st)) (code (this st)) = Return result ->
  key_expires result = Some s -> s ≠ "" -> strptime E s = None ->
  pull E now st =
    (Raise ValueError,
     mkState (set_kind (key_type result) (set_mask (accessMask result) (this st)))
             (db st) (trace st)).
Proof.
  intros Hkind Hfetch Hexp Hne Hparse.
  rewrite (pull_fetched E now st result Hkind Hfetch).
  unfold pull_result, apply_key_info, parse_expires. rewrite Hexp.
  rewrite bool_decide_eq_true_2 by done. rewrite Hparse. reflexivity.
Qed.

(** X4: when the configured recommended mask is an integer and the API
    reports a key type that is none of "Account", "Character" and
    "Corporation", the [mask] property answers None and line 258 raises
    AttributeError, which the handler for ValueError does not catch:
    [pull] raises it with mask, kind and expires already overwritten in
    memory, verified untouched, and the store as it was. *)
Theorem pull_unknown_kind_raises (E : Env) (now : datetime) (st : State)
    (result : KeyInfo) (e : option datetime) (rec_mask : Z) :
  kind (this st) ≠ "Corporation" ->
  APIKeyInfo E (key (this st)) (code (this st)) = Return result ->
  parse_expires E result = Return e ->
  py_int E (recommended_key_mask E) = Some rec_mask ->
  key_type result ≠ "Account" -> key_type result ≠ "Character" ->
  key_type result ≠ "Corporation" ->
  pull E now st =
    (Raise AttributeError,
     mkState (with_key_info result e (this st)) (db st)
             (trace st ++ [Logged "info" "Incorrect key type %s for key %s."])).
Proof.
  intros Hkind Hfetch He Hrec Ha Hc Hco.
  rewrite (pull_fetched E now st result Hkind Hfetch).
  unfold pull_result.
  rewrite (bind_Return _ _ _ _ _ (apply_key_info_run E st result e He)).
  erewrite bind_Raise; [reflexivity|].
  unfold compute_verified, self_has_access. rewrite Hrec. run.
  unfold mask, mask_of. simpl.
  by rewrite !bool_decide_eq_false_2.
Qed.

Lemma pull_rows_keeps_Credentials (E : Env) (rows : list Info) (ok : bool)
    (P : gset Z) :
  respects keeps_Credentials (pull_rows E rows ok P).
Proof.
  revert ok P. induction rows as [|row rows IH]; intros ok P; simpl.
  - frame.
  - destruct (corporationName row).
    + apply respects_bind; [apply _ | frame |].
      intros [c|]; apply IH.
    + apply respects_bind; [apply _ | frame | intros _; apply IH].
Qed.

Lemma pull_rows_keeps_grants (E : Env) (rows : list Info) (ok : bool)
    (P : gset Z) :
  respects keeps_grants (pull_rows E rows ok P).
Proof.
  revert ok P. induction rows as [|row rows IH]; intros ok P; simpl.
  - frame.
  - destruct (corporationName row).
    + apply respects_bind; [apply _ | frame |].
      intros [c|]; apply IH.
    + apply respects_bind; [apply _ | frame | intros _; apply IH].
Qed.

(** X5: the loop over the reported rows has no handler around it.  When
    merging a row raises, [pull] raises the same exception from the state
    the loop had reached: lines 282-303 do not run, so the credential is
    not saved (the Credentials collection is the one before the call, and
    the refreshed mask, kind, expires and verified exist in memory only)
    and no grant is removed. *)
Theorem pull_row_failure_aborts (E : Env) (now : datetime) (st : State)
    (result : KeyInfo) (e : option datetime) (ex : exn) (st2 : State) :
  kind (this st) ≠ "Corporation" ->
  APIKeyInfo E (key (this st)) (code (this st)) = Return result ->
  parse_expires E result = Return e ->
  py_int E (recommended_key_mask E) = None \/
    is_Some (mask_of (key_type result) (accessMask result)) ->
  pull_rows E (characters_row result) true ∅ (after_key_info E result e st)
    = (Raise ex, st2) ->
  pull E now st = (Raise ex, st2) /\
  Credentials (db st2) = Credentials (db st) /\
  grants (db st2) = grants (db st) /\
  key_data (this st2) = key_data (this (after_key_info E result e st)).
Proof.
  intros Hkind Hfetch He Hcfg Hrows.
  destruct (after_key_info_this E result e st) as (_ & _ & Hdb).
  split_and!.
  - rewrite (pull_fetched E now st result Hkind Hfetch).
    rewrite (pull_result_reconcile E now result e st He Hcfg).
    unfold reconcile_characters.
    destruct (characters_row result) as [|row rows]; [discriminate|].
    by erewrite bind_Raise by exact Hrows.
  - rewrite <- Hdb. exact (pull_rows_keeps_Credentials E _ _ _ _ _ _ Hrows).
  - rewrite <- Hdb. exact (pull_rows_keeps_grants E _ _ _ _ _ _ Hrows).
  - exact (pull_rows_keeps_key_data E _ _ _ _ _ _ Hrows).
Qed.

Lemma pull_reconciled (E : Env) (now : datetime) (st : State) (result : KeyInfo)
    (out : option EVECredential) (st' : State) :
  store_keyed (db st) ->
  kind (this st) ≠ "Corporation" ->
  APIKeyInfo E (key (this st)) (code (this st)) = Return result ->
  characters_row result ≠ [] ->
  pull E now st = (Return out, st') ->
  exists e ops tr5,
    let sta := after_key_info E result e st in
    plan_rows E (this sta) (conflict_owner (this sta) (Characters (db sta)))
      (characters_row result) = Some ops /\
    let P := merged_ids ops ∪ ∅ in
    let sb := if no_conflicts ops then this sta
              else set_violation (Some "Character") (this sta) in
    let s3 := if no_conflicts ops && bool_decide (violation sb = Some "Character")
              then set_violation None sb else sb in
    let s5 := set_modified now (set_violation (eval_policy E s3) s3) in
    let st5 :=
      mkState s5
        (with_Credentials (insert (cred_id s5) s5)
           (with_Characters (fmap (detach_stale s3 P))
              (ops_store E (this sta) ops (db sta))))
        tr5 in
    db sta = db st /\
    for_each revoke_unverified (characters_of s5 (db st5)) st5 = (Return tt, st') /\
    out = Some (this st') /\
    this st' = s5 /\
    db st' = with_grants (fun _ => grants (db st')) (db st5).
Proof.
  intros Hk Hkind Hfetch Hrows Hrun.
  rewrite (pull_fetched E now st result Hkind Hfetch) in Hrun.
  destruct (pull_result_Return E now result st out st' Hrun) as (e & He & Hcfg).
  rewrite (pull_result_reconcile E now result e st He Hcfg) in Hrun.
  destruct (after_key_info_this E result e st) as (_ & _ & Hdb).
  destruct (reconcile_shape E now result (after_key_info E result e st) out st')
    as (ops & tr5 & Hplan & Hfor & Hout); [by rewrite Hdb | | done | done |].
  { by rewrite after_key_info_mask. }
  exists e, ops, tr5. cbv zeta in *.
  destruct (revoke_loop_store _ _ _ Hfor) as [Hthis Hdb'].
  split_and!; done.
Qed.

Lemma reconciled_fields (E : Env) (now : datetime) (s : EVECredential)
    (b1 b2 : bool) :
  let sb := if b1 then s else set_violation (Some "Character") s in
  let s3 := if b2 then set_violation None sb else sb in
  let s5 := set_modified now (set_violation (eval_policy E s3) s3) in
  cred_id s5 = cred_id s /\ _mask s5 = _mask s /\ kind s5 = kind s /\
  modified s5 = now /\ verified s5 = verified s /\ owner s5 = owner s /\
  violation s5 = eval_policy E s3.
Proof. by destruct b1, b2. Qed.

(** X6: for a key that reports at least one row, a [pull] that returns has
    saved the credential and hands back what it saved: the returned value
    is the in-memory record, the Credentials collection holds that very
    record under the credential's id, its [modified] is the time of the
    call, and its mask and kind are those the API reported. *)
Theorem pull_returns_saved_record (E : Env) (now : datetime) (st : State)
    (result : KeyInfo) (out : option EVECredential) (st' : State) :
  store_keyed (db st) ->
  kind (this st) ≠ "Corporation" ->
  APIKeyInfo E (key (this st)) (code (this st)) = Return result ->
  characters_row result ≠ [] ->
  pull E now st = (Return out, st') ->
  out = Some (this st') /\
  Credentials (db st') !! cred_id (this st) = Some (this st') /\
  cred_id (this st') = cred_id (this st) /\
  modified (this st') = now /\
  _mask (this st') = accessMask result /\
  kind (this st') = key_type result.
Proof.
  intros Hk Hkind Hfetch Hrows Hrun.
  destruct (pull_reconciled E now st result out st' Hk Hkind Hfetch Hrows Hrun)
    as (e & ops & tr5 & _ & _ & _ & Hout & Hthis & Hdb').
  cbv zeta in *.
  pose proof (after_key_info_cred_id E result e st) as Hid.
  destruct (after_key_info_fields E result e st) as (_ & _ & _ & Hkd).
  assert (_mask (this (after_key_info E result e st)) = accessMask result) as Hm.
  { unfold after_key_info. by destruct (py_int E (recommended_key_mask E)). }
  match type of Hthis with
  | _ = set_modified now (set_violation (eval_policy E (if ?b2 then _ else _)) _) =>
      pose proof (reconciled_fields E now (this (after_key_info E result e st))
                    (no_conflicts ops) b2) as HF
  end.
  cbv zeta in HF. rewrite <- Hthis in HF.
  destruct HF as (Hid5 & Hm5 & Hk5 & Hmod5 & _).
  split; [exact Hout|]. split_and!; try congruence.
  rewrite <- Hid, <- Hid5, Hdb', Hthis.
  exact (lookup_insert_eq _ _ _).
Qed.

Lemma plan_rows_conflict (E : Env) (self : EVECredential)
    (co : Z -> option EVECharacter) (rows : list Info) (ops : list RowOp)
    (row : Info) (c : EVECharacter) :
  plan_rows E self co rows = Some ops ->
  row ∈ rows -> is_Some (corporationName row) ->
  co (characterID row) = Some c ->
  OpConflict c ∈ ops.
Proof.
  revert ops. induction rows as [|r rows IH]; intros ops Hplan Hin Hcn Hco.
  - by apply elem_of_nil in Hin.
  - simpl in Hplan. apply elem_of_cons in Hin as [<-|Hin].
    + destruct Hcn as [cn Hcn]. rewrite Hcn, Hco in Hplan.
      destruct (plan_rows E self co rows) as [ops'|]; [|done].
      injection Hplan as <-. by left.
    + destruct (corporationName r); [|by apply IH].
      destruct (co (characterID r)).
      * destruct (plan_rows E self co rows) as [ops'|]; [|done].
        injection Hplan as <-. right. by apply IH.
      * destruct (merge_plan E self r); [|done].
        destruct (plan_rows E self co rows) as [ops'|]; [|done].
        injection Hplan as <-. right. by apply IH.
Qed.

Lemma no_conflicts_false (ops : list RowOp) (c : EVECharacter) :
  OpConflict c ∈ ops -> no_conflicts ops = false.
Proof.
  induction ops as [|op ops IH]; intros Hin.
  - by apply elem_of_nil in Hin.
  - apply elem_of_cons in Hin as [<-|Hin]; [done|].
    unfold no_conflicts in *. simpl. rewrite IH by done. apply andb_false_r.
Qed.

Lemma duplicates_ops_conflict (self : EVECredential) (ops : list RowOp)
    (s : gset (option UserRef * option UserRef)) (c : EVECharacter) :
  OpConflict c ∈ ops ->
  (owner self, char_owner c) ∈ duplicates_ops self ops s /\
  (char_owner c, owner self) ∈ duplicates_ops self ops s.
Proof.
  revert s. induction ops as [|op ops IH]; intros s Hin.
  - by apply elem_of_nil in Hin.
  - apply elem_of_cons in Hin as [<-|Hin].
    + change (duplicates_ops self (OpConflict c :: ops) s)
        with (duplicates_ops self ops
                ({[ (owner self, char_owner c); (char_owner c, owner self) ]} ∪ s)).
      rewrite duplicates_ops_union. split; set_solver.
    + destruct op as [c'|i d].
      * change (duplicates_ops self (OpConflict c' :: ops) s)
          with (duplicates_ops self ops
                  ({[ (owner self, char_owner c'); (char_owner c', owner self) ]} ∪ s)).
        by apply IH.
      * change (duplicates_ops self (OpMerge i d :: ops) s)
          with (duplicates_ops self ops s).
        by apply IH.
Qed.

(** X7: a conflict found anywhere in the reported rows marks the whole
    pull.  When a row that is not skipped names a stored identity owned by
    another account and [pull] returns, the credential it saved carries the
    violation "Character", whatever its kind and mask are, and the two
    accounts are linked as duplicates in both directions. *)
Theorem pull_conflict_flags_credential (E : Env) (now : datetime) (st : State)
    (result : KeyInfo) (row : Info) (c : EVECharacter)
    (out : option EVECredential) (st' : State) :
  store_keyed (db st) ->
  kind (this st) ≠ "Corporation" ->
  APIKeyInfo E (key (this st)) (code (this st)) = Return result ->
  row ∈ characters_row result ->
  is_Some (corporationName row) ->
  Characters (db st) !! characterID row = Some c ->
  owner_conflict (this st) c = true ->
  pull E now st = (Return out, st') ->
  violation (this st') = Some "Character" /\
  (violation <$> Credentials (db st') !! cred_id (this st))
    = Some (Some "Character") /\
  (owner (this st), char_owner c) ∈ duplicates (db st') /\
  (char_owner c, owner (this st)) ∈ duplicates (db st').
Proof.
  intros Hk Hkind Hfetch Hin Hcn Hc Hconf Hrun.
  assert (characters_row result ≠ []) as Hrows.
  { intros Hnil. rewrite Hnil in Hin. by apply elem_of_nil in Hin. }
  destruct (pull_reconciled E now st result out st' Hk Hkind Hfetch Hrows Hrun)
    as (e & ops & tr5 & Hplan & Hdb & _ & _ & Hthis & Hdb').
  cbv zeta in *.
  pose proof (after_key_info_cred_id E result e st) as Hid.
  destruct (after_key_info_fields E result e st) as (_ & _ & Hown & _).
  assert (OpConflict c ∈ ops) as Hop.
  { eapply plan_rows_conflict; [exact Hplan | exact Hin | exact Hcn |].
    unfold conflict_owner. rewrite Hdb, Hc.
    unfold owner_conflict in *. rewrite Hown. by rewrite Hconf. }
  rewrite (no_conflicts_false ops c Hop) in Hthis, Hdb'. simpl in Hthis.
  assert (violation (this st') = Some "Character") as Hv.
  { rewrite Hthis. simpl. by apply eval_policy_character. }
  split; [exact Hv|]. split_and!.
  - rewrite Hdb'. simpl. rewrite <- Hid.
    rewrite lookup_insert_eq. simpl. f_equal. by apply eval_policy_character.
  - rewrite Hdb'. simpl. rewrite ops_store_components. simpl.
    rewrite <- Hown. by apply duplicates_ops_conflict.
  - rewrite Hdb'. simpl. rewrite ops_store_components. simpl.
    rewrite <- Hown. by apply duplicates_ops_conflict.
Qed.

Lemma verified_key_true (creds : gmap Z EVECredential) (ks : list ObjectId)
    (b : bool) :
  verified_key creds ks true = Return b -> b = true.
Proof.
  induction ks as [|k ks IH]; simpl.
  - by intros [= <-].
  - destruct (creds !! k) as [c|]; [|done]. by destruct (verified c).
Qed.

Lemma verified_key_found (creds : gmap Z EVECredential) (ks : list ObjectId)
    (found : bool) (k : ObjectId) (c : EVECredential) (b : bool) :
  k ∈ ks -> creds !! k = Some c -> verified c = true ->
  verified_key creds ks found = Return b -> b = true.
Proof.
  intros Hin Hc Hv. revert found.
  induction ks as [|k' ks IH]; intros found; simpl.
  - by apply elem_of_nil in Hin.
  - apply elem_of_cons in Hin as [<-|Hin].
    + rewrite Hc, Hv. apply verified_key_true.
    + destruct (creds !! k') as [c'|]; [|done]. by apply IH.
Qed.

Lemma revoke_loop_verified (l : list EVECharacter) (st st' : State)
    (k : ObjectId) (c : EVECredential) :
  Credentials (db st) !! k = Some c -> verified c = true ->
  Forall (fun ch => k ∈ char_credentials ch) l ->
  for_each revoke_unverified l st = (Return tt, st') -> st' = st.
Proof.
  intros Hc Hv Hall. induction Hall as [|ch l Hch Hall IH]; simpl.
  - by intros [= <-].
  - intros Hrun. apply bind_inv_Return in Hrun as (u & st1 & Hstep & Hrest).
    rewrite revoke_unverified_run in Hstep.
    destruct (verified_key (Credentials (db st)) (char_credentials ch) false)
      as [b|ex] eqn:Hkey; [|done].
    rewrite (verified_key_found _ _ _ k c b Hch Hc Hv Hkey) in Hstep.
    injection Hstep as <- <-. by apply IH.
Qed.

(** X8: a pull that ends with the credential verified removes no grant.
    The loop of lines 295-301 finds, for every identity attached to the
    credential, the credential itself among the verified ones, so
    [remove_grants_for_character] is never called: the grants after the
    call are the grants before it. *)
Theorem pull_verified_keeps_grants (E : Env) (now : datetime) (st : State)
    (result : KeyInfo) (out : option EVECredential) (st' : State) :
  store_keyed (db st) ->
  kind (this st) ≠ "Corporation" ->
  APIKeyInfo E (key (this st)) (code (this st)) = Return result ->
  pull E now st = (Return out, st') ->
  verified (this st') = true ->
  grants (db st') = grants (db st).
Proof.
  intros Hk Hkind Hfetch Hrun Hv.
  destruct (decide (characters_row result = [])) as [Hnil|Hrows].
  { rewrite (pull_fetched E now st result Hkind Hfetch) in Hrun.
    destruct (pull_result_Return E now result st out st' Hrun) as (e & He & Hcfg).
    rewrite (pull_result_reconcile E now result e st He Hcfg) in Hrun.
    rewrite (reconcile_characters_empty E now result _ Hnil) in Hrun.
    injection Hrun as _ <-. simpl.
    by destruct (after_key_info_this E result e st) as (_ & _ & ->). }
  destruct (pull_reconciled E now st result out st' Hk Hkind Hfetch Hrows Hrun)
    as (e & ops & tr5 & _ & Hdb & Hfor & _ & Hthis & _).
  cbv zeta in *.
  match type of Hfor with
  | for_each revoke_unverified (characters_of ?s5 (db ?st5)) _ = _ =>
      assert (st' = st5) as ->;
        [apply (revoke_loop_verified (characters_of s5 (db st5)) st5 st'
                  (cred_id s5) s5);
           [exact (lookup_insert_eq _ _ _) | by rewrite <- Hthis | | exact Hfor]|]
  end.
  - apply Forall_forall. intros ch Hch.
    apply list_elem_of_filter in Hch as [Hat _].
    unfold attached in Hat. by apply bool_decide_eq_true in Hat.
  - simpl. rewrite ops_store_components. simpl. by rewrite Hdb.
Qed.

Lemma resolve_corporationName_Some (info : Info) (st : State) (cn : string) :
  view_corporationName info = Some cn ->
  resolve_corporationName info st = (Return cn, st).
Proof.
  unfold view_corporationName, resolve_corporationName.
  destruct (info_corporation info); [by intros [= ->]|].
  by intros ->.
Qed.

Lemma membership_alliance_none (info : Info) (st : State) :
  allianceID info = None \/ allianceID info = Some 0 ->
  membership_alliance info st = (Return None, st).
Proof.
  intros [Ha|Ha]; unfold membership_alliance; rewrite Ha; reflexivity.
Qed.

(** X9: a payload without an alliance id (or with the id 0) yields no
    alliance: none is returned, none is created or renamed, and the
    corporation is stored with its alliance reference cleared, whatever it
    referred to before.  The corporation is created when it is missing and
    rewritten when its stored name or alliance differ; when the stored row
    is already the resolved one nothing is written at all. *)
Theorem get_membership_without_alliance (info : Info) (st : State) (cid : Z)
    (cn : string) :
  corps_keyed (Corporations (db st)) ->
  allianceID info = None \/ allianceID info = Some 0 ->
  corporationID info = Some cid ->
  view_corporationName info = Some cn ->
  exists st',
    get_membership info st = (Return (mkCorporation cid cn None, None), st') /\
    this st' = this st /\
    Alliances (db st') = Alliances (db st) /\
    Characters (db st') = Characters (db st) /\
    Corporations (db st') = <[cid := mkCorporation cid cn None]> (Corporations (db st)) /\
    saves_of "Alliances" (trace st') = saves_of "Alliances" (trace st) /\
    saves_of "Corporations" (trace st') =
      saves_of "Corporations" (trace st) ++
        (if bool_decide (Corporations (db st) !! cid = Some (mkCorporation cid cn None))
         then [] else [cid]).
Proof.
  intros Hk Ha Hcid Hcn. unfold get_membership.
  rewrite (bind_Return _ _ _ _ _ (resolve_corporationName_Some info st cn Hcn)).
  rewrite (bind_Return _ _ _ _ _ (membership_alliance_none info st Ha)).
  unfold membership_corporation, corporation_get_or_create, corporation_save.
  rewrite Hcid. run.
  destruct (Corporations (db st) !! cid) as [c|] eqn:Hc; simpl.
  - pose proof (Hk cid c Hc) as Hidc.
    destruct c as [i n a]. simpl in *. subst i.
    destruct (decide (n = cn)) as [->|Hn].
    + destruct a as [a|].
      * rewrite bool_decide_eq_false_2 by (by intros ?).
        rewrite (bool_decide_eq_true_2 (Some a ≠ None)) by done. simpl.
        eexists. split; [reflexivity|]. simpl.
        rewrite bool_decide_eq_false_2 by (by intros [= ?]).
        rewrite !saves_of_app. simpl. by rewrite !app_nil_r.
      * rewrite !bool_decide_eq_false_2 by (by intros ?). simpl.
        eexists. split; [reflexivity|]. simpl.
        rewrite bool_decide_eq_true_2 by done.
        rewrite insert_id by done. by rewrite !app_nil_r.
    + rewrite (bool_decide_eq_true_2 (n ≠ cn)) by done. simpl.
      eexists. split; [reflexivity|]. simpl.
      rewrite bool_decide_eq_false_2 by (by intros [= ?]).
      rewrite !saves_of_app. simpl. by rewrite !app_nil_r.
  - rewrite !bool_decide_eq_false_2 by (by intros ?). simpl.
    eexists. split; [reflexivity|]. simpl.
    rewrite !saves_of_app. simpl. by rewrite !app_nil_r.
Qed.

(** X10: the rollback of lines 126-131 covers the fetch only.  When the
    identity is new and the view the fetch hands over carries neither
    "corporation" nor "corporationName", [get_membership] raises
    AttributeError after the [try] block has been left: [pull_character]
    raises it, and the blank row created at line 103 stays in the
    Characters collection, with no owner and no credential. *)
Theorem pull_character_membership_failure_keeps_row (E : Env) (row view : Info)
    (st : State) :
  Characters (db st) !! characterID row = None ->
  character_view E (this st) row = Return view ->
  view_corporationName view = None ->
  pull_character E row st =
    (Raise AttributeError,
     mkState (this st)
       (with_Characters
          (insert (characterID row) (new_character (characterID row))) (db st))
       (trace st ++ [Saved "Characters" (characterID row)])) /\
  Characters
    (with_Characters
       (insert (characterID row) (new_character (characterID row))) (db st))
    !! characterID row
    = Some (mkCharacter (characterID row) None None [] None None None None None
              None None [] []).
Proof.
  intros Hc Hview Hcn. split; [|exact (lookup_insert_eq _ _ _)].
  unfold pull_character.
  erewrite bind_Return by (rewrite create_or_load_run, Hc; reflexivity).
  unfold merge_character.
  erewrite bind_Return by (by apply fetch_character_Return).
  erewrite bind_Raise; [reflexivity|].
  unfold get_membership, resolve_corporationName, view_corporationName in *.
  destruct (info_corporation view); [done|]. rewrite Hcn. reflexivity.
Qed.

(** X11: a merge that succeeds hands the identity to the credential's
    owner and attaches the credential once.  The row [pull_character]
    returns is the row it stored under the reported identifier; its owner
    is the credential's owner; its credential list is the stored one when
    that already holds the credential, and the stored one with the
    credential appended otherwise.  The credential in memory and the
    Credentials collection, the duplicate links and the grants are left as
    they were. *)
Theorem pull_character_merged (E : Env) (row : Info) (st : State)
    (c : EVECharacter) (st' : State) :
  store_keyed (db st) ->
  pull_character E row st = (Return (Some c), st') ->
  Characters (db st') !! characterID row = Some c /\
  char_identifier c = characterID row /\
  char_owner c = owner (this st) /\
  cred_id (this st) ∈ char_credentials c /\
  (let stored := stored_credentials (Characters (db st)) (characterID row) in
   char_credentials c =
     if bool_decide (cred_id (this st) ∈ stored) then stored
     else stored ++ [cred_id (this st)]) /\
  this st' = this st /\
  Credentials (db st') = Credentials (db st) /\
  duplicates (db st') = duplicates (db st) /\
  grants (db st') = grants (db st).
Proof.
  intros Hk Hrun.
  pose proof (pull_character_cases E row st Hk) as Hcases.
  destruct (conflict_owner (this st) (Characters (db st)) (characterID row));
    [by rewrite Hcases in Hrun|].
  destruct (merge_plan E (this st) row) as [d|];
    [|by destruct Hcases as (ex & st2 & Hr); rewrite Hr in Hrun].
  destruct Hcases as (tr & Hr). rewrite Hr in Hrun. injection Hrun as <- <-.
  simpl. split_and!; try done.
  - apply lookup_insert_eq.
  - unfold append_credential. case_bool_decide; [done|].
    apply elem_of_app. right. by apply list_elem_of_singleton.
Qed.

(** X12: a merge overwrites the descriptive fields of the identity with the
    fetched view alone.  Race, bloodline, ancestry, gender and security of
    the stored row are the view's, titles and roles are its rows; a field
    the view does not carry is stored as None (titles and roles as the
    empty list), whatever the identity held before. *)
Theorem pull_character_overwrites_fields (E : Env) (row view : Info) (st : State)
    (c : EVECharacter) (st' : State) :
  store_keyed (db st) ->
  character_view E (this st) row = Return view ->
  pull_character E row st = (Return (Some c), st') ->
  char_race c = info_race view /\
  char_bloodline c =
    match bloodLine view with
    | Some b => Some b
    | None => info_bloodline view
    end /\
  char_ancestry c = info_ancestry view /\
  char_gender c = info_gender view /\
  char_security c = info_security view /\
  char_titles c = default [] (map (strip_tags E) <$> corporationTitles view) /\
  char_roles c = default [] (corporationRoles view).
Proof.
  intros Hk Hview Hrun.
  pose proof (pull_character_cases E row st Hk) as Hcases.
  destruct (conflict_owner (this st) (Characters (db st)) (characterID row));
    [by rewrite Hcases in Hrun|].
  unfold merge_plan in Hcases. rewrite Hview in Hcases.
  destruct (view_data E view) as [d|] eqn:Hd;
    [|by destruct Hcases as (ex & st2 & Hr); rewrite Hr in Hrun].
  destruct (view_data_Some E view d Hd) as (Hinfo & _).
  destruct Hcases as (tr & Hr). rewrite Hr in Hrun. injection Hrun as <- <-.
  simpl. rewrite Hinfo. unfold resolve_bloodline.
  destruct (bloodLine view), (info_bloodline view), (corporationTitles view),
    (corporationRoles view); done.
Qed.

(** ** The view permission *)




(** ** Further properties of [eval_violation] *)

Lemma store_insert_credential_twice (s : EVECredential) (st : Store) :
  with_Credentials (insert (cred_id s) s) (with_Credentials (insert (cred_id s) s) st)
  = with_Credentials (insert (cred_id s) s) st.
Proof.
  destruct st. unfold with_Credentials. simpl. f_equal. apply insert_insert_eq.
Qed.

(** X14: [eval_violation] touches the credential and nothing else.
    However it ends, the identities, corporations, alliances, duplicate
    links and grants are the ones before the call; of the in-memory record
    no field differs but [violation] (and [modified], where a save may have
    refreshed it); and in the Credentials collection no record but the
    credential's own is written. *)
Theorem eval_violation_touches_only_credential (E : Env) (st : State) :
  Characters (db (eval_violation E st).2) = Characters (db st) /\
  Corporations (db (eval_violation E st).2) = Corporations (db st) /\
  Alliances (db (eval_violation E st).2) = Alliances (db st) /\
  duplicates (db (eval_violation E st).2) = duplicates (db st) /\
  grants (db (eval_violation E st).2) = grants (db st) /\
  key_data (this (eval_violation E st).2) = key_data (this st) /\
  (forall k, k ≠ cred_id (this st) ->
     Credentials (db (eval_violation E st).2) !! k = Credentials (db st) !! k).
Proof.
  unfold eval_violation, self_has_access.
  destruct (py_int E (recommended_key_mask E)) as [rec_mask|]; [|done].
  run.
  destruct (bool_decide (violation (this st) = Some "Character")); [done|].
  destruct (kind_acceptable E (this st)); simpl.
  - destruct (mask (this st)) as [km|]; simpl; [|done].
    destruct (has_access E km rec_mask); simpl;
      (split_and!; try done; intros k Hk; by apply lookup_insert_ne).
  - split_and!; try done. intros k Hk. by apply lookup_insert_ne.
Qed.

Lemma eval_violation_spec (E : Env) (st : State) :
  eval_violation E st =
    match py_int E (recommended_key_mask E) with
    | None =>
        (Return None,
         emit (Logged "warn" "core.recommended_key_mask MUST be an integer.") st)
    | Some rec_mask =>
        if bool_decide (violation (this st) = Some "Character")
        then (Return None, st)
        else if negb (kind_acceptable E (this st))
        then (Return (Some (set_violation (Some "Kind") (this st))),
              after_save (set_violation (Some "Kind") (this st)) st)
        else match mask (this st) with
             | None =>
                 (Raise AttributeError,
                  emit (Logged "info" "Incorrect key type %s for key %s.") st)
             | Some km =>
                 let s := set_violation
                            (if has_access E km rec_mask then None else Some "Mask")
                            (this st) in
                 (Return (Some s), after_save s st)
             end
    end.
Proof.
  unfold eval_violation, self_has_access.
  destruct (py_int E (recommended_key_mask E)) as [rec_mask|]; [|done].
  run.
  destruct (bool_decide (violation (this st) = Some "Character")); [done|].
  destruct (kind_acceptable E (this st)); simpl; [|done].
  destruct (mask (this st)) as [km|]; simpl; [|done].
  by destruct (has_access E km rec_mask).
Qed.

Lemma eval_violation_twice (E : Env) (st : State) :
  this (eval_violation E (eval_violation E st).2).2 = this (eval_violation E st).2 /\
  db (eval_violation E (eval_violation E st).2).2 = db (eval_violation E st).2 /\
  (eval_violation E (eval_violation E st).2).1 = (eval_violation E st).1.
Proof.
  rewrite (eval_violation_spec E st).
  destruct (py_int E (recommended_key_mask E)) as [rec_mask|] eqn:Hrec;
    [|simpl; by rewrite eval_violation_spec, Hrec].
  destruct (bool_decide (violation (this st) = Some "Character")) eqn:Hch.
  { simpl. by rewrite eval_violation_spec, Hrec, Hch. }
  destruct (kind_acceptable E (this st)) eqn:Hka; simpl.
  - destruct (mask (this st)) as [km|] eqn:Hm; simpl.
    + rewrite eval_violation_spec, Hrec. simpl.
      change (kind_acceptable E (set_violation ?v (this st)))
        with (kind_acceptable E (this st)).
      change (mask (set_violation ?v (this st))) with (mask (this st)).
      rewrite Hka, Hm. simpl.
      destruct (has_access E km rec_mask); simpl;
        (split_and!; [done | match goal with
           | |- context [set_violation ?v (this st)] =>
               exact (store_insert_credential_twice (set_violation v (this st)) (db st))
           end | done]).
    + rewrite eval_violation_spec, Hrec. simpl. by rewrite Hch, Hka, Hm.
  - rewrite eval_violation_spec, Hrec. simpl.
    change (kind_acceptable E (set_violation ?v (this st)))
      with (kind_acceptable E (this st)).
    rewrite Hka. simpl.
    split_and!; [done | match goal with
           | |- context [set_violation ?v (this st)] =>
               exact (store_insert_credential_twice (set_violation v (this st)) (db st))
           end | done].
Qed.

(** X15: [eval_violation] is idempotent on what it decides.  Run a second
    time on the state the first run left, it leaves the same violation,
    and the same in-memory record and the same store up to the [modified]
    time of the credential: the verdict depends on kind, mask and
    configuration, which it does not change, and a "Character" violation
    stops both runs. *)
Theorem eval_violation_idempotent (E : Env) (st : State) :
  violation (this (eval_violation E (eval_violation E st).2).2)
    = violation (this (eval_violation E st).2) /\
  set_modified 0 (this (eval_violation E (eval_violation E st).2).2)
    = set_modified 0 (this (eval_violation E st).2) /\
  forget_modified (db (eval_violation E (eval_violation E st).2).2)
    = forget_modified (db (eval_violation E st).2).
Proof.
  destruct (eval_violation_twice E st) as (Hthis & Hdb & _).
  by rewrite Hthis, Hdb.
Qed.

(** ** What a pull does to the identities *)

Lemma plan_rows_merge (E : Env) (self : EVECredential)
    (co : Z -> option EVECharacter) (rows : list Info) (ops : list RowOp)
    (row : Info) :
  plan_rows E self co rows = Some ops ->
  row ∈ rows -> is_Some (corporationName row) ->
  co (characterID row) = None ->
  exists d, OpMerge (characterID row) d ∈ ops.
Proof.
  revert ops. induction rows as [|r rows IH]; intros ops Hplan Hin Hcn Hco.
  - by apply elem_of_nil in Hin.
  - simpl in Hplan. apply elem_of_cons in Hin as [<-|Hin].
    + destruct Hcn as [cn Hcn]. rewrite Hcn, Hco in Hplan.
      destruct (merge_plan E self row) as [d|]; [|done].
      destruct (plan_rows E self co rows) as [ops'|]; [|done].
      injection Hplan as <-. exists d. by left.
    + destruct (corporationName r); [|by apply IH].
      destruct (co (characterID r)).
      * destruct (plan_rows E self co rows) as [ops'|]; [|done].
        injection Hplan as <-. destruct (IH ops') as [d Hd]; try done.
        exists d. by right.
      * destruct (merge_plan E self r); [|done].
        destruct (plan_rows E self co rows) as [ops'|]; [|done].
        injection Hplan as <-. destruct (IH ops') as [d Hd]; try done.
        exists d. by right.
Qed.

Lemma last_merge_elem (ops : list RowOp) (i : Z) (d : MergeData) :
  OpMerge i d ∈ ops -> is_Some (last_merge ops i).
Proof.
  induction ops as [|op ops IH]; intros Hin.
  - by apply elem_of_nil in Hin.
  - simpl. apply elem_of_cons in Hin as [<-|Hin].
    + destruct (last_merge ops i); [by eexists|].
      rewrite bool_decide_eq_true_2 by done. by eexists.
    + destruct (IH Hin) as [d' ->]. by eexists.
Qed.

Lemma merged_ids_reported (E : Env) (self : EVECredential)
    (co : Z -> option EVECharacter) (rows : list Info) (ops : list RowOp) (i : Z) :
  plan_rows E self co rows = Some ops ->
  i ∈ merged_ids ops ->
  exists row, row ∈ rows /\ characterID row = i.
Proof.
  revert ops. induction rows as [|r rows IH]; intros ops Hplan Hin.
  - injection Hplan as <-. by apply elem_of_empty in Hin.
  - simpl in Hplan.
    assert (forall ops', plan_rows E self co rows = Some ops' ->
              i ∈ merged_ids ops' -> exists row, row ∈ r :: rows /\ characterID row = i)
      as Hrest.
    { intros ops' Hp Hi. destruct (IH ops' Hp Hi) as (row & Hrow & Hid).
      exists row. split; [by right | done]. }
    destruct (corporationName r); [|by eapply Hrest].
    destruct (co (characterID r)).
    + destruct (plan_rows E self co rows) as [ops'|]; [|done].
      injection Hplan as <-. by eapply Hrest.
    + destruct (merge_plan E self r); [|done].
      destruct (plan_rows E self co rows) as [ops'|]; [|done].
      injection Hplan as <-. simpl in Hin.
      apply elem_of_union in Hin as [Hin|Hin]; [|by eapply Hrest].
      apply elem_of_singleton in Hin as ->. exists r. split; [by left | done].
Qed.

Lemma reconciled_attached (s : EVECredential) (b1 b2 : bool) (c : EVECharacter) :
  attached (if b2 then set_violation None
                         (if b1 then s else set_violation (Some "Character") s)
            else if b1 then s else set_violation (Some "Character") s) c
  = attached s c.
Proof. by destruct b1, b2. Qed.

(** X16: a pull that returns has merged every reported identity it could.
    For each row that is not skipped and whose identity is unknown, unowned
    or owned by the credential's owner, the Characters collection holds
    that identity afterwards, owned by the credential's owner and with the
    credential in its list; the stale sweep of lines 285-288 does not
    detach it. *)
Theorem pull_merges_reported_identities (E : Env) (now : datetime) (st : State)
    (result : KeyInfo) (row : Info) (out : option EVECredential) (st' : State) :
  store_keyed (db st) ->
  kind (this st) ≠ "Corporation" ->
  APIKeyInfo E (key (this st)) (code (this st)) = Return result ->
  row ∈ characters_row result ->
  is_Some (corporationName row) ->
  (forall c0, Characters (db st) !! characterID row = Some c0 ->
              owner_conflict (this st) c0 = false) ->
  pull E now st = (Return out, st') ->
  exists c,
    Characters (db st') !! characterID row = Some c /\
    char_identifier c = characterID row /\
    char_owner c = owner (this st) /\
    cred_id (this st) ∈ char_credentials c.
Proof.
  intros Hk Hkind Hfetch Hin Hcn Hfree Hrun.
  assert (characters_row result ≠ []) as Hrows.
  { intros Hnil. rewrite Hnil in Hin. by apply elem_of_nil in Hin. }
  destruct (pull_reconciled E now st result out st' Hk Hkind Hfetch Hrows Hrun)
    as (e & ops & tr5 & Hplan & Hdb & _ & _ & _ & Hdb').
  cbv zeta in *.
  pose proof (after_key_info_cred_id E result e st) as Hid.
  destruct (after_key_info_fields E result e st) as (_ & _ & Hown & _).
  destruct (plan_rows_merge _ _ _ _ _ row Hplan Hin Hcn) as [d0 Hop].
  { unfold conflict_owner. rewrite Hdb.
    destruct (Characters (db st) !! characterID row) as [c0|] eqn:Hc0; [|done].
    unfold owner_conflict in *. rewrite Hown. by rewrite (Hfree c0). }
  destruct (last_merge_elem ops _ d0 Hop) as [d Hd].
  pose proof (last_merge_merged_ids ops _ d Hd) as HP.
  eexists. split.
  - rewrite Hdb'. simpl. rewrite lookup_fmap, ops_store_components. simpl.
    rewrite chars_ops_lookup, Hd. simpl. reflexivity.
  - unfold detach_stale at 1 2 3. simpl.
    rewrite (bool_decide_eq_false_2 (characterID row ∉ _)), andb_false_r
      by (intros Hnot; apply Hnot; set_solver).
    simpl. split_and!; [done | done |].
    rewrite <- Hid. unfold append_credential.
    match goal with
    | |- ?x ∈ (if bool_decide (?x ∈ ?l) then _ else _) =>
        destruct (decide (x ∈ l)) as [Hl|Hl];
          [by rewrite bool_decide_eq_true_2 by done
          |rewrite bool_decide_eq_false_2 by done]
    end.
    apply elem_of_app. right. by apply list_elem_of_singleton.
Qed.

(** X17: a pull that returns leaves every other identity alone.  A stored
    identity that no reported row names and that does not carry the
    credential is the same row after the call, and an identifier that was
    absent and is not reported is still absent. *)
Theorem pull_leaves_other_identities (E : Env) (now : datetime) (st : State)
    (result : KeyInfo) (i : Z) (out : option EVECredential) (st' : State) :
  store_keyed (db st) ->
  kind (this st) ≠ "Corporation" ->
  APIKeyInfo E (key (this st)) (code (this st)) = Return result ->
  (forall row, row ∈ characters_row result -> characterID row ≠ i) ->
  (forall c, Characters (db st) !! i = Some c -> attached (this st) c = false) ->
  pull E now st = (Return out, st') ->
  Characters (db st') !! i = Characters (db st) !! i.
Proof.
  intros Hk Hkind Hfetch Hnot Hat Hrun.
  destruct (decide (characters_row result = [])) as [Hnil|Hrows].
  { rewrite (pull_fetched E now st result Hkind Hfetch) in Hrun.
    destruct (pull_result_Return E now result st out st' Hrun) as (e & He & Hcfg).
    rewrite (pull_result_reconcile E now result e st He Hcfg) in Hrun.
    rewrite (reconcile_characters_empty E now result _ Hnil) in Hrun.
    injection Hrun as _ <-. simpl.
    by destruct (after_key_info_this E result e st) as (_ & _ & ->). }
  destruct (pull_reconciled E now st result out st' Hk Hkind Hfetch Hrows Hrun)
    as (e & ops & tr5 & Hplan & Hdb & _ & _ & _ & Hdb').
  cbv zeta in *.
  pose proof (after_key_info_cred_id E result e st) as Hid.
  rewrite Hdb'. simpl. rewrite lookup_fmap, ops_store_components. simpl.
  rewrite chars_ops_lookup, Hdb.
  destruct (last_merge ops i) as [d|] eqn:Hd.
  { apply last_merge_merged_ids in Hd.
    destruct (merged_ids_reported _ _ _ _ _ i Hplan Hd) as (row & Hrow & Hrid).
    by destruct (Hnot row Hrow). }
  destruct (Characters (db st) !! i) as [c|] eqn:Hc; [|done].
  simpl. f_equal. unfold detach_stale.
  rewrite reconciled_attached.
  unfold attached in *. rewrite Hid. by rewrite (Hat c).
Qed.

(** ** The further properties on the scenarios *)

Lemma pull_corporation_key_untouched_witness :
  kind (this c4_state) = "Corporation" /\
  pull c2_env 1 c4_state = (Return (Some (this c4_state)), c4_state).
Proof.
  assert (kind (this c4_state) = "Corporation") as H1 by reflexivity.
  split; [exact H1|].
  exact (proj1 (pull_corporation_key_untouched c2_env 1 c4_state H1)).
Defined.

Lemma pull_unexpected_error_propagates_witness :
  kind (this c8_state) ≠ "Corporation" /\
  APIKeyInfo c4_env (key (this c8_state)) (code (this c8_state)) = Raise RemoteError /\
  pull c4_env 1 c8_state = (Raise RemoteError, c8_state).
Proof.
  assert (kind (this c8_state) ≠ "Corporation") as H1 by (by vm_compute).
  assert (APIKeyInfo c4_env (key (this c8_state)) (code (this c8_state))
            = Raise RemoteError) as H2 by reflexivity.
  assert (forall status, RemoteError ≠ HTTPError status) as H3 by done.
  split_and!; [exact H1 | exact H2 |].
  exact (pull_unexpected_error_propagates c4_env 1 c8_state RemoteError H1 H2 H3).
Defined.

Lemma pull_bad_expires_raises_witness :
  kind (this c8_state) ≠ "Corporation" /\
  APIKeyInfo x3_env (key (this c8_state)) (code (this c8_state)) = Return x3_result /\
  key_expires x3_result = Some "soon" /\
  strptime x3_env "soon" = None /\
  pull x3_env 1 c8_state =
    (Raise ValueError,
     mkState (set_kind "Character" (set_mask 8 (this c8_state)))
             (db c8_state) (trace c8_state)).
Proof.
  assert (kind (this c8_state) ≠ "Corporation") as H1 by (by vm_compute).
  assert (APIKeyInfo x3_env (key (this c8_state)) (code (this c8_state))
            = Return x3_result) as H2 by reflexivity.
  assert (key_expires x3_result = Some "soon") as H3 by reflexivity.
  assert ("soon" ≠ "") as H4 by done.
  assert (strptime x3_env "soon" = None) as H5 by reflexivity.
  split_and!; [exact H1 | exact H2 | exact H3 | exact H5 |].
  exact (pull_bad_expires_raises x3_env 1 c8_state x3_result "soon" H1 H2 H3 H4 H5).
Defined.

Lemma pull_unknown_kind_raises_witness :
  kind (this c8_state) ≠ "Corporation" /\
  APIKeyInfo x4_env (key (this c8_state)) (code (this c8_state)) = Return x4_result /\
  parse_expires x4_env x4_result = Return None /\
  py_int x4_env (recommended_key_mask x4_env) = Some 8 /\
  pull x4_env 1 c8_state =
    (Raise AttributeError,
     mkState (with_key_info x4_result None (this c8_state)) (db c8_state)
             (trace c8_state ++ [Logged "info" "Incorrect key type %s for key %s."])).
Proof.
  assert (kind (this c8_state) ≠ "Corporation") as H1 by (by vm_compute).
  assert (APIKeyInfo x4_env (key (this c8_state)) (code (this c8_state))
            = Return x4_result) as H2 by reflexivity.
  assert (parse_expires x4_env x4_result = Return None) as H3 by reflexivity.
  assert (py_int x4_env (recommended_key_mask x4_env) = Some 8) as H4
    by (by vm_compute).
  assert (key_type x4_result ≠ "Account") as H5 by (by vm_compute).
  assert (key_type x4_result ≠ "Character") as H6 by (by vm_compute).
  assert (key_type x4_result ≠ "Corporation") as H7 by (by vm_compute).
  split_and!; [exact H1 | exact H2 | exact H3 | exact H4 |].
  exact (pull_unknown_kind_raises x4_env 1 c8_state x4_result None 8
           H1 H2 H3 H4 H5 H6 H7).
Defined.

Lemma pull_row_failure_aborts_witness :
  kind (this c8_state) ≠ "Corporation" /\
  APIKeyInfo x5_env (key (this c8_state)) (code (this c8_state)) = Return x5_result /\
  parse_expires x5_env x5_result = Return None /\
  is_Some (mask_of (key_type x5_result) (accessMask x5_result)) /\
  (pull_rows x5_env (characters_row x5_result) true ∅
     (after_key_info x5_env x5_result None c8_state)).1 = Raise RemoteError /\
  (pull x5_env 1 c8_state).1 = Raise RemoteError /\
  Credentials (db (pull x5_env 1 c8_state).2) = Credentials (db c8_state).
Proof.
  assert (kind (this c8_state) ≠ "Corporation") as H1 by (by vm_compute).
  assert (APIKeyInfo x5_env (key (this c8_state)) (code (this c8_state))
            = Return x5_result) as H2 by reflexivity.
  assert (parse_expires x5_env x5_result = Return None) as H3 by reflexivity.
  assert (is_Some (mask_of (key_type x5_result) (accessMask x5_result))) as H4
    by (eexists; reflexivity).
  assert (pull_rows x5_env (characters_row x5_result) true ∅
            (after_key_info x5_env x5_result None c8_state)
          = (Raise RemoteError,
             (pull_rows x5_env (characters_row x5_result) true ∅
                (after_key_info x5_env x5_result None c8_state)).2)) as H5
    by (by vm_compute).
  destruct (pull_row_failure_aborts x5_env 1 c8_state x5_result None RemoteError _
              H1 H2 H3 (or_intror H4) H5) as (Hrun & Hcreds & _).
  split_and!; [exact H1 | exact H2 | exact H3 | exact H4 | by rewrite H5
              | by rewrite Hrun | by rewrite Hrun].
Defined.

Lemma roster_state_keyed : store_keyed (db roster_state).
Proof. exact (store_of_keyed _ _). Qed.

Lemma roster_state_pulled :
  pull c5_env 1 roster_state = (Return (Some (this roster_pulled)), roster_pulled).
Proof. by vm_compute. Qed.

Lemma pull_returns_saved_record_witness :
  store_keyed (db roster_state) /\
  kind (this roster_state) ≠ "Corporation" /\
  APIKeyInfo c5_env (key (this roster_state)) (code (this roster_state))
    = Return c5_result /\
  characters_row c5_result ≠ [] /\
  pull c5_env 1 roster_state = (Return (Some (this roster_pulled)), roster_pulled) /\
  Credentials (db roster_pulled) !! 2 = Some (this roster_pulled) /\
  modified (this roster_pulled) = 1.
Proof.
  pose proof roster_state_keyed as H1.
  assert (kind (this roster_state) ≠ "Corporation") as H2 by (by vm_compute).
  assert (APIKeyInfo c5_env (key (this roster_state)) (code (this roster_state))
            = Return c5_result) as H3 by reflexivity.
  assert (characters_row c5_result ≠ []) as H4 by done.
  pose proof roster_state_pulled as H5.
  destruct (pull_returns_saved_record c5_env 1 roster_state c5_result _ _
              H1 H2 H3 H4 H5) as (_ & Hsaved & _ & Hmod & _).
  split_and!; [exact H1 | exact H2 | exact H3 | exact H4 | exact H5
              | exact Hsaved | exact Hmod].
Defined.

Lemma pull_conflict_flags_credential_witness :
  store_keyed (db c5_state) /\
  kind (this c5_state) ≠ "Corporation" /\
  APIKeyInfo c5_env (key (this c5_state)) (code (this c5_state)) = Return c5_result /\
  row_77 ∈ characters_row c5_result /\
  is_Some (corporationName row_77) /\
  Characters (db c5_state) !! characterID row_77 = Some (char_77 (Some 10) [2]) /\
  owner_conflict (this c5_state) (char_77 (Some 10) [2]) = true /\
  pull c5_env 1 c5_state
    = (Return (Some (this (pull c5_env 1 c5_state).2)), (pull c5_env 1 c5_state).2) /\
  violation (this (pull c5_env 1 c5_state).2) = Some "Character" /\
  (Some 20, Some 10) ∈ duplicates (db (pull c5_env 1 c5_state).2).
Proof.
  assert (store_keyed (db c5_state)) as H1 by exact (store_of_keyed _ _).
  assert (kind (this c5_state) ≠ "Corporation") as H2 by (by vm_compute).
  assert (APIKeyInfo c5_env (key (this c5_state)) (code (this c5_state))
            = Return c5_result) as H3 by reflexivity.
  assert (row_77 ∈ characters_row c5_result) as H4 by (by left).
  assert (is_Some (corporationName row_77)) as H5 by (eexists; reflexivity).
  assert (Characters (db c5_state) !! characterID row_77
            = Some (char_77 (Some 10) [2])) as H6 by (by vm_compute).
  assert (owner_conflict (this c5_state) (char_77 (Some 10) [2]) = true) as H7
    by (by vm_compute).
  assert (pull c5_env 1 c5_state
            = (Return (Some (this (pull c5_env 1 c5_state).2)),
               (pull c5_env 1 c5_state).2)) as H8 by (by vm_compute).
  destruct (pull_conflict_flags_credential c5_env 1 c5_state c5_result row_77 _ _ _
              H1 H2 H3 H4 H5 H6 H7 H8) as (Hv & _ & Hd & _).
  split_and!; [exact H1 | exact H2 | exact H3 | exact H4 | exact H5 | exact H6
              | exact H7 | exact H8 | exact Hv | exact Hd].
Defined.

Lemma pull_verified_keeps_grants_witness :
  store_keyed (db roster_state) /\
  kind (this roster_state) ≠ "Corporation" /\
  APIKeyInfo c5_env (key (this roster_state)) (code (this roster_state))
    = Return c5_result /\
  pull c5_env 1 roster_state = (Return (Some (this roster_pulled)), roster_pulled) /\
  verified (this roster_pulled) = true /\
  grants (db roster_pulled) = [mkGrant 1 77].
Proof.
  pose proof roster_state_keyed as H1.
  assert (kind (this roster_state) ≠ "Corporation") as H2 by (by vm_compute).
  assert (APIKeyInfo c5_env (key (this roster_state)) (code (this roster_state))
            = Return c5_result) as H3 by reflexivity.
  pose proof roster_state_pulled as H4.
  assert (verified (this roster_pulled) = true) as H5 by (by vm_compute).
  split_and!; [exact H1 | exact H2 | exact H3 | exact H4 | exact H5 |].
  exact (pull_verified_keeps_grants c5_env 1 roster_state c5_result _ _
           H1 H2 H3 H4 H5).
Defined.

Lemma get_membership_without_alliance_witness :
  corps_keyed (Corporations (db c9_state)) /\
  allianceID row_77 = None /\
  corporationID row_77 = Some 9 /\
  view_corporationName row_77 = Some "Corp" /\
  exists st',
    get_membership row_77 c9_state = (Return (mkCorporation 9 "Corp" None, None), st') /\
    Alliances (db st') = Alliances (db c9_state) /\
    Corporations (db st') !! 9 = Some (mkCorporation 9 "Corp" None).
Proof.
  assert (corps_keyed (Corporations (db c9_state))) as H1
    by exact (proj1 (proj2 (store_of_keyed _ _))).
  assert (allianceID row_77 = None) as H2 by reflexivity.
  assert (corporationID row_77 = Some 9) as H3 by reflexivity.
  assert (view_corporationName row_77 = Some "Corp") as H4 by reflexivity.
  split_and!; [exact H1 | exact H2 | exact H3 | exact H4 |].
  destruct (get_membership_without_alliance row_77 c9_state 9 "Corp"
              H1 (or_introl H2) H3 H4) as (st' & Hrun & _ & Ha & _ & Hc & _).
  exists st'. split_and!; [exact Hrun | exact Ha |].
  rewrite Hc. apply lookup_insert_eq.
Defined.

Lemma pull_character_membership_failure_keeps_row_witness :
  Characters (db c8_state) !! characterID row_77_bare = None /\
  character_view c5_env (this c8_state) row_77_bare = Return row_77_bare /\
  view_corporationName row_77_bare = None /\
  (pull_character c5_env row_77_bare c8_state).1 = Raise AttributeError /\
  Characters (db (pull_character c5_env row_77_bare c8_state).2) !! 77
    = Some (mkCharacter 77 None None [] None None None None None None None [] []).
Proof.
  assert (Characters (db c8_state) !! characterID row_77_bare = None) as H1
    by (by vm_compute).
  assert (character_view c5_env (this c8_state) row_77_bare = Return row_77_bare)
    as H2 by (by vm_compute).
  assert (view_corporationName row_77_bare = None) as H3 by reflexivity.
  destruct (pull_character_membership_failure_keeps_row c5_env row_77_bare
              row_77_bare c8_state H1 H2 H3) as [Hrun Hrow].
  split_and!; [exact H1 | exact H2 | exact H3 | by rewrite Hrun |].
  rewrite Hrun. exact Hrow.
Defined.

Lemma pull_character_77_merged :
  pull_character c5_env row_77 c2_state
    = (Return (Some (mkCharacter 77 (Some "Seventy Seven") (Some 20) [2] (Some 9)
                       None None None None None None [] [])),
       (pull_character c5_env row_77 c2_state).2).
Proof. by vm_compute. Qed.

Lemma pull_character_merged_witness :
  store_keyed (db c2_state) /\
  pull_character c5_env row_77 c2_state
    = (Return (Some (mkCharacter 77 (Some "Seventy Seven") (Some 20) [2] (Some 9)
                       None None None None None None [] [])),
       (pull_character c5_env row_77 c2_state).2) /\
  Characters (db (pull_character c5_env row_77 c2_state).2) !! 77
    = Some (mkCharacter 77 (Some "Seventy Seven") (Some 20) [2] (Some 9)
              None None None None None None [] []) /\
  this (pull_character c5_env row_77 c2_state).2 = this c2_state.
Proof.
  assert (store_keyed (db c2_state)) as H1 by exact (store_of_keyed _ _).
  pose proof pull_character_77_merged as H2.
  destruct (pull_character_merged c5_env row_77 c2_state _ _ H1 H2)
    as (Hrow & _ & _ & _ & _ & Hthis & _).
  split_and!; [exact H1 | exact H2 | exact Hrow | exact Hthis].
Defined.

Lemma pull_character_overwrites_fields_witness :
  store_keyed (db c2_state) /\
  character_view c5_env (this c2_state) row_77 = Return row_77 /\
  pull_character c5_env row_77 c2_state
    = (Return (Some (mkCharacter 77 (Some "Seventy Seven") (Some 20) [2] (Some 9)
                       None None None None None None [] [])),
       (pull_character c5_env row_77 c2_state).2) /\
  char_race (mkCharacter 77 (Some "Seventy Seven") (Some 20) [2] (Some 9)
               None None None None None None [] []) = info_race row_77.
Proof.
  assert (store_keyed (db c2_state)) as H1 by exact (store_of_keyed _ _).
  assert (character_view c5_env (this c2_state) row_77 = Return row_77) as H2
    by (by vm_compute).
  pose proof pull_character_77_merged as H3.
  destruct (pull_character_overwrites_fields c5_env row_77 row_77 c2_state _ _
              H1 H2 H3) as (Hrace & _).
  split_and!; [exact H1 | exact H2 | exact H3 | exact Hrace].
Defined.

Lemma pull_merges_reported_identities_witness :
  store_keyed (db roster_state) /\
  kind (this roster_state) ≠ "Corporation" /\
  APIKeyInfo c5_env (key (this roster_state)) (code (this roster_state))
    = Return c5_result /\
  row_77 ∈ characters_row c5_result /\
  is_Some (corporationName row_77) /\
  owner_conflict (this roster_state) (char_77 (Some 20) [2]) = false /\
  pull c5_env 1 roster_state = (Return (Some (this roster_pulled)), roster_pulled) /\
  exists c,
    Characters (db roster_pulled) !! 77 = Some c /\
    char_owner c = Some 20 /\ 2 ∈ char_credentials c.
Proof.
  pose proof roster_state_keyed as H1.
  assert (kind (this roster_state) ≠ "Corporation") as H2 by (by vm_compute).
  assert (APIKeyInfo c5_env (key (this roster_state)) (code (this roster_state))
            = Return c5_result) as H3 by reflexivity.
  assert (row_77 ∈ characters_row c5_result) as H4 by (by left).
  assert (is_Some (corporationName row_77)) as H5 by (eexists; reflexivity).
  assert (owner_conflict (this roster_state) (char_77 (Some 20) [2]) = false) as H6
    by (by vm_compute).
  assert (forall c0, Characters (db roster_state) !! characterID row_77 = Some c0 ->
                     owner_conflict (this roster_state) c0 = false) as H6'.
  { intros c0 Hc0. vm_compute in Hc0. injection Hc0 as <-. exact H6. }
  pose proof roster_state_pulled as H7.
  destruct (pull_merges_reported_identities c5_env 1 roster_state c5_result row_77
              _ _ H1 H2 H3 H4 H5 H6' H7) as (c & Hc & _ & Hown & Hcred).
  split_and!; [exact H1 | exact H2 | exact H3 | exact H4 | exact H5 | exact H6
              | exact H7 |].
  exists c. split_and!; [exact Hc | exact Hown | exact Hcred].
Defined.

Lemma pull_leaves_other_identities_witness :
  store_keyed (db roster_state) /\
  kind (this roster_state) ≠ "Corporation" /\
  APIKeyInfo c5_env (key (this roster_state)) (code (this roster_state))
    = Return c5_result /\
  characterID <$> characters_row c5_result = [77] /\
  Characters (db roster_state) !! 79 = Some char_79 /\
  attached (this roster_state) char_79 = false /\
  pull c5_env 1 roster_state = (Return (Some (this roster_pulled)), roster_pulled) /\
  Characters (db roster_pulled) !! 79 = Some char_79.
Proof.
  pose proof roster_state_keyed as H1.
  assert (kind (this roster_state) ≠ "Corporation") as H2 by (by vm_compute).
  assert (APIKeyInfo c5_env (key (this roster_state)) (code (this roster_state))
            = Return c5_result) as H3 by reflexivity.
  assert (characterID <$> characters_row c5_result = [77]) as H4 by reflexivity.
  assert (forall row, row ∈ characters_row c5_result -> characterID row ≠ 79) as H4'.
  { intros row Hrow. apply list_elem_of_singleton in Hrow as ->. by vm_compute. }
  assert (Characters (db roster_state) !! 79 = Some char_79) as H5
    by (by vm_compute).
  assert (attached (this roster_state) char_79 = false) as H6 by (by vm_compute).
  assert (forall c, Characters (db roster_state) !! 79 = Some c ->
                    attached (this roster_state) c = false) as H6'.
  { intros c Hc. rewrite H5 in Hc. injection Hc as <-. exact H6. }
  pose proof roster_state_pulled as H7.
  pose proof (pull_leaves_other_identities c5_env 1 roster_state c5_result 79 _ _
                H1 H2 H3 H4' H6' H7) as Hsame.
  split_and!; [exact H1 | exact H2 | exact H3 | exact H4 | exact H5 | exact H6
              | exact H7 | by rewrite Hsame].
Defined.

(** ** The sweep of stale identities *)

Global Instance trace_extends_preorder : PreOrder trace_extends.
Proof.
  split.
  - intros st. exists []. by rewrite app_nil_r.
  - intros a b c [t1 H1] [t2 H2]. exists (t1 ++ t2).
    by rewrite H2, H1, app_assoc.
Qed.

Ltac trace_step :=
  intros; unfold trace_extends;
  first [ by eexists | exists []; simpl; by rewrite app_nil_r ].

Ltac frame_trace :=
  repeat (progress unfold_ops); repeat frame_step; try done; try trace_step.

Lemma pull_character_extends (E : Env) (info : Info) :
  respects trace_extends (pull_character E info).
Proof. frame_trace. Qed.

Lemma pull_rows_extends (E : Env) (rows : list Info) (ok : bool) (P : gset Z) :
  respects trace_extends (pull_rows E rows ok P).
Proof.
  revert ok P. induction rows as [|row rows IH]; intros ok P; simpl.
  - frame_trace.
  - destruct (corporationName row).
    + apply respects_bind; [apply _ | apply pull_character_extends |].
      intros [c|]; apply IH.
    + apply respects_bind; [apply _ | frame_trace | intros _; apply IH].
Qed.

Lemma for_each_detach_extends (l : list EVECharacter) :
  respects trace_extends (for_each detach l).
Proof. frame_trace. Qed.

Lemma sweep_tail_extends (E : Env) (now : datetime) :
  respects trace_extends
    (eval_violation E ;;;
     modify (with_this (set_modified now)) ;;;
     save ;;;
     revoke_grants ;;;
     let* self := gets this in ret (Some self)).
Proof. frame_trace. Qed.

Lemma for_each_detach_event (l : list EVECharacter) (c : EVECharacter)
    (st st' : State) :
  c ∈ l ->
  for_each detach l st = (Return tt, st') ->
  exists tr, trace st' = trace st ++ tr /\ Detached (char_identifier c) ∈ tr.
Proof.
  revert st. induction l as [|x l IH]; intros st Hin Hrun.
  - by apply elem_of_nil in Hin.
  - simpl in Hrun. rewrite (bind_Return _ _ _ _ _ (detach_run x st)) in Hrun.
    apply elem_of_cons in Hin as [<-|Hin].
    + destruct (for_each_detach_extends l _ _ _ Hrun) as [tr Htr].
      simpl in Htr. eexists. split.
      { rewrite Htr, <- app_assoc. reflexivity. }
      apply elem_of_app. left. by left.
    + destruct (IH _ Hin Hrun) as (tr & Htr & Hev). simpl in Htr.
      eexists. split.
      { rewrite Htr, <- app_assoc. reflexivity. }
      apply elem_of_app. by right.
Qed.

Lemma merged_ids_named (E : Env) (self : EVECredential)
    (co : Z -> option EVECharacter) (rows : list Info) (ops : list RowOp) (i : Z) :
  plan_rows E self co rows = Some ops ->
  i ∈ merged_ids ops ->
  exists row, row ∈ rows /\ is_Some (corporationName row) /\ characterID row = i.
Proof.
  revert ops. induction rows as [|r rows IH]; intros ops Hplan Hin.
  - injection Hplan as <-. by apply elem_of_empty in Hin.
  - simpl in Hplan.
    assert (forall ops', plan_rows E self co rows = Some ops' ->
              i ∈ merged_ids ops' ->
              exists row, row ∈ r :: rows /\ is_Some (corporationName row) /\
                          characterID row = i) as Hrest.
    { intros ops' Hp Hi. destruct (IH ops' Hp Hi) as (row & Hrow & Hcn & Hid).
      exists row. split; [by right | done]. }
    destruct (corporationName r) as [cn|] eqn:Hcn; [|by eapply Hrest].
    destruct (co (characterID r)).
    + destruct (plan_rows E self co rows) as [ops'|]; [|done].
      injection Hplan as <-. by eapply Hrest.
    + destruct (merge_plan E self r); [|done].
      destruct (plan_rows E self co rows) as [ops'|]; [|done].
      injection Hplan as <-. simpl in Hin.
      apply elem_of_union in Hin as [Hin|Hin]; [|by eapply Hrest].
      apply elem_of_singleton in Hin as ->. exists r.
      split_and!; [by left | by rewrite Hcn | done].
Qed.

Lemma after_key_info_extends (E : Env) (result : KeyInfo) (e : option datetime)
    (st : State) :
  trace_extends st (after_key_info E result e st).
Proof.
  unfold after_key_info.
  destruct (py_int E (recommended_key_mask E)); simpl.
  - exists []. simpl. by rewrite app_nil_r.
  - by eexists.
Qed.

Lemma reconcile_characters_rows (E : Env) (now : datetime) (result : KeyInfo)
    (st : State) :
  characters_row result ≠ [] ->
  reconcile_characters E now result st =
    (let* '(allCharsOK, pulled_characters) :=
       pull_rows E (characters_row result) true ∅ in
     clear_character_violation allCharsOK ;;;
     detach_outdated pulled_characters ;;;
     eval_violation E ;;;
     modify (with_this (set_modified now)) ;;;
     save ;;;
     revoke_grants ;;;
     let* self := gets this in ret (Some self)) st.
Proof.
  intros Hrows. unfold reconcile_characters.
  by destruct (characters_row result).
Qed.

(** The identities the sweep of lines 285-288 hands to [detach]: a stored
    identity that carries the credential and that no row of the answer
    that is not skipped names. *)
Lemma pull_sweeps (E : Env) (now : datetime) (st : State) (result : KeyInfo)
    (i : Z) (c : EVECharacter) (out : option EVECredential) (st' : State) :
  store_keyed (db st) ->
  kind (this st) ≠ "Corporation" ->
  APIKeyInfo E (key (this st)) (code (this st)) = Return result ->
  characters_row result ≠ [] ->
  (forall row, row ∈ characters_row result -> is_Some (corporationName row) ->
               characterID row ≠ i) ->
  Characters (db st) !! i = Some c ->
  attached (this st) c = true ->
  pull E now st = (Return out, st') ->
  exists tr, trace st' = trace st ++ tr /\ Detached i ∈ tr.
Proof.
  intros Hk Hkind Hfetch Hrows Hnot Hc Hat Hrun.
  rewrite (pull_fetched E now st result Hkind Hfetch) in Hrun.
  destruct (pull_result_Return E now result st out st' Hrun) as (e & He & Hcfg).
  rewrite (pull_result_reconcile E now result e st He Hcfg) in Hrun.
  set (sta := after_key_info E result e st) in *.
  destruct (after_key_info_this E result e st) as (_ & _ & Hdb). fold sta in Hdb.
  pose proof (after_key_info_cred_id E result e st) as Hid. fold sta in Hid.
  destruct (after_key_info_extends E result e st) as [tr0 Htr0]. fold sta in Htr0.
  assert (store_keyed (db sta)) as Hka by (by rewrite Hdb).
  rewrite (reconcile_characters_rows E now result sta Hrows) in Hrun.
  apply bind_inv_Return in Hrun as ([ok P] & st2 & Hloop & Hrest).
  destruct (pull_rows_extends E _ _ _ _ _ _ Hloop) as [tr2 Htr2].
  pose proof (pull_rows_cases E (characters_row result) true ∅ sta Hka) as Hcases.
  destruct (plan_rows E (this sta) (conflict_owner (this sta) (Characters (db sta)))
              (characters_row result)) as [ops|] eqn:Hplan;
    [|by destruct Hcases as (ex & sx & Hx); rewrite Hx in Hloop].
  destruct Hcases as [trb Hloop']. rewrite Hloop' in Hloop.
  injection Hloop as Hok HP Hst2.
  assert (i ∉ P) as HiP.
  { rewrite <- HP. intros Hi. apply elem_of_union in Hi as [Hi|Hi];
      [|by apply elem_of_empty in Hi].
    destruct (merged_ids_named _ _ _ _ _ i Hplan Hi) as (row & Hrow & Hcn & Hrid).
    by destruct (Hnot row Hrow Hcn). }
  assert (Characters (db st2) !! i = Some c) as Hc2.
  { rewrite <- Hst2. simpl. rewrite ops_store_components. simpl.
    rewrite chars_ops_lookup.
    destruct (last_merge ops i) as [d|] eqn:Hd.
    - apply last_merge_merged_ids in Hd. destruct HiP. rewrite <- HP. set_solver.
    - by rewrite Hdb. }
  assert (cred_id (this st2) = cred_id (this st)) as Hid2.
  { rewrite <- Hst2. simpl. rewrite <- Hid. by destruct (no_conflicts ops). }
  assert (chars_keyed (Characters (db st2))) as Hk2.
  { rewrite <- Hst2. simpl. apply (ops_store_keyed E (this sta) ops (db sta) Hka). }
  apply bind_inv_Return in Hrest as (u & st3 & Hclear & Hrest).
  rewrite clear_character_violation_run in Hclear. injection Hclear as _ Hst3.
  apply bind_inv_Return in Hrest as (u' & st4 & Hdet & Hrest).
  assert (exists tr, trace st4 = trace st3 ++ tr /\ Detached i ∈ tr)
    as (tr4 & Htr4 & Hev).
  { unfold detach_outdated in Hdet.
    erewrite bind_Return in Hdet by reflexivity.
    rewrite <- (proj1 Hk i c Hc). destruct u'.
    apply (for_each_detach_event _ c _ _) in Hdet; [exact Hdet|].
    unfold outdated_characters. apply list_elem_of_filter. split.
    - by rewrite (proj1 Hk i c Hc).
    - apply elem_of_characters_of. split.
      + rewrite <- Hst3. simpl. etrans; [|exact Hat]. unfold attached.
        rewrite <- Hid2. by destruct (ok && _).
      + exists i. by rewrite <- Hst3. }
  destruct (sweep_tail_extends E now _ _ _ Hrest) as [tr5 Htr5].
  exists (tr0 ++ tr2 ++ tr4 ++ tr5). split.
  - rewrite Htr5, Htr4, <- Hst3. simpl. rewrite Htr2, Htr0.
    by rewrite <- !app_assoc.
  - apply elem_of_app. right. apply elem_of_app. right.
    apply elem_of_app. by left.
Qed.



(** X18: the sweep of lines 285-288 looks at the rows that were merged
    only, and asks nothing else.  When the key reports at least one row and
    [pull] returns, [detach] is called during the call on every stored
    identity that carries the credential and that no reported row names,
    whether or not the identity carries other credentials besides (unlike
    in [delete], nothing checks for them). *)
Theorem pull_detaches_unreported_identities (E : Env) (now : datetime)
    (st : State) (result : KeyInfo) (i : Z) (c : EVECharacter)
    (out : option EVECredential) (st' : State) :
  store_keyed (db st) ->
  kind (this st) ≠ "Corporation" ->
  APIKeyInfo E (key (this st)) (code (this st)) = Return result ->
  characters_row result ≠ [] ->
  (forall row, row ∈ characters_row result -> characterID row ≠ i) ->
  Characters (db st) !! i = Some c ->
  attached (this st) c = true ->
  pull E now st = (Return out, st') ->
  exists tr, trace st' = trace st ++ tr /\ Detached i ∈ tr.
Proof.
  intros Hk Hkind Hfetch Hrows Hnot Hc Hat Hrun.
  apply (pull_sweeps E now st result i c out st'); try done.
  intros row Hrow _. by apply Hnot.
Qed.


Lemma pull_detaches_unreported_identities_witness :
  store_keyed (db roster_state) /\
  kind (this roster_state) ≠ "Corporation" /\
  APIKeyInfo c5_env (key (this roster_state)) (code (this roster_state))
    = Return c5_result /\
  characterID <$> characters_row c5_result = [77] /\
  Characters (db roster_state) !! 78 = Some char_78 /\
  attached (this roster_state) char_78 = true /\
  char_credentials char_78 = [2; 3] /\
  pull c5_env 1 roster_state = (Return (Some (this roster_pulled)), roster_pulled) /\
  exists tr, trace roster_pulled = trace roster_state ++ tr /\ Detached 78 ∈ tr.
Proof.
  pose proof roster_state_keyed as H1.
  assert (kind (this roster_state) ≠ "Corporation") as H2 by (by vm_compute).
  assert (APIKeyInfo c5_env (key (this roster_state)) (code (this roster_state))
            = Return c5_result) as H3 by reflexivity.
  assert (characterID <$> characters_row c5_result = [77]) as H4 by reflexivity.
  assert (characters_row c5_result ≠ []) as H4'' by done.
  assert (forall row, row ∈ characters_row c5_result -> characterID row ≠ 78) as H4'.
  { intros row Hrow. apply list_elem_of_singleton in Hrow as ->. by vm_compute. }
  assert (Characters (db roster_state) !! 78 = Some char_78) as H5
    by (by vm_compute).
  assert (attached (this roster_state) char_78 = true) as H6 by (by vm_compute).
  assert (char_credentials char_78 = [2; 3]) as H6' by reflexivity.
  pose proof roster_state_pulled as H7.
  split_and!; [exact H1 | exact H2 | exact H3 | exact H4 | exact H5 | exact H6
              | exact H6' | exact H7 |].
  exact (pull_detaches_unreported_identities c5_env 1 roster_state c5_result 78
           char_78 _ _ H1 H2 H3 H4'' H4' H5 H6 H7).
Defined.
